(** * Mazungumzo AI chat widget: message formatter, API service, chat interface

    A shallow embedding of the browser-side logic of the widget
    (services/messageFormatter.js, services/api.js and
    components/ChatInterface.js, and of the components CrisisAlert,
    StatsBar and LanguageToggle what does not depend on the layout of the
    page) together with the properties of that logic.

    Strings are sequences of UTF-16 code units, as in the JavaScript
    engine; engine built-ins the code calls ([trim], [includes],
    [String.prototype.replace] with a global regular expression, [substr])
    are written out on that representation. *)

From Stdlib Require Import NArith ZArith Lia Ascii String DecimalString.
From stdpp Require Import base option list gmap.

#[local] Set Warnings "-register-all".
#[local] Open Scope N_scope.

(** ** Strings *)

(** A JavaScript string: its UTF-16 code units. *)
Abbreviation jsstring := (list N).

(** A source literal made of ASCII characters only. *)
Definition lit (s : string) : jsstring :=
  map N_of_ascii (list_ascii_of_string s).

(** The double quote, which occurs in the HTML templates. *)
Definition dq : jsstring := [34].

(** Decimal rendering of an integer, as [ToString] gives for integral
    numbers. *)
Definition decimal (z : Z) : jsstring :=
  lit (NilZero.string_of_int (Z.to_int z)).

(** ECMAScript [WhiteSpace] and [LineTerminator] code points: what both
    [\s] and [trim] treat as white space. *)
Definition isSpace (c : N) : bool :=
  ((9 <=? c) && (c <=? 13)) || (c =? 32) || (c =? 160) || (c =? 5760)
  || ((8192 <=? c) && (c <=? 8202)) || (c =? 8232) || (c =? 8233)
  || (c =? 8239) || (c =? 8287) || (c =? 12288) || (c =? 65279).

Definition notSpace (c : N) : bool := negb (isSpace c).

(** [\d] *)
Definition isDigit (c : N) : bool := (48 <=? c) && (c <=? 57).

Fixpoint dropWhile (p : N → bool) (s : jsstring) : jsstring :=
  match s with
  | c :: s' => if p c then dropWhile p s' else s
  | [] => []
  end.

Fixpoint takeWhile (p : N → bool) (s : jsstring) : jsstring :=
  match s with
  | c :: s' => if p c then c :: takeWhile p s' else []
  | [] => []
  end.

(** [String.prototype.trim]: white space removed at both ends. *)
Definition trimStart (s : jsstring) : jsstring := dropWhile isSpace s.

Fixpoint trimEnd (s : jsstring) : jsstring :=
  match s with
  | [] => []
  | c :: s' =>
      match trimEnd s' with
      | [] => if isSpace c then [] else [c]
      | t => c :: t
      end
  end.

Definition trim (s : jsstring) : jsstring := trimEnd (trimStart s).

(** [s.substr(0, n)] *)
Definition substr0 (n : nat) (s : jsstring) : jsstring := take n s.

Fixpoint startsWith (k s : jsstring) : bool :=
  match k, s with
  | [], _ => true
  | c :: k', d :: s' => (c =? d) && startsWith k' s'
  | _ :: _, [] => false
  end.

(** [s.includes(k)]: [k] occurs in [s] as a run of consecutive code
    units. *)
Fixpoint includes (s k : jsstring) : bool :=
  startsWith k s
  || match s with
     | [] => false
     | _ :: s' => includes s' k
     end.

(** ** Regular expressions

    The fragment of the regular-expression language the source uses:
    character classes, literal text, sequence, alternation, the greedy
    [?], and the greedy quantifiers [+] and [{n}], which the source only
    applies to character classes. Each pattern of the source has one
    capture group that spans the whole match, so [$1] is the match. *)
Module Regex.

Inductive regex :=
| Class (p : N → bool)
| Str (l : jsstring)
| Seq (r1 r2 : regex)
| Alt (r1 r2 : regex)
| Opt (r : regex)
| Plus (p : N → bool)
| Rep (n : nat) (p : N → bool).

(** Backtracking matcher in continuation-passing style: [k] is run on
    what is left of the input once the pattern has matched, and a
    failure of [k] makes the pattern try its next alternative. *)
Definition cont := jsstring → option jsstring.

Fixpoint str_k (l s : jsstring) (k : cont) : option jsstring :=
  match l with
  | [] => k s
  | c :: l' =>
      match s with
      | d :: s' => if c =? d then str_k l' s' k else None
      | [] => None
      end
  end.

Fixpoint plus_k (p : N → bool) (s : jsstring) (k : cont) : option jsstring :=
  match s with
  | c :: s' =>
      if p c then
        match plus_k p s' k with
        | Some r => Some r
        | None => k s'
        end
      else None
  | [] => None
  end.

Fixpoint rep_k (n : nat) (p : N → bool) (s : jsstring) (k : cont)
  : option jsstring :=
  match n with
  | O => k s
  | S n' =>
      match s with
      | c :: s' => if p c then rep_k n' p s' k else None
      | [] => None
      end
  end.

Fixpoint run (r : regex) (s : jsstring) (k : cont) : option jsstring :=
  match r with
  | Class p =>
      match s with
      | c :: s' => if p c then k s' else None
      | [] => None
      end
  | Str l => str_k l s k
  | Seq r1 r2 => run r1 s (λ s1, run r2 s1 k)
  | Alt r1 r2 =>
      match run r1 s k with
      | Some rest => Some rest
      | None => run r2 s k
      end
  | Opt r1 =>
      match run r1 s k with
      | Some rest => Some rest
      | None => k s
      end
  | Plus p => plus_k p s k
  | Rep n p => rep_k n p s k
  end.

(** A match attempt at the start of [s]: what follows the match. *)
Definition exec (r : regex) (s : jsstring) : option jsstring :=
  run r s Some.

(** [s.replace(r, ...)] for a global [r]: the input is scanned from the
    left; at a match the replacement is emitted and the scan resumes
    after the match (one unit further after an empty match), otherwise
    the unit is copied. [tpl] maps the matched text to its replacement.
    Every round consumes a unit or ends the scan, so the fuel given by
    [replace] is never exhausted. *)
Fixpoint replace_loop (fuel : nat) (r : regex) (tpl : jsstring → jsstring)
    (s : jsstring) : jsstring :=
  match fuel with
  | O => s
  | S fuel' =>
      match exec r s with
      | Some rest =>
          match take (length s - length rest) s, s with
          | [], [] => tpl []
          | [], c :: s' => tpl [] ++ c :: replace_loop fuel' r tpl s'
          | m, _ => tpl m ++ replace_loop fuel' r tpl rest
          end
      | None =>
          match s with
          | [] => []
          | c :: s' => c :: replace_loop fuel' r tpl s'
          end
      end
  end.

Definition replace (r : regex) (tpl : jsstring → jsstring) (s : jsstring)
  : jsstring :=
  replace_loop (S (length s)) r tpl s.

End Regex.
Import Regex.

(** ** Values and exceptions *)

(** The values the widget handles: parsed JSON, plus [undefined], which
    reading an absent property yields. Numbers are the integral ones;
    the code only tests them for zero and displays them. *)
Inductive jsval :=
| VUndefined
| VNull
| VBool (b : bool)
| VNum (n : Z)
| VStr (s : jsstring)
| VArr (items : list jsval)
| VObj (fields : gmap jsstring jsval).

(** An object literal; the literals of the source name each property
    once. *)
Definition obj (fields : list (jsstring * jsval)) : jsval :=
  VObj (list_to_map fields).

(** The operand test of [!], [||], [&&], [?:] and [if]. *)
Definition truthy (v : jsval) : bool :=
  match v with
  | VUndefined | VNull => false
  | VBool b => b
  | VNum n => negb (n =? 0)%Z
  | VStr s => match s with [] => false | _ => true end
  | VArr _ | VObj _ => true
  end.

Inductive exn :=
| Error (message : jsstring)
| TypeError (message : jsstring).

Definition message (e : exn) : jsstring :=
  match e with
  | Error m | TypeError m => m
  end.

(** A computation that returns or throws. *)
Inductive result (A : Type) :=
| Ok (a : A)
| Throw (e : exn).
Arguments Ok {A} a.
Arguments Throw {A} e.

#[global] Instance result_ret : MRet result := @Ok.
#[global] Instance result_bind : MBind result := λ A B f r,
  match r with
  | Ok a => f a
  | Throw e => Throw e
  end.

(** [v[key]] for a key that no built-in prototype defines: an own
    property of an object, [undefined] on any other value, and a
    [TypeError] on [null] and [undefined]. *)
Definition getProp (v : jsval) (key : jsstring) : result jsval :=
  match v with
  | VUndefined | VNull =>
      Throw (TypeError (lit "Cannot read properties of null or undefined"))
  | VObj fields => Ok (default VUndefined (fields !! key))
  | _ => Ok VUndefined
  end.

(** The names of the properties of [Object.prototype], which every
    object literal inherits. Under [__proto__] an object finds its
    prototype, under each of the others a built-in function. *)
Definition objectPrototypeNames : list jsstring :=
  [lit "constructor"; lit "hasOwnProperty"; lit "isPrototypeOf";
   lit "propertyIsEnumerable"; lit "toLocaleString"; lit "toString";
   lit "valueOf"; lit "__proto__"; lit "__defineGetter__";
   lit "__defineSetter__"; lit "__lookupGetter__"; lit "__lookupSetter__"].

(** A parameter with a default value takes it when the argument is left
    out. *)
Definition param {A} (dflt : A) (arg : option A) : A := default dflt arg.

(** ** services/messageFormatter.js *)
Module MessageFormatter.

(** U+26A0 U+FE0F, the warning sign that opens both crisis titles. *)
Definition warningSign : jsstring := [9888; 65039].

(** [this.translations], a table per language code: the own properties
    of the object literals. What they inherit from [Object.prototype]
    is added where they are read, in [tableEntry] and [translate]. *)
Definition translations : gmap jsstring (gmap jsstring jsstring) :=
  list_to_map [
    (lit "en", list_to_map [
      (lit "typing", lit "Mazungumzo is typing...");
      (lit "sendButton", lit "Send");
      (lit "placeholder", lit "Type your message...");
      (lit "crisisTitle", warningSign ++ lit " Crisis Support Detected");
      (lit "crisisMessage",
        lit "I see you might need immediate help. Please contact:");
      (lit "errorMessage",
        lit "Sorry, there was a technical issue. Please try again.");
      (lit "welcomeMessage",
        lit "Hello! I'm Mazungumzo, your mental health companion. I can help you in English or Swahili. How are you feeling today?")
    ]);
    (lit "sw", list_to_map [
      (lit "typing", lit "Mazungumzo anaandika...");
      (lit "sendButton", lit "Tuma");
      (lit "placeholder", lit "Andika ujumbe wako...");
      (lit "crisisTitle", warningSign ++ lit " Msaada wa Haraka Umegundulika");
      (lit "crisisMessage",
        lit "Naona unaweza kuhitaji msaada wa haraka. Tafadhali wasiliana na:");
      (lit "errorMessage",
        lit "Pole sana, kuna tatizo la kiufundi. Tafadhali jaribu tena.");
      (lit "welcomeMessage",
        lit "Hujambo! Mimi ni Mazungumzo, rafiki yako wa kusaidia katika mambo ya afya ya akili. Naweza kukusaidia kwa lugha ya Kiingereza au Kiswahili. Unahisije leo?")
    ])
  ].

(** [div.textContent = content; return div.innerHTML]: the text as the
    HTML serialisation of a text node escapes it. *)
Definition escapeUnit (c : N) : jsstring :=
  if c =? 38 then lit "&amp;"
  else if c =? 60 then lit "&lt;"
  else if c =? 62 then lit "&gt;"
  else if c =? 160 then lit "&nbsp;"
  else [c].

Definition sanitizeHTML (content : jsstring) : jsstring :=
  concat (map escapeUnit content).

(** [/\n/g] *)
Definition newlineRegex : regex := Class (N.eqb 10).

(** [/(https?:\/\/[^\s]+)/g] *)
Definition urlRegex : regex :=
  Seq (Str (lit "http"))
    (Seq (Opt (Class (N.eqb 115)))
      (Seq (Str (lit "://")) (Plus notSpace))).

(** [/(\+254\d{9}|\d{10})/g] *)
Definition phoneRegex : regex :=
  Alt (Seq (Str (lit "+254")) (Rep 9 isDigit)) (Rep 10 isDigit).

Definition brTemplate (_ : jsstring) : jsstring := lit "<br>".

(** ['<a href="$1" target="_blank" rel="noopener noreferrer">$1</a>'] *)
Definition urlTemplate (m : jsstring) : jsstring :=
  lit "<a href=" ++ dq ++ m ++ dq ++ lit " target=" ++ dq ++ lit "_blank"
    ++ dq ++ lit " rel=" ++ dq ++ lit "noopener noreferrer" ++ dq
    ++ lit ">" ++ m ++ lit "</a>".

(** ['<a href="tel:$1">$1</a>'] *)
Definition telTemplate (m : jsstring) : jsstring :=
  lit "<a href=" ++ dq ++ lit "tel:" ++ m ++ dq ++ lit ">" ++ m
    ++ lit "</a>".

(** [formatMessage(content, allowHTML = false)] on a string. *)
Definition formatMessage (content : jsstring) (allowHTML : option bool)
  : jsstring :=
  match content with
  | [] => []
  | _ =>
      let formatted :=
        if param false allowHTML then content else sanitizeHTML content in
      let formatted := replace newlineRegex brTemplate formatted in
      let formatted := replace urlRegex urlTemplate formatted in
      let formatted := replace phoneRegex telTemplate formatted in
      formatted
  end.

(** The call [formatMessage(v, true)] that [addMessage] and
    [formatCrisisResources] make, where [v] comes from the server and
    may be of any type: a falsy value gives [''], a string is
    formatted, and any other value has no [replace] method. *)
Definition formatMessageHTML (v : jsval) : result jsstring :=
  if negb (truthy v) then Ok []
  else
    match v with
    | VStr s => Ok (formatMessage s (Some true))
    | _ => Throw (TypeError (lit "formatted.replace is not a function"))
    end.

(** A table entry read as a condition: present and not the empty
    string. *)
Definition entryTruthy (e : option jsstring) : bool :=
  match e with
  | Some (_ :: _) => true
  | _ => false
  end.

(** What [translate] returns. Besides the strings of its tables and the
    key, these are values of the engine's built-in objects, which the
    tables and [translations] itself inherit from [Object.prototype]:
    - [Inherited name] is the property [name] of [Object.prototype], for
      one of its names: a built-in function, or under [__proto__] the
      object [Object.prototype];
    - [BuiltIn name key otherwise] is what the built-in function
      [Object.prototype[name]] has under [key], as [Object.name] has the
      string [Object] under [name], if the engine has a value there that
      holds as a condition, and [otherwise] if it has not. *)
Inductive translated :=
| Text (text : jsstring)
| Inherited (name : jsstring)
| BuiltIn (name key : jsstring) (otherwise : translated).

(** [table[key]] for a table of [translations], as an operand of [||]:
    [None] when the value does not hold as a condition. An entry of the
    table comes first; for a name of [Object.prototype] the table finds
    what it inherits. *)
Definition tableEntry (table : gmap jsstring jsstring) (key : jsstring)
  : option translated :=
  match table !! key with
  | Some text => if entryTruthy (Some text) then Some (Text text) else None
  | None =>
      if bool_decide (key ∈ objectPrototypeNames) then Some (Inherited key)
      else None
  end.

(** The properties [caller] and [arguments], which every built-in
    function inherits from [Function.prototype]: reading them throws. *)
Definition restrictedProperties : list jsstring :=
  [lit "caller"; lit "arguments"].

(** [translate(key, language = 'en')]:
    [this.translations[language]?.[key] || this.translations.en[key] || key].
    For a [language] that is a name of [Object.prototype],
    [this.translations[language]] is a built-in object: under
    [__proto__] the object [Object.prototype], whose properties are
    those that the tables inherit (its own prototype is [null]), and
    under each other name a function. The built-in functions have no
    property named as a key of the tables. *)
Definition translate (key : jsstring) (language : option jsstring)
  : result translated :=
  let language := param (lit "en") language in
  match translations !! lit "en" with
  | None =>
      Throw (TypeError (lit "Cannot read properties of undefined"))
  | Some en =>
      let otherwise := default (Text key) (tableEntry en key) in
      match translations !! language with
      | Some table => Ok (default otherwise (tableEntry table key))
      | None =>
          if bool_decide (language = lit "__proto__") then
            Ok (if bool_decide (key ∈ objectPrototypeNames)
                   && negb (bool_decide (key = lit "__proto__"))
                then Inherited key
                else otherwise)
          else if bool_decide (language ∈ objectPrototypeNames) then
            if bool_decide (key ∈ restrictedProperties) then
              Throw (TypeError (lit "restricted function property"))
            else
              match en !! key with
              | Some _ => Ok otherwise
              | None => Ok (BuiltIn language key otherwise)
              end
          else Ok otherwise
      end
  end.

(** A translation that the code goes on to use as a string, as it does
    with all of them. The keys it passes are keys of the tables, for
    which [translate] returns a string in every language; that a
    built-in value should turn up here happens on no run of the code,
    and what the code would make of one is not modelled. *)
Definition asText (t : translated) : result jsstring :=
  match t with
  | Text text => Ok text
  | _ => Throw (TypeError (lit "not a string"))
  end.

(** The keyword list of [detectCrisisIndicators]; the first eight
    entries stand under the comment [// English], the last seven under
    [// Swahili]. *)
Definition crisisKeywords : list jsstring := [
  lit "suicide"; lit "kill myself"; lit "end it all";
  lit "don't want to live";
  lit "cutting"; lit "self harm"; lit "overdose"; lit "emergency";
  lit "kujiua"; lit "kufa"; lit "maumivu"; lit "tatizo kubwa";
  lit "msaada wa haraka"; lit "emergency"; lit "hospitali"
].

Section CrisisDetection.

(** [String.prototype.toLowerCase], whose Unicode case table belongs
    to the engine. *)
Variable toLowerCase : jsstring → jsstring.

Definition detectCrisisIndicators (message : jsstring) : bool :=
  let messageLower := toLowerCase message in
  existsb (λ keyword, includes messageLower keyword) crisisKeywords.

End CrisisDetection.

(** The case mapping on Basic Latin, where [toLowerCase] sends [A]-[Z]
    to [a]-[z] and leaves every other unit as it is. *)
Definition asciiLowerUnit (c : N) : N :=
  if (65 <=? c) && (c <=? 90) then c + 32 else c.

Definition asciiLower (s : jsstring) : jsstring := map asciiLowerUnit s.

(** The upper case of the units of Basic Latin and of U+017F, the long
    s, which is a lower-case letter with upper case [S]. On strings of
    these units [toUpperCase] works unit by unit in this way, and
    [toLowerCase] is [asciiLower]. *)
Definition latinUpperUnit (c : N) : N :=
  if (97 <=? c) && (c <=? 122) then c - 32
  else if c =? 383 then 83
  else c.

Definition latinUpper (s : jsstring) : jsstring := map latinUpperUnit s.

(** [resources.length === 0] *)
Definition lengthIsZero (v : jsval) : bool :=
  match v with
  | VStr [] | VArr [] => true
  | VObj fields =>
      match fields !! lit "length" with
      | Some (VNum 0) => true
      | _ => false
      end
  | _ => false
  end.

Fixpoint forEachResource (items : list jsval) (html : jsstring)
  : result jsstring :=
  match items with
  | [] => Ok html
  | resource :: items' =>
      item ← formatMessageHTML resource;
      forEachResource items'
        (html ++ lit "<div class=" ++ dq ++ lit "resource-item" ++ dq
           ++ lit ">" ++ item ++ lit "</div>")
  end.

(** [formatCrisisResources(resources, language = 'en')] *)
Definition formatCrisisResources (resources : jsval)
    (language : option jsstring) : result jsstring :=
  let language := param (lit "en") language in
  if negb (truthy resources) || lengthIsZero resources then Ok []
  else
    title ← translate (lit "crisisMessage") (Some language) ≫= asText;
    let html :=
      lit "<p><strong>" ++ title ++ lit "</strong></p><div class=" ++ dq
        ++ lit "resources" ++ dq ++ lit ">" in
    match resources with
    | VArr items =>
        html ← forEachResource items html;
        Ok (html ++ lit "</div>")
    | _ => Throw (TypeError (lit "resources.forEach is not a function"))
    end.

(** [/\s+/g] *)
Definition spacesRegex : regex := Plus isSpace.

Definition spaceTemplate (_ : jsstring) : jsstring := lit " ".

(** [formatUserInput(input)] *)
Definition formatUserInput (input : jsstring) : jsstring :=
  match input with
  | [] => []
  | _ =>
      let formatted := trim input in
      let formatted := replace spacesRegex spaceTemplate formatted in
      let formatted := substr0 1000 formatted in
      formatted
  end.

(** [s.substr(0, n)] for a number [n]: a negative length takes
    nothing. *)
Definition substrTo (n : Z) (s : jsstring) : jsstring :=
  substr0 (Z.to_nat n) s.

(** [truncateText(text, maxLength = 100)] *)
Definition truncateText (text : jsstring) (maxLength : option Z) : jsstring :=
  let maxLength := param 100%Z maxLength in
  if negb (truthy (VStr text)) || (Z.of_nat (length text) <=? maxLength)%Z
  then text
  else substrTo (maxLength - 3) text ++ lit "...".

Section Timestamps.

(** [date.toLocaleDateString(locale, options)] with the options of
    [formatTimestamp]; the calendar and the locale data are the
    engine's. *)
Variable toLocaleDateString : jsstring → Z → jsstring.

(** [formatTimestamp(timestamp, language = 'en')], with [now] the time
    of the call and both times in milliseconds since the epoch. Time
    values are integers; for times less than 2^53 ms apart the floors
    taken here are those of the exact quotients. *)
Definition formatTimestamp (now timestamp : Z) (language : option jsstring)
  : jsstring :=
  let language := param (lit "en") language in
  let sw := bool_decide (language = lit "sw") in
  let diffMs := (now - timestamp)%Z in
  let diffMins := (diffMs / 60000)%Z in
  let diffHours := (diffMs / 3600000)%Z in
  let diffDays := (diffMs / 86400000)%Z in
  if (diffMins <? 1)%Z then
    if sw then lit "Sasa hivi" else lit "Just now"
  else if (diffMins <? 60)%Z then
    if sw then lit "Dakika " ++ decimal diffMins ++ lit " zilizopita"
    else decimal diffMins ++ lit "m ago"
  else if (diffHours <? 24)%Z then
    if sw then lit "Saa " ++ decimal diffHours ++ lit " zilizopita"
    else decimal diffHours ++ lit "h ago"
  else if (diffDays <? 7)%Z then
    if sw then lit "Siku " ++ decimal diffDays ++ lit " zilizopita"
    else decimal diffDays ++ lit "d ago"
  else
    toLocaleDateString (if sw then lit "sw-KE" else lit "en-US") timestamp.

End Timestamps.

End MessageFormatter.

Import MessageFormatter.

(** ** Effects

    A computation over a state of type [S] that returns or throws; the
    state it has reached survives a throw, as a [catch] block sees it. *)
Definition M (S A : Type) : Type := S → S * result A.

#[global] Instance M_ret S : MRet (M S) := λ A a s, (s, Ok a).
#[global] Instance M_bind S : MBind (M S) := λ A B f m s,
  match m s with
  | (s', Ok a) => f a s'
  | (s', Throw e) => (s', Throw e)
  end.

Definition throw {S A} (e : exn) : M S A := λ s, (s, Throw e).

(** A pure computation, which may throw. *)
Definition lift {S A} (r : result A) : M S A := λ s, (s, r).

Definition get {S} : M S S := λ s, (s, Ok s).

Definition modify {S} (f : S → S) : M S unit := λ s, (f s, Ok tt).

(** [try { body } catch (error) { handler }] *)
Definition try_catch {S A} (body : M S A) (handler : exn → M S A) : M S A :=
  λ s,
    match body s with
    | (s', Ok a) => (s', Ok a)
    | (s', Throw e) => handler e s'
    end.

(** ** The network *)

(** What [fetch] is called with. [body] is the value handed to
    [JSON.stringify]. *)
Record Request := {
  url : jsstring;
  method : jsstring;
  headers : list (jsstring * jsstring);
  body : option jsval
}.

(** What [fetch] resolves to: [json] is the outcome of [response.json()],
    which throws when the body is not JSON. *)
Record Response := {
  ok : bool;
  status : Z;
  json : result jsval
}.

(** The requests issued so far, oldest first. *)
Abbreviation Net := (list Request).

(** ** services/api.js *)
Module APIService.

Definition baseURL : jsstring := lit "http://localhost:8000".

(** [this.endpoints] *)
Definition chat : jsstring := lit "/api/v1/chat".
Definition stats : jsstring := lit "/api/v1/stats".
Definition resources : jsstring := lit "/api/v1/resources".
Definition health : jsstring := lit "/api/v1/health".

Definition jsonHeaders : list (jsstring * jsstring) :=
  [(lit "Content-Type", lit "application/json")].

(** [fetch(url)] *)
Definition GET (url : jsstring) : Request :=
  {| url := url; method := lit "GET"; headers := []; body := None |}.

(** [fetch(url, {method: 'POST', headers: ..., body: JSON.stringify(data)})] *)
Definition POST (url : jsstring) (data : jsval) : Request :=
  {| url := url; method := lit "POST"; headers := jsonHeaders;
     body := Some data |}.

Definition httpError (response : Response) : exn :=
  Error (lit "HTTP error! status: " ++ decimal (status response)).

Section Network.

(** The server and the connection: what the request issued after [n]
    earlier ones meets, a response or a rejection. *)
Variable network : nat → Request → result Response.

Definition fetch (request : Request) : M Net Response :=
  λ log, (log ++ [request], network (length log) request).

(** The body shared by the five methods: the request, the status
    check, the parsed body. *)
Definition fetchJSON (request : Request) : M Net jsval :=
  response ← fetch request;
  if negb (ok response) then throw (httpError response)
  else lift (json response).

(** [sendMessage(message, userId, language = 'en', platform = 'web')] *)
Definition sendMessage (message userId : jsstring)
    (language platform : option jsstring) : M Net jsval :=
  let language := param (lit "en") language in
  let platform := param (lit "web") platform in
  try_catch
    (fetchJSON (POST (baseURL ++ chat) (obj [
       (lit "user_id", VStr userId);
       (lit "message", VStr message);
       (lit "language", VStr language);
       (lit "platform", VStr platform)])))
    (λ error,
       throw (Error (lit "Failed to send message. Please try again."))).

(** [getStats()] *)
Definition defaultStats : jsval :=
  obj [(lit "active_users", VNum 0);
       (lit "total_conversations", VNum 0);
       (lit "resources_available", VNum 0)].

Definition getStats : M Net jsval :=
  try_catch
    (fetchJSON (GET (baseURL ++ stats)))
    (λ error, mret defaultStats).

(** [getResources()] *)
Definition getResources : M Net jsval :=
  try_catch
    (fetchJSON (GET (baseURL ++ resources)))
    (λ error, throw (Error (lit "Failed to load resources"))).

(** [checkHealth()] *)
Definition checkHealth : M Net jsval :=
  try_catch
    (fetchJSON (GET (baseURL ++ health)))
    (λ error,
       mret (obj [(lit "status", VStr (lit "unhealthy"));
                  (lit "error", VStr (message error))])).

(** [sendFeedback(userId, messageId, feedback)] *)
Definition sendFeedback (userId messageId feedback : jsstring)
  : M Net jsval :=
  try_catch
    (fetchJSON (POST (baseURL ++ chat ++ lit "/feedback") (obj [
       (lit "user_id", VStr userId);
       (lit "message_id", VStr messageId);
       (lit "feedback", VStr feedback)])))
    (λ error, throw (Error (lit "Failed to send feedback"))).

End Network.

End APIService.

(** ** components/ChatInterface.js

    An [async] method is one step from the state in which it is called to
    the state in which its promise settles; what each request meets on
    the way is given by the environment. *)
Module ChatInterface.

(** A message element appended to the [#messages] node. [className] is
    the assigned [message <type>]; [fadeIn] records the [fade-in] class
    that [addMessage] adds once the element is in place. The class
    that the element has on the page after that is [classAttribute]
    below. *)
Record MessageEl := {
  className : jsstring;
  messageId : jsstring;
  innerHTML : jsstring;
  fadeIn : bool
}.

(** ASCII white space, which separates the tokens of a class. *)
Definition isAsciiWhitespace (c : N) : bool :=
  (c =? 9) || (c =? 10) || (c =? 12) || (c =? 13) || (c =? 32).

(** The tokens of a class: the runs of units between white space, in
    order; [token] is the run read so far. *)
Fixpoint splitOnWhitespace (token s : jsstring) : list jsstring :=
  match s with
  | [] =>
      match token with
      | [] => []
      | _ => [token]
      end
  | c :: s' =>
      if isAsciiWhitespace c then
        match token with
        | [] => splitOnWhitespace [] s'
        | _ => token :: splitOnWhitespace [] s'
        end
      else splitOnWhitespace (token ++ [c]) s'
  end.

(** The ordered set of some tokens: each of them once, at the place of
    its first occurrence. *)
Fixpoint orderedSet (seen tokens : list jsstring) : list jsstring :=
  match tokens with
  | [] => []
  | token :: tokens' =>
      if bool_decide (token ∈ seen) then orderedSet seen tokens'
      else token :: orderedSet (token :: seen) tokens'
  end.

(** Tokens written out as a class, with single spaces between them. *)
Fixpoint serialize (tokens : list jsstring) : jsstring :=
  match tokens with
  | [] => []
  | [token] => token
  | token :: tokens' => token ++ [32] ++ serialize tokens'
  end.

(** [element.classList.add(token)] on an element of class [class]: the
    class is read as an ordered set of tokens, the token is added to the
    set, and the set is written back. *)
Definition classListAdd (token class : jsstring) : jsstring :=
  serialize (orderedSet [] (splitOnWhitespace [] class ++ [token])).

(** The class that a message element has on the page: the one assigned,
    and once [fade-in] has been added what [classList.add] makes of
    it. *)
Definition classAttribute (el : MessageEl) : jsstring :=
  if fadeIn el then classListAdd (lit "fade-in") (className el)
  else className el.

(** An entry of [this.messageHistory]. *)
Record HistoryEntry := {
  id : jsstring;
  type : jsstring;
  content : jsval;
  timestamp : Z;
  metadata : jsval
}.

(** Callbacks handed to [setTimeout]. *)
Inductive Timer :=
| ScrollToBottom
| HideCrisisAlert.

(** The component and the part of the page it works on. Text assigned
    to a [textContent] is kept as the value assigned. *)
Record Chat := {
  (* fields of the component *)
  currentLanguage : jsstring;
  userId : jsstring;
  isTyping : bool;
  messageHistory : list HistoryEntry;
  (* the page *)
  messages : list MessageEl;           (* children of #messages *)
  inputValue : jsstring;               (* #messageInput.value *)
  typingShown : bool;                  (* #typingIndicator has class show *)
  sendDisabled : bool;                 (* #sendButton.disabled *)
  crisisShown : bool;                  (* #crisisAlert has class show *)
  crisisResources : jsstring;          (* #crisisResources.innerHTML *)
  activeUsers : jsval;                 (* #activeUsers.textContent *)
  totalConversations : jsval;          (* #totalConversations.textContent *)
  resourcesAvailable : jsval;          (* #resourcesAvailable.textContent *)
  (* the world around it *)
  requests : Net;                      (* requests issued *)
  timers : list (Z * Timer);           (* pending timeouts, with delay *)
  ticks : nat                          (* ids and time stamps drawn *)
}.

(** What the component reads from outside: the network, and the clock
    and random source behind message ids and time stamps. *)
Record Env := {
  network : nat → Request → result Response;
  messageIdAt : nat → jsstring;
  nowAt : nat → Z
}.

Definition setTyping (show : bool) (st : Chat) : Chat :=
  {| currentLanguage := currentLanguage st; userId := userId st;
     isTyping := show; messageHistory := messageHistory st;
     messages := messages st; inputValue := inputValue st;
     typingShown := show; sendDisabled := show;
     crisisShown := crisisShown st; crisisResources := crisisResources st;
     activeUsers := activeUsers st;
     totalConversations := totalConversations st;
     resourcesAvailable := resourcesAvailable st;
     requests := requests st; timers := timers st; ticks := ticks st |}.

Definition setInputValue (value : jsstring) (st : Chat) : Chat :=
  {| currentLanguage := currentLanguage st; userId := userId st;
     isTyping := isTyping st; messageHistory := messageHistory st;
     messages := messages st; inputValue := value;
     typingShown := typingShown st; sendDisabled := sendDisabled st;
     crisisShown := crisisShown st; crisisResources := crisisResources st;
     activeUsers := activeUsers st;
     totalConversations := totalConversations st;
     resourcesAvailable := resourcesAvailable st;
     requests := requests st; timers := timers st; ticks := ticks st |}.

Definition appendMessage (el : MessageEl) (entry : HistoryEntry)
    (st : Chat) : Chat :=
  {| currentLanguage := currentLanguage st; userId := userId st;
     isTyping := isTyping st;
     messageHistory := messageHistory st ++ [entry];
     messages := messages st ++ [el]; inputValue := inputValue st;
     typingShown := typingShown st; sendDisabled := sendDisabled st;
     crisisShown := crisisShown st; crisisResources := crisisResources st;
     activeUsers := activeUsers st;
     totalConversations := totalConversations st;
     resourcesAvailable := resourcesAvailable st;
     requests := requests st;
     timers := timers st ++ [(100%Z, ScrollToBottom)];
     ticks := ticks st |}.

Definition drawTick (st : Chat) : Chat :=
  {| currentLanguage := currentLanguage st; userId := userId st;
     isTyping := isTyping st; messageHistory := messageHistory st;
     messages := messages st; inputValue := inputValue st;
     typingShown := typingShown st; sendDisabled := sendDisabled st;
     crisisShown := crisisShown st; crisisResources := crisisResources st;
     activeUsers := activeUsers st;
     totalConversations := totalConversations st;
     resourcesAvailable := resourcesAvailable st;
     requests := requests st; timers := timers st;
     ticks := S (ticks st) |}.

Definition setTimeout (delay : Z) (callback : Timer) (st : Chat) : Chat :=
  {| currentLanguage := currentLanguage st; userId := userId st;
     isTyping := isTyping st; messageHistory := messageHistory st;
     messages := messages st; inputValue := inputValue st;
     typingShown := typingShown st; sendDisabled := sendDisabled st;
     crisisShown := crisisShown st; crisisResources := crisisResources st;
     activeUsers := activeUsers st;
     totalConversations := totalConversations st;
     resourcesAvailable := resourcesAvailable st;
     requests := requests st; timers := timers st ++ [(delay, callback)];
     ticks := ticks st |}.

Definition setCrisisAlert (html : jsstring) (st : Chat) : Chat :=
  {| currentLanguage := currentLanguage st; userId := userId st;
     isTyping := isTyping st; messageHistory := messageHistory st;
     messages := messages st; inputValue := inputValue st;
     typingShown := typingShown st; sendDisabled := sendDisabled st;
     crisisShown := true; crisisResources := html;
     activeUsers := activeUsers st;
     totalConversations := totalConversations st;
     resourcesAvailable := resourcesAvailable st;
     requests := requests st; timers := timers st; ticks := ticks st |}.

Definition setActiveUsers (v : jsval) (st : Chat) : Chat :=
  {| currentLanguage := currentLanguage st; userId := userId st;
     isTyping := isTyping st; messageHistory := messageHistory st;
     messages := messages st; inputValue := inputValue st;
     typingShown := typingShown st; sendDisabled := sendDisabled st;
     crisisShown := crisisShown st; crisisResources := crisisResources st;
     activeUsers := v;
     totalConversations := totalConversations st;
     resourcesAvailable := resourcesAvailable st;
     requests := requests st; timers := timers st; ticks := ticks st |}.

Definition setTotalConversations (v : jsval) (st : Chat) : Chat :=
  {| currentLanguage := currentLanguage st; userId := userId st;
     isTyping := isTyping st; messageHistory := messageHistory st;
     messages := messages st; inputValue := inputValue st;
     typingShown := typingShown st; sendDisabled := sendDisabled st;
     crisisShown := crisisShown st; crisisResources := crisisResources st;
     activeUsers := activeUsers st;
     totalConversations := v;
     resourcesAvailable := resourcesAvailable st;
     requests := requests st; timers := timers st; ticks := ticks st |}.

Definition setResourcesAvailable (v : jsval) (st : Chat) : Chat :=
  {| currentLanguage := currentLanguage st; userId := userId st;
     isTyping := isTyping st; messageHistory := messageHistory st;
     messages := messages st; inputValue := inputValue st;
     typingShown := typingShown st; sendDisabled := sendDisabled st;
     crisisShown := crisisShown st; crisisResources := crisisResources st;
     activeUsers := activeUsers st;
     totalConversations := totalConversations st;
     resourcesAvailable := v;
     requests := requests st; timers := timers st; ticks := ticks st |}.

Definition setRequests (log : Net) (st : Chat) : Chat :=
  {| currentLanguage := currentLanguage st; userId := userId st;
     isTyping := isTyping st; messageHistory := messageHistory st;
     messages := messages st; inputValue := inputValue st;
     typingShown := typingShown st; sendDisabled := sendDisabled st;
     crisisShown := crisisShown st; crisisResources := crisisResources st;
     activeUsers := activeUsers st;
     totalConversations := totalConversations st;
     resourcesAvailable := resourcesAvailable st;
     requests := log; timers := timers st; ticks := ticks st |}.

Definition setCrisisShown (shown : bool) (st : Chat) : Chat :=
  {| currentLanguage := currentLanguage st; userId := userId st;
     isTyping := isTyping st; messageHistory := messageHistory st;
     messages := messages st; inputValue := inputValue st;
     typingShown := typingShown st; sendDisabled := sendDisabled st;
     crisisShown := shown; crisisResources := crisisResources st;
     activeUsers := activeUsers st;
     totalConversations := totalConversations st;
     resourcesAvailable := resourcesAvailable st;
     requests := requests st; timers := timers st; ticks := ticks st |}.

(** What a callback handed to [setTimeout] does when its time has come:
    the one of [showCrisisAlert] takes the alert down; scrolling is not
    part of the state. *)
Definition runTimer (callback : Timer) (st : Chat) : Chat :=
  match callback with
  | ScrollToBottom => st
  | HideCrisisAlert => setCrisisShown false st
  end.

(** A call into [apiService]: it works on the request log. *)
Definition api {A} (call : M Net A) : M Chat A :=
  λ st,
    let (log, r) := call (requests st) in
    (setRequests log st, r).

(** [await promise], seen from the page. The request is made at once;
    until its outcome is there, timers run out and the user goes on
    using the page: [meanwhile] is what all of that does to the
    component and the page. *)
Definition await {A} (meanwhile : Chat → Chat) (promise : M Chat A)
  : M Chat A :=
  λ st,
    let (st', r) := promise st in
    (meanwhile st', r).

(** [a || b] *)
Definition or_else (a b : jsval) : jsval := if truthy a then a else b.

Section Component.

Variable env : Env.

(** [scrollToBottom()]: the scrolling itself is deferred. *)
Definition scrollToBottom : M Chat unit :=
  modify (setTimeout 100 ScrollToBottom).

(** [addMessage(content, type, metadata = {})]. The id and the time
    stamp are drawn first; the bubble is formatted before the element
    is appended, so a content that cannot be formatted leaves the
    page and the history as they are. The white space that lays out
    the template of the element is left out. *)
Definition addMessage (content : jsval) (type : jsstring)
    (metadata : option jsval) : M Chat unit :=
  let metadata := param (obj []) metadata in
  st ← get;
  let messageId := messageIdAt env (ticks st) in
  let timestamp := nowAt env (ticks st) in
  _ ← modify drawTick;
  bubble ← lift (formatMessageHTML content);
  modify (appendMessage
    {| className := lit "message " ++ type;
       messageId := messageId;
       innerHTML :=
         lit "<div class=" ++ dq ++ lit "message-bubble" ++ dq ++ lit ">"
           ++ bubble ++ lit "</div>";
       fadeIn := true |}
    {| id := messageId; type := type; content := content;
       timestamp := timestamp; metadata := metadata |}).

(** [showTyping(show)] *)
Definition showTyping (show : bool) : M Chat unit :=
  _ ← modify (setTyping show);
  if show then scrollToBottom else mret tt.

(** [showCrisisAlert(resources)] *)
Definition showCrisisAlert (resources : jsval) : M Chat unit :=
  st ← get;
  resourcesHtml ←
    lift (formatCrisisResources resources (Some (currentLanguage st)));
  _ ← modify (setCrisisAlert resourcesHtml);
  modify (setTimeout 15000 HideCrisisAlert).

(** [updateStats()] *)
Definition updateStats : M Chat unit :=
  try_catch
    (stats ← api (APIService.getStats (network env));
     active_users ← lift (getProp stats (lit "active_users"));
     _ ← modify (setActiveUsers (or_else active_users (VNum 0)));
     total_conversations ←
       lift (getProp stats (lit "total_conversations"));
     _ ← modify
           (setTotalConversations (or_else total_conversations (VNum 0)));
     resources_available ←
       lift (getProp stats (lit "resources_available"));
     modify (setResourcesAvailable (or_else resources_available (VNum 0))))
    (λ error, mret tt).

(** [sendMessage()]. The height of the text area, which
    [autoResizeTextarea] takes from the layout, is not part of the
    state. [updateStats()] is started without being awaited; what it
    does, all of it on the statistics nodes and the request log, is
    placed at the end. The method is run here with nothing else
    happening while it waits for the answer; [sendMessageMeanwhile]
    below has what the page goes through in that time. *)
Definition sendMessage : M Chat unit :=
  st ← get;
  let message := formatUserInput (inputValue st) in
  if negb (truthy (VStr message)) || isTyping st then mret tt
  else
    _ ← addMessage (VStr message) (lit "user") None;
    _ ← modify (setInputValue []);
    _ ← showTyping true;
    try_catch
      (st ← get;
       response ← api (APIService.sendMessage (network env) message
                         (userId st) (Some (currentLanguage st))
                         (Some (lit "web")));
       _ ← showTyping false;
       is_crisis ← lift (getProp response (lit "is_crisis"));
       let messageClass :=
         if truthy is_crisis then lit "crisis" else lit "bot" in
       reply ← lift (getProp response (lit "response"));
       confidence ← lift (getProp response (lit "confidence"));
       resources ← lift (getProp response (lit "resources"));
       _ ← addMessage reply messageClass (Some (obj [
             (lit "isCrisis", is_crisis);
             (lit "confidence", confidence);
             (lit "resources", resources)]));
       _ ← (if truthy is_crisis && truthy resources
            then showCrisisAlert resources else mret tt);
       updateStats)
      (λ error,
         _ ← showTyping false;
         st ← get;
         errorMsg ← lift (translate (lit "errorMessage")
                            (Some (currentLanguage st)) ≫= asText);
         addMessage (VStr errorMsg) (lit "bot") None).

(** [sendMessage()] together with what happens on the page while it
    waits for the answer of the chat API. [sendMessage] above is the run
    in which nothing happens meanwhile. *)
Definition sendMessageMeanwhile (meanwhile : Chat → Chat) : M Chat unit :=
  st ← get;
  let message := formatUserInput (inputValue st) in
  if negb (truthy (VStr message)) || isTyping st then mret tt
  else
    _ ← addMessage (VStr message) (lit "user") None;
    _ ← modify (setInputValue []);
    _ ← showTyping true;
    try_catch
      (st ← get;
       response ← await meanwhile
                    (api (APIService.sendMessage (network env) message
                            (userId st) (Some (currentLanguage st))
                            (Some (lit "web"))));
       _ ← showTyping false;
       is_crisis ← lift (getProp response (lit "is_crisis"));
       let messageClass :=
         if truthy is_crisis then lit "crisis" else lit "bot" in
       reply ← lift (getProp response (lit "response"));
       confidence ← lift (getProp response (lit "confidence"));
       resources ← lift (getProp response (lit "resources"));
       _ ← addMessage reply messageClass (Some (obj [
             (lit "isCrisis", is_crisis);
             (lit "confidence", confidence);
             (lit "resources", resources)]));
       _ ← (if truthy is_crisis && truthy resources
            then showCrisisAlert resources else mret tt);
       updateStats)
      (λ error,
         _ ← showTyping false;
         st ← get;
         errorMsg ← lift (translate (lit "errorMessage")
                            (Some (currentLanguage st)) ≫= asText);
         addMessage (VStr errorMsg) (lit "bot") None).

End Component.

End ChatInterface.

(** ** components/ChatInterface.js, the language buttons and the first
    message *)
Module ChatPage.

Import ChatInterface.

(** An entry of the table [texts] of [updateUILanguage]. *)
Record UiTexts := {
  placeholder : jsstring;
  send : jsstring;
  typing : jsstring
}.

Definition en : UiTexts :=
  {| placeholder := lit "Type your message...";
     send := lit "Send";
     typing := lit "Mazungumzo is typing" |}.

Definition sw : UiTexts :=
  {| placeholder := lit "Andika ujumbe wako...";
     send := lit "Tuma";
     typing := lit "Mazungumzo anaandika" |}.

Definition texts : gmap jsstring UiTexts :=
  list_to_map [(lit "en", en); (lit "sw", sw)].

(** The properties that every object literal inherits from
    [Object.prototype]. Each of them is a function or an object: read as
    a condition it holds, and it has no property [placeholder], [send]
    or [typing]. *)
Definition objectPrototype : list jsstring := objectPrototypeNames.

(** [texts[language] || texts.en]; [None] stands for a value inherited
    from [Object.prototype]. *)
Definition currentTexts (language : jsstring) : option UiTexts :=
  match texts !! language with
  | Some t => Some t
  | None =>
      if bool_decide (language ∈ objectPrototype) then None else Some en
  end.

(** [currentTexts.<field>] *)
Definition textOf (t : option UiTexts) (field : UiTexts → jsstring) : jsval :=
  match t with
  | Some t => VStr (field t)
  | None => VUndefined
  end.

(** The chat and the part of the page that [switchLanguage] works on
    besides it. A text assigned to a node is kept as the value
    assigned. *)
Record Page := {
  chat : Chat;
  enActive : bool;            (* the button of [en] has class [active] *)
  swActive : bool;            (* the button of [sw] has class [active] *)
  inputPlaceholder : jsval;   (* #messageInput.placeholder *)
  sendText : jsval;           (* .btn-text textContent *)
  typingText : jsval          (* .typing-text textContent *)
}.

Definition setChat (c : Chat) (p : Page) : Page :=
  {| chat := c; enActive := enActive p; swActive := swActive p;
     inputPlaceholder := inputPlaceholder p; sendText := sendText p;
     typingText := typingText p |}.

Definition setActive (enButton swButton : bool) (p : Page) : Page :=
  {| chat := chat p; enActive := enButton; swActive := swButton;
     inputPlaceholder := inputPlaceholder p; sendText := sendText p;
     typingText := typingText p |}.

Definition setTexts (placeholder send typing : jsval) (p : Page) : Page :=
  {| chat := chat p; enActive := enActive p; swActive := swActive p;
     inputPlaceholder := placeholder; sendText := send;
     typingText := typing |}.

Definition setCurrentLanguage (lang : jsstring) (st : Chat) : Chat :=
  {| currentLanguage := lang; userId := userId st;
     isTyping := isTyping st; messageHistory := messageHistory st;
     messages := messages st; inputValue := inputValue st;
     typingShown := typingShown st; sendDisabled := sendDisabled st;
     crisisShown := crisisShown st; crisisResources := crisisResources st;
     activeUsers := activeUsers st;
     totalConversations := totalConversations st;
     resourcesAvailable := resourcesAvailable st;
     requests := requests st; timers := timers st; ticks := ticks st |}.

Definition setMessageHistory (history : list HistoryEntry) (st : Chat)
  : Chat :=
  {| currentLanguage := currentLanguage st; userId := userId st;
     isTyping := isTyping st; messageHistory := history;
     messages := messages st; inputValue := inputValue st;
     typingShown := typingShown st; sendDisabled := sendDisabled st;
     crisisShown := crisisShown st; crisisResources := crisisResources st;
     activeUsers := activeUsers st;
     totalConversations := totalConversations st;
     resourcesAvailable := resourcesAvailable st;
     requests := requests st; timers := timers st; ticks := ticks st |}.

Definition setMessages (children : list MessageEl) (st : Chat) : Chat :=
  {| currentLanguage := currentLanguage st; userId := userId st;
     isTyping := isTyping st; messageHistory := messageHistory st;
     messages := children; inputValue := inputValue st;
     typingShown := typingShown st; sendDisabled := sendDisabled st;
     crisisShown := crisisShown st; crisisResources := crisisResources st;
     activeUsers := activeUsers st;
     totalConversations := totalConversations st;
     resourcesAvailable := resourcesAvailable st;
     requests := requests st; timers := timers st; ticks := ticks st |}.

(** A method of the chat, run on the page. *)
Definition onChat {A} (m : M Chat A) : M Page A :=
  λ p, let (c, r) := m (chat p) in (setChat c p, r).

(** The message element that [clearChat] writes into [#messages]: it has
    no message id, for which the empty string stands, and no [fade-in]
    class. As in [addMessage], the white space that lays out the
    template is left out. *)
Definition welcomeElement (welcome : jsstring) : MessageEl :=
  {| className := lit "message bot";
     messageId := [];
     innerHTML :=
       lit "<div class=" ++ dq ++ lit "message-bubble" ++ dq ++ lit ">"
         ++ welcome ++ lit "</div>";
     fadeIn := false |}.

(** [clearChat()] *)
Definition clearChat : M Chat unit :=
  _ ← modify (setMessageHistory []);
  st ← get;
  welcome ← lift (translate (lit "welcomeMessage")
                    (Some (currentLanguage st)) ≫= asText);
  modify (setMessages [welcomeElement welcome]).

(** [updateUILanguage()] *)
Definition updateUILanguage : M Page unit :=
  p ← get;
  let currentTexts := currentTexts (currentLanguage (chat p)) in
  modify (setTexts (textOf currentTexts placeholder)
            (textOf currentTexts send) (textOf currentTexts typing)).

Section Component.

Variable env : Env.

(** [switchLanguage(lang)], for a string [lang], which is what the
    [data-lang] of a button is. *)
Definition switchLanguage (lang : jsstring) : M Page unit :=
  _ ← onChat (modify (setCurrentLanguage lang));
  _ ← modify (setActive (bool_decide (lit "en" = lang))
                (bool_decide (lit "sw" = lang)));
  _ ← updateUILanguage;
  p ← get;
  if (length (messageHistory (chat p)) <=? 1)%nat then
    _ ← onChat clearChat;
    p ← get;
    welcome ← lift (translate (lit "welcomeMessage")
                      (Some (currentLanguage (chat p))) ≫= asText);
    onChat (addMessage env (VStr (lit "assistant")) welcome None)
  else mret tt.


End Component.

End ChatPage.

(** ** components/StatsBar.js *)
Module StatsBar.

(** [this.stats] *)
Record Stats := {
  totalMessages : jsval;
  activeSessions : jsval;
  averageResponseTime : jsval;
  systemStatus : jsval;
  uptime : jsval;
  lastUpdated : option Z
}.

(** The component, with the nodes of its container that are modelled
    and the requests issued. [hasApi] tells whether the constructor was
    given an [apiService], which is then the one of services/api.js. *)
Record Bar := {
  hasApi : bool;
  stats : Stats;
  loading : bool;               (* the container has class [loading] *)
  refreshAnimation : jsstring;  (* .refresh-icon style.animation *)
  statusDot : jsstring;         (* .status-dot className *)
  statusText : jsstring;        (* .status-text textContent *)
  requests : Net
}.

Definition setStats (f : Stats → Stats) (b : Bar) : Bar :=
  {| hasApi := hasApi b; stats := f (stats b); loading := loading b;
     refreshAnimation := refreshAnimation b; statusDot := statusDot b;
     statusText := statusText b; requests := requests b |}.

Definition setLoading (isLoading : bool) (animation : jsstring) (b : Bar)
  : Bar :=
  {| hasApi := hasApi b; stats := stats b; loading := isLoading;
     refreshAnimation := animation; statusDot := statusDot b;
     statusText := statusText b; requests := requests b |}.

Definition setStatus (dot text : jsstring) (b : Bar) : Bar :=
  {| hasApi := hasApi b; stats := stats b; loading := loading b;
     refreshAnimation := refreshAnimation b; statusDot := dot;
     statusText := text; requests := requests b |}.

Definition setRequests (log : Net) (b : Bar) : Bar :=
  {| hasApi := hasApi b; stats := stats b; loading := loading b;
     refreshAnimation := refreshAnimation b; statusDot := statusDot b;
     statusText := statusText b; requests := log |}.

Definition setSystemStatus (v : jsval) (s : Stats) : Stats :=
  {| totalMessages := totalMessages s; activeSessions := activeSessions s;
     averageResponseTime := averageResponseTime s; systemStatus := v;
     uptime := uptime s; lastUpdated := lastUpdated s |}.

Definition setUptime (v : jsval) (s : Stats) : Stats :=
  {| totalMessages := totalMessages s; activeSessions := activeSessions s;
     averageResponseTime := averageResponseTime s;
     systemStatus := systemStatus s;
     uptime := v; lastUpdated := lastUpdated s |}.

Definition setTotalMessages (v : jsval) (s : Stats) : Stats :=
  {| totalMessages := v; activeSessions := activeSessions s;
     averageResponseTime := averageResponseTime s;
     systemStatus := systemStatus s;
     uptime := uptime s; lastUpdated := lastUpdated s |}.

Definition setActiveSessions (v : jsval) (s : Stats) : Stats :=
  {| totalMessages := totalMessages s; activeSessions := v;
     averageResponseTime := averageResponseTime s;
     systemStatus := systemStatus s;
     uptime := uptime s; lastUpdated := lastUpdated s |}.

Definition setAverageResponseTime (v : jsval) (s : Stats) : Stats :=
  {| totalMessages := totalMessages s; activeSessions := activeSessions s;
     averageResponseTime := v;
     systemStatus := systemStatus s;
     uptime := uptime s; lastUpdated := lastUpdated s |}.

Definition setLastUpdated (date : Z) (s : Stats) : Stats :=
  {| totalMessages := totalMessages s; activeSessions := activeSessions s;
     averageResponseTime := averageResponseTime s;
     systemStatus := systemStatus s;
     uptime := uptime s; lastUpdated := Some date |}.

(** A call into [apiService]: it works on the request log. *)
Definition api {A} (call : M Net A) : M Bar A :=
  λ b,
    let (log, r) := call (requests b) in
    (setRequests log b, r).

(** [try { body } finally { finalizer }] *)
Definition try_finally {S A} (body : M S A) (finalizer : M S unit) : M S A :=
  λ s,
    let (s', r) := body s in
    match finalizer s' with
    | (s'', Ok _) => (s'', r)
    | (s'', Throw e) => (s'', Throw e)
    end.

(** An entry of what [Promise.allSettled] resolves to: [Ok] for
    [fulfilled], [Throw] for [rejected]. *)
Definition settle {S A} (promise : M S A) : M S (result A) :=
  λ s, let (s', r) := promise s in (s', Ok r).

(** [setLoadingState(isLoading)] *)
Definition setLoadingState (isLoading : bool) : M Bar unit :=
  modify (setLoading isLoading
            (if isLoading then lit "spin 1s linear infinite" else [])).

Section Component.

Variable network : nat → Request → result Response.

(** [fetchStats()], with [now] the time at which the answers have
    arrived. The two requests are issued in the order of the array
    handed to [Promise.allSettled]. *)
Definition fetchStats (now : Z) : M Bar unit :=
  b ← get;
  if negb (hasApi b) then mret tt
  else
    try_finally
      (try_catch
         (_ ← setLoadingState true;
          healthData ← settle (api (APIService.checkHealth network));
          statsData ← settle (api (APIService.getStats network));
          _ ← match healthData with
              | Ok value =>
                  status ← lift (getProp value (lit "status"));
                  _ ← modify (setStats (setSystemStatus
                         (ChatInterface.or_else status
                            (VStr (lit "healthy")))));
                  uptime ← lift (getProp value (lit "uptime"));
                  modify (setStats (setUptime
                    (ChatInterface.or_else uptime (VNum 0))))
              | Throw reason =>
                  modify (setStats (setSystemStatus (VStr (lit "error"))))
              end;
          _ ← match statsData with
              | Ok data =>
                  total_messages ←
                    lift (getProp data (lit "total_messages"));
                  _ ← modify (setStats (setTotalMessages
                         (ChatInterface.or_else total_messages (VNum 0))));
                  active_sessions ←
                    lift (getProp data (lit "active_sessions"));
                  _ ← modify (setStats (setActiveSessions
                         (ChatInterface.or_else active_sessions (VNum 0))));
                  average_response_time ←
                    lift (getProp data (lit "average_response_time"));
                  modify (setStats (setAverageResponseTime
                    (ChatInterface.or_else average_response_time (VNum 0))))
              | Throw reason => mret tt
              end;
          modify (setStats (setLastUpdated now)))
         (λ error,
            modify (setStats (setSystemStatus (VStr (lit "error"))))))
      (setLoadingState false).

End Component.

(** [v === 'text'] *)
Definition isString (v : jsval) (text : jsstring) : bool :=
  match v with
  | VStr s => bool_decide (s = text)
  | _ => false
  end.

(** [updateSystemStatus()]; the three nodes it looks up are in the
    container as [createStatsElement] builds it. *)
Definition updateSystemStatus (b : Bar) : Bar :=
  let status := systemStatus (stats b) in
  if isString status (lit "healthy") then
    setStatus (lit "status-dot status-healthy") (lit "Online") b
  else if isString status (lit "degraded") then
    setStatus (lit "status-dot status-warning") (lit "Degraded") b
  else if isString status (lit "error") then
    setStatus (lit "status-dot status-error") (lit "Error") b
  else
    setStatus (lit "status-dot status-unknown") (lit "Unknown") b.

(** [formatUptime(seconds)]. The model covers the whole numbers below
    2^53 in absolute value: these a number holds exactly, the quotients
    taken of them are far enough from the next whole number for the
    floors to be those of the exact quotients, [%] takes the sign of the
    dividend, and every part is printed digit by digit. [None] stands for
    any other argument, where the code computes with rounded numbers and
    prints large ones with an exponent. *)
Definition formatUptime (seconds : Z) : option jsstring :=
  if (Z.abs seconds <? 2 ^ 53)%Z then
    let days := (seconds / 86400)%Z in
    let hours := (Z.rem seconds 86400 / 3600)%Z in
    let minutes := (Z.rem seconds 3600 / 60)%Z in
    Some
      (if (0 <? days)%Z then
         decimal days ++ lit "d " ++ decimal hours ++ lit "h "
           ++ decimal minutes ++ lit "m"
       else if (0 <? hours)%Z then
         decimal hours ++ lit "h " ++ decimal minutes ++ lit "m"
       else
         decimal minutes ++ lit "m")
  else None.

End StatsBar.

(** ** components/LanguageToggle.js *)
Module LanguageToggle.

(** [localStorage]: its items, and whether reading and writing work;
    where they do not, the call throws. *)
Record LocalStorage := {
  items : gmap jsstring jsstring;
  readable : bool;
  writable : bool
}.

(** [localStorage.setItem(key, value)] *)
Definition setItem (key value : jsstring) : M LocalStorage unit :=
  λ s,
    if writable s then
      ({| items := <[key := value]> (items s); readable := readable s;
          writable := writable s |}, Ok tt)
    else (s, Throw (Error (lit "QuotaExceededError"))).

(** [localStorage.getItem(key)], [None] for [null] *)
Definition getItem (key : jsstring) : M LocalStorage (option jsstring) :=
  λ s,
    if readable s then (s, Ok (items s !! key))
    else (s, Throw (Error (lit "SecurityError"))).

(** [saveLanguagePreference(language)] *)
Definition saveLanguagePreference (language : jsstring)
  : M LocalStorage unit :=
  try_catch (setItem (lit "mazungumzo-language") language)
    (λ e, mret tt).

(** [LanguageToggle.getStoredLanguage()] *)
Definition getStoredLanguage : M LocalStorage jsstring :=
  try_catch
    (stored ← getItem (lit "mazungumzo-language");
     mret (match stored with
           | Some (c :: language) => c :: language
           | _ => lit "en"
           end))
    (λ e, mret (lit "en")).

(** [array.findIndex(x => x === el)], [None] for -1 *)
Fixpoint findIndex (options : list nat) (el : nat) : option nat :=
  match options with
  | [] => None
  | opt :: options' =>
      if bool_decide (opt = el) then Some 0%nat
      else S <$> findIndex options' el
  end.

(** [handleTabNavigation(e)]. The elements of the page are numbered;
    [options] are the elements of class [language-option] in the
    container, [activeElement] is the element that has the focus. The
    result is [None] when the method returns early, leaving the event
    alone, and else the element that is given the focus, the default
    action of the key being prevented. *)
Definition handleTabNavigation (options : list nat) (activeElement : nat)
    (shiftKey : bool) : option nat :=
  match findIndex options activeElement with
  | None => None
  | Some currentIndex =>
      let nextIndex :=
        if shiftKey then
          if (currentIndex =? 0)%nat then (length options - 1)%nat
          else (currentIndex - 1)%nat
        else
          if (currentIndex =? length options - 1)%nat then 0%nat
          else (currentIndex + 1)%nat in
      options !! nextIndex
  end.

End LanguageToggle.

(** ** components/CrisisAlert.js *)
Module CrisisAlert.

(** What the component does to the world around it. *)
Inductive Effect :=
| Focus                          (* the first button is given the focus *)
| AlertShown (crisisData : jsval)   (* event [crisis-alert-shown] *)
| AlertHidden.                      (* event [crisis-alert-hidden] *)

(** Callbacks waiting to run. *)
Inductive Task :=
| AddVisibleClass   (* handed to [requestAnimationFrame] by [show] *)
| FinishHide.       (* handed to [setTimeout] by [hide], 300 ms *)

(** The component and its element. [contacts] is the content of the
    node [.emergency-contacts] once [updateResources] has written it;
    before that the node holds the three contacts of the template. *)
Record Alert := {
  isVisible : bool;
  display : jsstring;             (* alertElement.style.display *)
  visibleClass : bool;            (* class [crisis-alert-visible] *)
  contacts : option jsstring;
  effects : list Effect;
  pending : list Task
}.

(** The state in which the constructor leaves the component. *)
Definition new : Alert :=
  {| isVisible := false; display := []; visibleClass := false;
     contacts := None; effects := []; pending := [] |}.

Definition setVisible (visible : bool) (a : Alert) : Alert :=
  {| isVisible := visible; display := display a;
     visibleClass := visibleClass a; contacts := contacts a;
     effects := effects a; pending := pending a |}.

Definition setDisplay (value : jsstring) (a : Alert) : Alert :=
  {| isVisible := isVisible a; display := value;
     visibleClass := visibleClass a; contacts := contacts a;
     effects := effects a; pending := pending a |}.

Definition setVisibleClass (present : bool) (a : Alert) : Alert :=
  {| isVisible := isVisible a; display := display a;
     visibleClass := present; contacts := contacts a;
     effects := effects a; pending := pending a |}.

Definition setContacts (html : jsstring) (a : Alert) : Alert :=
  {| isVisible := isVisible a; display := display a;
     visibleClass := visibleClass a; contacts := Some html;
     effects := effects a; pending := pending a |}.

Definition effect (e : Effect) (a : Alert) : Alert :=
  {| isVisible := isVisible a; display := display a;
     visibleClass := visibleClass a; contacts := contacts a;
     effects := effects a ++ [e]; pending := pending a |}.

Definition schedule (t : Task) (a : Alert) : Alert :=
  {| isVisible := isVisible a; display := display a;
     visibleClass := visibleClass a; contacts := contacts a;
     effects := effects a; pending := pending a ++ [t] |}.

Definition setPending (tasks : list Task) (a : Alert) : Alert :=
  {| isVisible := isVisible a; display := display a;
     visibleClass := visibleClass a; contacts := contacts a;
     effects := effects a; pending := tasks |}.

Definition nl : jsstring := [10].

Definition spaces (n : nat) : jsstring := replicate n 32.

Section Component.

(** The conversion to a string of a value that a template
    interpolates. It is the engine's, and throws on an object that
    cannot be converted. *)
Variable toString : jsval → result jsstring.

(** The template of [updateResources], for one hotline. *)
Definition contactItem (hotline : jsval) : result jsstring :=
  name ← getProp hotline (lit "name");
  name ← toString name;
  phone ← getProp hotline (lit "phone");
  href ← toString phone;
  phone ← getProp hotline (lit "phone");
  phone ← toString phone;
  hours ← getProp hotline (lit "hours");
  hoursHTML ←
    (if truthy hours then
       hours ← getProp hotline (lit "hours");
       hours ← toString hours;
       Ok (lit "<span class=" ++ dq ++ lit "contact-hours" ++ dq ++ lit ">"
             ++ hours ++ lit "</span>")
     else Ok []);
  Ok (nl ++ spaces 12 ++ lit "<div class=" ++ dq ++ lit "contact-item" ++ dq
        ++ lit ">"
      ++ nl ++ spaces 16 ++ lit "<span class=" ++ dq ++ lit "contact-label"
        ++ dq ++ lit ">" ++ name ++ lit ":</span>"
      ++ nl ++ spaces 16 ++ lit "<a href=" ++ dq ++ lit "tel:" ++ href ++ dq
        ++ lit " class=" ++ dq ++ lit "contact-link" ++ dq ++ lit ">"
        ++ phone ++ lit "</a>"
      ++ nl ++ spaces 16 ++ hoursHTML
      ++ nl ++ spaces 12 ++ lit "</div>"
      ++ nl ++ spaces 8).

(** [hotlines.map(...).join('')] *)
Fixpoint contactItems (hotlines : list jsval) : result jsstring :=
  match hotlines with
  | [] => Ok []
  | hotline :: hotlines' =>
      item ← contactItem hotline;
      items ← contactItems hotlines';
      Ok (item ++ items)
  end.

(** [updateResources(resources)]; the node it looks up is in the
    element as [createAlertElement] builds it. *)
Definition updateResources (resources : jsval) : M Alert unit :=
  crisis_hotlines ← lift (getProp resources (lit "crisis_hotlines"));
  if negb (truthy crisis_hotlines) then mret tt
  else
    match crisis_hotlines with
    | VArr hotlines =>
        contactsHTML ← lift (contactItems hotlines);
        modify (setContacts contactsHTML)
    | _ =>
        throw (TypeError (lit "resources.crisis_hotlines.map is not a function"))
    end.

(** [show(crisisData = {})]: the default stands in for an argument that
    is left out or [undefined]. *)
Definition show (crisisData : option jsval) : M Alert unit :=
  let crisisData :=
    match crisisData with
    | None | Some VUndefined => obj []
    | Some data => data
    end in
  a ← get;
  if isVisible a then mret tt
  else
    _ ← modify (setVisible true);
    _ ← modify (setDisplay (lit "flex"));
    resources ← lift (getProp crisisData (lit "resources"));
    _ ← (if truthy resources then updateResources resources else mret tt);
    _ ← modify (schedule AddVisibleClass);
    _ ← modify (effect Focus);
    modify (effect (AlertShown crisisData)).

(** [hide()] *)
Definition hide : M Alert unit :=
  a ← get;
  if negb (isVisible a) then mret tt
  else
    _ ← modify (setVisibleClass false);
    modify (schedule FinishHide).

(** A callback, when its time has come. *)
Definition run (t : Task) : M Alert unit :=
  match t with
  | AddVisibleClass => modify (setVisibleClass true)
  | FinishHide =>
      _ ← modify (setDisplay (lit "none"));
      _ ← modify (setVisible false);
      modify (effect AlertHidden)
  end.

(** The [i]-th of the waiting callbacks runs; nothing happens if there
    is none. *)
Definition fire (i : nat) : M Alert unit :=
  a ← get;
  match pending a !! i with
  | None => mret tt
  | Some t =>
      _ ← modify (setPending (delete i (pending a)));
      run t
  end.

(** An element of class [crisis-alert] in the document: one that a
    [CrisisAlert] has made, with the component, or any other. For an
    element of a component, [registered] tells whether its property
    [crisisAlertInstance] holds that component; on any other element
    the property is [undefined]. *)
Inductive Node :=
| Made (alert : Alert) (registered : bool)
| Other.

(** The elements of class [crisis-alert], in document order. *)
Abbreviation Document := (list Node).

(** [CrisisAlert.show(crisisData)], the static method *)
Definition show_static (crisisData : option jsval) : M Document unit :=
  λ document,
    match document with
    | existingAlert :: rest =>
        match existingAlert with
        | Made alert true =>
            let (alert', r) := show crisisData alert in
            (Made alert' true :: rest, r)
        | _ => (document, Ok tt)
        end
    | [] =>
        (* [new CrisisAlert()] appends its element to the body; the
           assignment that follows is to a property of [null] *)
        ([Made new false],
         Throw (TypeError (lit "Cannot set properties of null")))
    end.

End Component.

End CrisisAlert.

(** * Vocabulary of the properties

    What the statements below are written in: the description of each
    pattern and of global replacement on the text, the shapes of input
    and output that the claims name, the outcomes of a request, and the
    parts of the state that [sendMessage] passes through. *)

Import ChatInterface.

(** ** Text

    What is left after a maximal run does not start with a unit of the
    run's class. *)
Definition stopsAt (p : N → bool) (rest : jsstring) : Prop :=
  match rest with
  | [] => True
  | c :: _ => p c = false
  end.

(** Global replacement, stated on the text.
    [Replaced M tpl s out]: [out] is [s] with every match replaced, where
    [M s m rest] says that the match found at the start of [s] is [m] and
    [rest] follows it. Matches are taken from the left and do not
    overlap; a unit at which nothing matches is kept. *)
Section Replaced.

Variable M : jsstring → jsstring → jsstring → Prop.
Variable tpl : jsstring → jsstring.

Inductive Replaced : jsstring → jsstring → Prop :=
| Replaced_end : Replaced [] []
| Replaced_hit s m rest out :
    M s m rest → m ≠ [] → s = m ++ rest → Replaced rest out →
    Replaced s (tpl m ++ out)
| Replaced_keep c s out :
    (∀ m rest, ¬ M (c :: s) m rest) → Replaced s out →
    Replaced (c :: s) (c :: out).

End Replaced.

(** [/\n/g]: a line feed. *)
Definition NewlineAt (s m rest : jsstring) : Prop :=
  m = [10] ∧ s = m ++ rest.

(** [/(https?:\/\/[^\s]+)/g]: [http://] or [https://] and then the longest
    run of units that are not white space, which must not be empty. *)
Definition UrlAt (s m rest : jsstring) : Prop :=
  ∃ scheme run,
    (scheme = lit "http://" ∨ scheme = lit "https://") ∧
    m = scheme ++ run ∧ run ≠ [] ∧
    Forall (λ c, notSpace c = true) run ∧ stopsAt notSpace rest ∧
    s = m ++ rest.

(** [/(\+254\d{9}|\d{10})/g]: [+254] and nine digits, or ten digits. *)
Definition PhoneAt (s m rest : jsstring) : Prop :=
  ((∃ d, m = lit "+254" ++ d ∧ length d = 9%nat ∧
         Forall (λ c, isDigit c = true) d)
   ∨ (length m = 10%nat ∧ Forall (λ c, isDigit c = true) m))
  ∧ s = m ++ rest.

(** [/\s+/g]: a longest run of white space. *)
Definition SpacesAt (s m rest : jsstring) : Prop :=
  m ≠ [] ∧ Forall (λ c, isSpace c = true) m ∧ stopsAt isSpace rest ∧
  s = m ++ rest.

(** A text and its HTML-escaped form, sign by sign: [&], [<], [>] and
    the no-break space are written as the entities [&amp;], [&lt;],
    [&gt;] and [&nbsp;], and every other unit stands for itself. *)
Inductive Escaped : jsstring → jsstring → Prop :=
| Escaped_nil : Escaped [] []
| Escaped_amp text html :
    Escaped text html → Escaped (38 :: text) (lit "&amp;" ++ html)
| Escaped_lt text html :
    Escaped text html → Escaped (60 :: text) (lit "&lt;" ++ html)
| Escaped_gt text html :
    Escaped text html → Escaped (62 :: text) (lit "&gt;" ++ html)
| Escaped_nbsp text html :
    Escaped text html → Escaped (160 :: text) (lit "&nbsp;" ++ html)
| Escaped_unit c text html :
    c ≠ 38 → c ≠ 60 → c ≠ 62 → c ≠ 160 →
    Escaped text html → Escaped (c :: text) (c :: html).

(** The text [formatMessage] starts from: the content as it is when
    HTML is allowed, its escaped form when it is not. *)
Definition BaseText (content : jsstring) (allowHTML : bool)
    (base : jsstring) : Prop :=
  if allowHTML then base = content else Escaped content base.

(** The result of [formatMessage] as the documentation of the function
    words it: the content is escaped unless HTML is allowed, line feeds
    become [<br>], then URLs become links, then phone numbers become
    [tel:] links. *)
Definition Formatted (content : jsstring) (allowHTML : bool)
    (out : jsstring) : Prop :=
  match content with
  | [] => out = []
  | _ =>
      ∃ base s1 s2,
        BaseText content allowHTML base ∧
        Replaced NewlineAt brTemplate base s1 ∧
        Replaced UrlAt urlTemplate s1 s2 ∧
        Replaced PhoneAt telTemplate s2 out
  end.

(** No white space at the start. *)
Definition noLeadingSpace (s : jsstring) : Prop := stopsAt isSpace s.

(** No white space at the end. *)
Definition noTrailingSpace (s : jsstring) : Prop :=
  match last s with
  | Some c => isSpace c = false
  | None => True
  end.

(** No two white-space units in a row. *)
Definition noDoubleSpace (s : jsstring) : Prop :=
  ∀ i c d, s !! i = Some c → s !! S i = Some d →
    isSpace c = true → isSpace d = false.

(** Single-spaced text: every white-space unit is a U+0020 and what
    follows it is not white space. *)
Fixpoint singleSpaced (s : jsstring) : Prop :=
  match s with
  | [] => True
  | c :: t => (isSpace c = true → c = 32 ∧ stopsAt isSpace t) ∧ singleSpaced t
  end.

(** The input for which truncation leaves a space at the end: 999 letters,
    a space, one more letter. *)
Definition cutAfterSpace : jsstring := replicate 999 97 ++ lit " b".

(** [formatted.replace(/\s+/g, ' ')] *)
Definition collapse (s : jsstring) : jsstring :=
  replace spacesRegex spaceTemplate s.

(** ** Translations and requests

    [translations[language]?.[key]], when there is such an entry. *)
Definition entry (language key : jsstring) : option jsstring :=
  translations !! language ≫= (λ table, table !! key).

(** The two failures the service distinguishes from a good answer: the
    request is rejected, or the response carries an error status. *)
Definition failed (outcome : result Response) : Prop :=
  match outcome with
  | Throw _ => True
  | Ok response => ok response = false
  end.

(** An answer with a good status whose body parses to [parsed]. *)
Definition answered (outcome : result Response) (parsed : jsval) : Prop :=
  ∃ status, outcome = Ok {| ok := true; status := status; json := Ok parsed |}.

(** The request [sendMessage] issues. *)
Definition chatRequest (message userId language platform : jsstring)
  : Request :=
  {| url := APIService.baseURL ++ lit "/api/v1/chat";
     method := lit "POST";
     headers := [(lit "Content-Type", lit "application/json")];
     body := Some (obj [
       (lit "user_id", VStr userId);
       (lit "message", VStr message);
       (lit "language", VStr language);
       (lit "platform", VStr platform)]) |}.

(** ** Replies and the steps of [sendMessage]

    [v[key]] on a value that is neither [null] nor [undefined]. *)
Definition prop (v : jsval) (key : jsstring) : jsval :=
  match v with
  | VObj fields => default VUndefined (fields !! key)
  | _ => VUndefined
  end.

Definition nullish (v : jsval) : bool :=
  match v with
  | VUndefined | VNull => true
  | _ => false
  end.

(** The element and the history entry that [addMessage] builds in state
    [st] for a content whose formatted form is [bubble]. *)
Definition element (env : Env) (st : Chat) (type bubble : jsstring)
  : MessageEl :=
  {| className := lit "message " ++ type;
     messageId := messageIdAt env (ticks st);
     innerHTML :=
       lit "<div class=" ++ dq ++ lit "message-bubble" ++ dq ++ lit ">"
         ++ bubble ++ lit "</div>";
     fadeIn := true |}.

Definition historyEntry (env : Env) (st : Chat) (content : jsval)
    (type : jsstring) (metadata : jsval) : HistoryEntry :=
  {| id := messageIdAt env (ticks st); type := type; content := content;
     timestamp := nowAt env (ticks st); metadata := metadata |}.

(** A content [formatMessage(content, true)] accepts: a string, or a
    falsy value. *)
Definition renderable (v : jsval) : bool :=
  negb (truthy v) || match v with VStr _ => true | _ => false end.

(** Resources [formatCrisisResources] accepts: falsy, of length zero, or
    an array of renderable items. *)
Definition resourcesRenderable (v : jsval) : bool :=
  negb (truthy v) || lengthIsZero v
  || match v with VArr items => forallb renderable items | _ => false end.

(** The server flags a crisis and sends resources. *)
Definition crisisReply (r : jsval) : bool :=
  truthy (prop r (lit "is_crisis")) && truthy (prop r (lit "resources")).

(** The class of the reply bubble. *)
Definition replyClass (r : jsval) : jsstring :=
  if truthy (prop r (lit "is_crisis")) then lit "crisis" else lit "bot".

(** A reply the widget can show: not [null], with a [response] that is a
    string or falsy and, when the alert is due, resources that can be
    listed. *)
Definition wellFormedReply (r : jsval) : bool :=
  negb (nullish r) && renderable (prop r (lit "response"))
  && (negb (crisisReply r) || resourcesRenderable (prop r (lit "resources"))).

(** The call to the chat API did not return: the request was rejected,
    the status was an error, or the body did not parse. *)
Definition apiThrows (outcome : result Response) : Prop :=
  ∀ parsed, ¬ answered outcome parsed.

(** The request [ChatInterface.sendMessage] makes in state [st]. *)
Definition chatRequestOf (st : Chat) : Request :=
  chatRequest (formatUserInput (inputValue st)) (userId st)
    (currentLanguage st) (lit "web").

Definition statsRequest : Request :=
  APIService.GET (lit "http://localhost:8000/api/v1/stats").


(** The two ends of [sendMessage], named: what its [try] block does with
    the parsed answer, and what its [catch] block does. *)
Definition showReply (env : Env) (response : jsval) : M Chat unit :=
  _ ← showTyping false;
  is_crisis ← lift (getProp response (lit "is_crisis"));
  let messageClass := if truthy is_crisis then lit "crisis" else lit "bot" in
  reply ← lift (getProp response (lit "response"));
  confidence ← lift (getProp response (lit "confidence"));
  resources ← lift (getProp response (lit "resources"));
  _ ← addMessage env reply messageClass (Some (obj [
        (lit "isCrisis", is_crisis);
        (lit "confidence", confidence);
        (lit "resources", resources)]));
  _ ← (if truthy is_crisis && truthy resources
       then showCrisisAlert resources else mret tt);
  updateStats env.

Definition showError (env : Env) : M Chat unit :=
  _ ← showTyping false;
  st ← get;
  errorMsg ← lift (translate (lit "errorMessage") (Some (currentLanguage st))
                     ≫= asText);
  addMessage env (VStr errorMsg) (lit "bot") None.

(** The state in which the request is made: the user's message shown,
    the input emptied, the typing indicator on. *)
Definition sent (env : Env) (st : Chat) : Chat :=
  let message := formatUserInput (inputValue st) in
  setTimeout 100 ScrollToBottom
    (setTyping true
       (setInputValue []
          (appendMessage
             (element env st (lit "user") (formatMessage message (Some true)))
             (historyEntry env st (VStr message) (lit "user") (obj []))
             (drawTick st)))).

(** Two states that agree on everything but the statistics nodes and
    the request log. *)
Definition sameChat (s s' : Chat) : Prop :=
  currentLanguage s' = currentLanguage s ∧ userId s' = userId s
  ∧ isTyping s' = isTyping s ∧ messageHistory s' = messageHistory s
  ∧ messages s' = messages s ∧ inputValue s' = inputValue s
  ∧ typingShown s' = typingShown s ∧ sendDisabled s' = sendDisabled s
  ∧ crisisShown s' = crisisShown s ∧ crisisResources s' = crisisResources s
  ∧ timers s' = timers s ∧ ticks s' = ticks s.

(** ** The course of a message

    States that [sendMessage] passes through, and what all its runs have
    in common. *)

(** The state in which the answer of the chat API arrives, and the one in
    which the typing indicator has been taken down again. *)
Definition awaiting (env : Env) (st : Chat) : Chat :=
  setRequests (requests st ++ [chatRequestOf st]) (sent env st).

Definition settled (env : Env) (st : Chat) : Chat :=
  setTyping false (awaiting env st).

(** The reply of [r] appended in state [s]. *)
Definition withReply (env : Env) (r : jsval) (bubble : jsstring) (s : Chat)
  : Chat :=
  appendMessage
    (element env s (replyClass r) bubble)
    (historyEntry env s (prop r (lit "response")) (replyClass r)
       (obj [(lit "isCrisis", prop r (lit "is_crisis"));
             (lit "confidence", prop r (lit "confidence"));
             (lit "resources", prop r (lit "resources"))]))
    (drawTick s).

(** The error message appended in state [s]. *)
Definition withError (env : Env) (text bubble : jsstring) (s : Chat) : Chat :=
  appendMessage (element env s (lit "bot") bubble)
    (historyEntry env s (VStr text) (lit "bot") (obj []))
    (drawTick s).

(** What every run of [sendMessage] past its guard has in common. *)
Definition Delivered (st st' : Chat) : Prop :=
  inputValue st' = [] ∧ isTyping st' = false ∧ typingShown st' = false
  ∧ sendDisabled st' = false
  ∧ currentLanguage st' = currentLanguage st ∧ userId st' = userId st
  ∧ ∃ userEntry more userEl moreEls,
      messageHistory st' = messageHistory st ++ userEntry :: more
      ∧ messages st' = messages st ++ userEl :: moreEls
      ∧ content userEntry = VStr (formatUserInput (inputValue st))
      ∧ type userEntry = lit "user"
      ∧ className userEl = lit "message user"
      ∧ length more = length moreEls
      ∧ (length more = 1 ∨ length more = 2)%nat.

(** What [sendMessage] has done when it starts to wait for the answer:
    the user's message is shown and recorded, the input is empty, the
    typing indicator is on and the send button disabled. *)
Definition Posted (st waiting : Chat) : Prop :=
  inputValue waiting = [] ∧ isTyping waiting = true
  ∧ typingShown waiting = true ∧ sendDisabled waiting = true
  ∧ currentLanguage waiting = currentLanguage st
  ∧ userId waiting = userId st
  ∧ ∃ userEntry userEl,
      messageHistory waiting = messageHistory st ++ [userEntry]
      ∧ messages waiting = messages st ++ [userEl]
      ∧ content userEntry = VStr (formatUserInput (inputValue st))
      ∧ type userEntry = lit "user"
      ∧ className userEl = lit "message user".

(** What [sendMessage] does from the state [arrival] in which the answer
    arrives: it takes the typing indicator down, enables the send
    button, and adds one or two messages, to the page and to the history
    alike; input, language and user id stay as the answer finds them. *)
Definition Resumed (arrival st' : Chat) : Prop :=
  isTyping st' = false ∧ typingShown st' = false ∧ sendDisabled st' = false
  ∧ inputValue st' = inputValue arrival
  ∧ currentLanguage st' = currentLanguage arrival
  ∧ userId st' = userId arrival
  ∧ ∃ more moreEls,
      messageHistory st' = messageHistory arrival ++ more
      ∧ messages st' = messages arrival ++ moreEls
      ∧ length more = length moreEls
      ∧ (length more = 1 ∨ length more = 2)%nat.

(** ** Time stamps *)

(** The words of [formatTimestamp] for [n] units. *)
Definition ago (sw : bool) (swUnit enUnit : jsstring) (n : Z) : jsstring :=
  if sw then swUnit ++ lit " " ++ decimal n ++ lit " zilizopita"
  else decimal n ++ enUnit ++ lit " ago".

(** ** The page and its languages *)

(** The bubble of a message element. *)
Definition bubbleOf (html : jsstring) : jsstring :=
  lit "<div class=" ++ dq ++ lit "message-bubble" ++ dq ++ lit ">"
    ++ html ++ lit "</div>".

(** The page once [switchLanguage] has set the language, the buttons
    and the texts. *)
Definition relabelled (lang : jsstring) (p : ChatPage.Page) : ChatPage.Page :=
  {| ChatPage.chat := ChatPage.setCurrentLanguage lang (ChatPage.chat p);
     ChatPage.enActive := bool_decide (lit "en" = lang);
     ChatPage.swActive := bool_decide (lit "sw" = lang);
     ChatPage.inputPlaceholder :=
       ChatPage.textOf (ChatPage.currentTexts lang) ChatPage.placeholder;
     ChatPage.sendText :=
       ChatPage.textOf (ChatPage.currentTexts lang) ChatPage.send;
     ChatPage.typingText :=
       ChatPage.textOf (ChatPage.currentTexts lang) ChatPage.typing |}.

(** The chat as [switchLanguage] restarts it: the welcome bubble of
    [clearChat], then the message that [addMessage] appends. *)
Definition restarted (env : Env) (lang welcome : jsstring) (st : Chat)
  : Chat :=
  let cleared :=
    ChatPage.setMessages [ChatPage.welcomeElement welcome]
      (ChatPage.setMessageHistory [] (ChatPage.setCurrentLanguage lang st)) in
  appendMessage (element env cleared welcome (lit "assistant"))
    (historyEntry env cleared (VStr (lit "assistant")) welcome (obj []))
    (drawTick cleared).


(** The page as [render] writes it, around the chat [st]. *)
Definition rendered (st : Chat) : ChatPage.Page :=
  {| ChatPage.chat := st;
     ChatPage.enActive := true; ChatPage.swActive := false;
     ChatPage.inputPlaceholder :=
       VStr (lit "Type your message... / Andika ujumbe wako...");
     ChatPage.sendText := VStr (lit "Send");
     ChatPage.typingText := VStr (lit "Mazungumzo is typing") |}.

(** ** The statistics bar *)

Definition healthRequest : Request :=
  APIService.GET (lit "http://localhost:8000/api/v1/health").

(** What [checkHealth] resolves to for an outcome of its request. *)
Definition healthOf (outcome : result Response) : jsval :=
  match outcome with
  | Ok {| ok := true; json := Ok parsed |} => parsed
  | Ok {| ok := true; json := Throw e |} =>
      obj [(lit "status", VStr (lit "unhealthy"));
           (lit "error", VStr (message e))]
  | Ok response =>
      obj [(lit "status", VStr (lit "unhealthy"));
           (lit "error", VStr (message (APIService.httpError response)))]
  | Throw e =>
      obj [(lit "status", VStr (lit "unhealthy"));
           (lit "error", VStr (message e))]
  end.

(** What [getStats] resolves to for an outcome of its request. *)
Definition statsOf (outcome : result Response) : jsval :=
  match outcome with
  | Ok {| ok := true; json := Ok parsed |} => parsed
  | _ => APIService.defaultStats
  end.

(** The bar after [fetchStats] has been answered [health] and
    [statistics] at time [now]: reading a field of [null] or [undefined]
    ends the [try] block, and the status becomes [error]. *)
Definition refreshed (now : Z) (health statistics : jsval) (b : StatsBar.Bar)
  : StatsBar.Bar :=
  let failed := StatsBar.setSystemStatus (VStr (lit "error")) in
  let withHealth s :=
    StatsBar.setUptime (or_else (prop health (lit "uptime")) (VNum 0))
      (StatsBar.setSystemStatus
         (or_else (prop health (lit "status")) (VStr (lit "healthy"))) s) in
  let withStatistics s :=
    StatsBar.setAverageResponseTime
      (or_else (prop statistics (lit "average_response_time")) (VNum 0))
      (StatsBar.setActiveSessions
         (or_else (prop statistics (lit "active_sessions")) (VNum 0))
         (StatsBar.setTotalMessages
            (or_else (prop statistics (lit "total_messages")) (VNum 0)) s)) in
  StatsBar.setLoading false []
    (StatsBar.setStats
       (λ s, if nullish health then failed s
             else if nullish statistics then failed (withHealth s)
             else StatsBar.setLastUpdated now (withStatistics (withHealth s)))
       (StatsBar.setRequests
          (StatsBar.requests b ++ [healthRequest; statsRequest]) b)).

(** ** The crisis alert component *)

(** What can happen to a [CrisisAlert]: a call of [show] or of [hide],
    or one of the waiting callbacks runs. *)
Inductive Call :=
| Show (crisisData : option jsval)
| Hide
| Fire (i : nat).

(** The state after a call; a call that throws leaves the state it has
    reached. *)
Definition call (toString : jsval → result jsstring) (c : Call)
    (a : CrisisAlert.Alert) : CrisisAlert.Alert :=
  match c with
  | Show crisisData => (CrisisAlert.show toString crisisData a).1
  | Hide => (CrisisAlert.hide a).1
  | Fire i => (CrisisAlert.fire i a).1
  end.

Definition calls (toString : jsval → result jsstring) (cs : list Call)
    (a : CrisisAlert.Alert) : CrisisAlert.Alert :=
  foldl (λ a c, call toString c a) a cs.

(** The alert is taken for visible exactly while its element is laid
    out. *)
Definition consistent (a : CrisisAlert.Alert) : Prop :=
  (CrisisAlert.isVisible a = true ∧ CrisisAlert.display a = lit "flex")
  ∨ (CrisisAlert.isVisible a = false
     ∧ (CrisisAlert.display a = [] ∨ CrisisAlert.display a = lit "none")).

(** No element holds a component in its [crisisAlertInstance], which is
    how the code of the component leaves every document. *)
Definition unregistered (document : list CrisisAlert.Node) : Prop :=
  Forall (λ node, match node with
                  | CrisisAlert.Made _ true => False
                  | _ => True
                  end) document.

(** The static [show] called with each of [crisisData] in turn, the
    caller going on after a call that throws. *)
Definition showEach (toString : jsval → result jsstring)
    (crisisData : list (option jsval)) (document : list CrisisAlert.Node)
  : list CrisisAlert.Node :=
  foldl (λ document data,
           (CrisisAlert.show_static toString data document).1)
    document crisisData.

(** The conversion to a string on strings and integers, which throws on
    every other value; it serves as a sample. *)
Definition plainToString (v : jsval) : result jsstring :=
  match v with
  | VStr s => Ok s
  | VNum n => Ok (decimal n)
  | _ => Throw (TypeError (lit "Cannot convert object to primitive value"))
  end.

(** ** Sample states and servers

    The component right after it is set up, in English. *)
Definition fresh : Chat :=
  {| currentLanguage := lit "en"; userId := lit "user_1";
     isTyping := false; messageHistory := [];
     messages := []; inputValue := [];
     typingShown := false; sendDisabled := false;
     crisisShown := false; crisisResources := [];
     activeUsers := VStr (lit "0"); totalConversations := VStr (lit "0");
     resourcesAvailable := VStr (lit "0");
     requests := []; timers := []; ticks := 0 |}.

(** The user has typed [text]. *)
Definition typed (text : jsstring) : Chat := setInputValue text fresh.

(** A server that answers every chat request with [chatBody] and every
    statistics request with [statsBody]. *)
Definition answering (chatBody statsBody : jsval) : Env :=
  {| network := λ _ request,
       Ok {| ok := true; status := 200;
             json := Ok (if bool_decide (url request = url statsRequest)
                         then statsBody else chatBody) |};
     messageIdAt := λ n, lit "msg_" ++ decimal (Z.of_nat n);
     nowAt := λ n, Z.of_nat n |}.

(** No connection. *)
Definition offline : Env :=
  {| network := λ _ _, Throw (TypeError (lit "Failed to fetch"));
     messageIdAt := λ n, lit "msg_" ++ decimal (Z.of_nat n);
     nowAt := λ n, Z.of_nat n |}.

(** A reply without a crisis flag. *)
Definition calmReply : jsval :=
  obj [(lit "response", VStr (lit "Niko hapa kukusikiliza."));
       (lit "is_crisis", VBool false)].

(** A reply that flags a crisis and lists a hotline. *)
Definition alarmReply : jsval :=
  obj [(lit "response", VStr (lit "Tafadhali piga simu sasa."));
       (lit "is_crisis", VBool true);
       (lit "resources", VArr [VStr (lit "Kenya Red Cross: 1199")])].

(** A reply whose [response] is a number. *)
Definition numericReply : jsval := obj [(lit "response", VNum 42)].

Definition sampleStats : jsval :=
  obj [(lit "active_users", VNum 12); (lit "total_conversations", VNum 0)].

(** * Properties *)

#[local] Arguments N.eqb : simpl nomatch.
#[local] Arguments N.leb : simpl nomatch.
#[local] Arguments lit : simpl never.

(** Source literals are unfolded to their code units on demand. *)
Ltac norm_lit :=
  repeat match goal with
         | |- context [lit ?s] =>
             let v := eval vm_compute in (lit s) in change (lit s) with v
         end.

(** ** String built-ins *)

Lemma startsWith_prefix (k s : jsstring) :
  startsWith k s = true ↔ ∃ post, s = k ++ post.
Proof.
  revert s. induction k as [|c k IH]; intros s; simpl.
  - split; [intros _; by exists s | done].
  - destruct s as [|d s].
    + split; [done | intros [post H]; discriminate].
    + rewrite andb_true_iff, N.eqb_eq, IH. split.
      * intros [-> [post ->]]. by exists post.
      * intros [post H]. injection H as -> ->. eauto.
Qed.

Lemma startsWith_app (k post : jsstring) : startsWith k (k ++ post) = true.
Proof. apply startsWith_prefix. by exists post. Qed.

Lemma startsWith_drop (k s : jsstring) :
  startsWith k s = true → s = k ++ drop (length k) s.
Proof.
  intros [post ->]%startsWith_prefix. by rewrite drop_app_length.
Qed.

(** [includes] finds exactly the contiguous occurrences. *)
Lemma includes_substring (s k : jsstring) :
  includes s k = true ↔ ∃ pre post, s = pre ++ k ++ post.
Proof.
  induction s as [|d s IH]; simpl.
  - rewrite orb_false_r, startsWith_prefix. split.
    + intros [post ->]. by exists [], post.
    + intros [pre [post H]]. destruct pre; [|discriminate]. by exists post.
  - rewrite orb_true_iff, startsWith_prefix, IH. split.
    + intros [[post ->] | [pre [post ->]]].
      * by exists [], post.
      * by exists (d :: pre), post.
    + intros [[|e pre] [post H]].
      * left. by exists post.
      * right. injection H as -> ->. by exists pre, post.
Qed.

Lemma dropWhile_length p (s : jsstring) :
  (length (dropWhile p s) ≤ length s)%nat.
Proof. induction s as [|c s IH]; simpl; [lia|]. destruct (p c); simpl; lia. Qed.

Lemma takeWhile_dropWhile p (s : jsstring) :
  s = takeWhile p s ++ dropWhile p s.
Proof. induction s as [|c s IH]; simpl; [done|]. destruct (p c); simpl; congruence. Qed.

Lemma takeWhile_Forall p (s : jsstring) :
  Forall (λ c, p c = true) (takeWhile p s).
Proof.
  induction s as [|c s IH]; simpl; [constructor|].
  destruct (p c) eqn:E; by constructor.
Qed.

Lemma dropWhile_stops p (s : jsstring) : stopsAt p (dropWhile p s).
Proof. induction s as [|c s IH]; simpl; [done|]. by destruct (p c) eqn:E. Qed.

Lemma dropWhile_run p (run rest : jsstring) :
  Forall (λ c, p c = true) run → stopsAt p rest →
  dropWhile p (run ++ rest) = rest.
Proof.
  intros Hrun Hrest. induction Hrun as [|c run Hc _ IH]; simpl.
  - destruct rest as [|d rest]; simpl in *; [done | by rewrite Hrest].
  - by rewrite Hc.
Qed.

(** ** The matcher on the shapes the source uses *)

Lemma str_k_startsWith l s (k : cont) :
  str_k l s k = if startsWith l s then k (drop (length l) s) else None.
Proof.
  revert s. induction l as [|c l IH]; intros s; simpl; [done|].
  destruct s as [|d s]; [done|]. simpl. destruct (c =? d); simpl; [apply IH | done].
Qed.

Lemma plus_k_greedy p s :
  plus_k p s Some =
    match s with
    | c :: s' => if p c then Some (dropWhile p s') else None
    | [] => None
    end.
Proof.
  induction s as [|c s IH]; simpl; [done|].
  destruct (p c); [|done]. rewrite IH.
  destruct s as [|d s]; simpl; [done|]. by destruct (p d).
Qed.

Lemma rep_k_count n p s (k : cont) :
  rep_k n p s k =
    if bool_decide (n ≤ length s)%nat && forallb p (take n s)
    then k (drop n s) else None.
Proof.
  revert s. induction n as [|n IH]; intros s.
  - rewrite bool_decide_true by lia. done.
  - destruct s as [|c s].
    + rewrite bool_decide_false by (simpl; lia). done.
    + cbn [rep_k take forallb drop length]. destruct (p c).
      * rewrite IH, andb_true_l.
        by rewrite (bool_decide_ext (S n ≤ S (length s))%nat (n ≤ length s)%nat) by lia.
      * by rewrite andb_false_r.
Qed.

(** ** Global replacement and its description *)
Section ReplacedFacts.

Variable M : jsstring → jsstring → jsstring → Prop.
Variable tpl : jsstring → jsstring.

#[local] Abbreviation Replaced := (Replaced M tpl).

(** When the match at a position is unique, so is the result. *)
Lemma Replaced_functional :
  (∀ s m1 rest1 m2 rest2, M s m1 rest1 → M s m2 rest2 → m1 = m2 ∧ rest1 = rest2) →
  ∀ s out1 out2, Replaced s out1 → Replaced s out2 → out1 = out2.
Proof.
  intros Hfun s out1 out2 H1. revert out2.
  induction H1 as [|s m rest out HM Hm Hs _ IH|c s out Hno _ IH];
    intros out2 H2.
  - inversion H2 as [|s' m' rest' out' HM' Hm' Hs' H'|]; subst; [done|].
    by destruct m'.
  - inversion H2 as [|s' m' rest' out' HM' Hm' Hs' H'|c s' out' Hno' H']; subst.
    + by destruct m.
    + destruct (Hfun _ _ _ _ _ HM HM') as [-> ->]. f_equal. by apply IH.
    + exfalso. rewrite <- H in HM. by eapply Hno'.
  - inversion H2 as [|s' m' rest' out' HM' Hm' Hs' H'|c' s' out' Hno' H']; subst.
    + exfalso. by eapply Hno.
    + f_equal. by apply IH.
Qed.

Variable r : regex.
Hypothesis exec_sound :
  ∀ s rest, exec r s = Some rest → ∃ m, m ≠ [] ∧ s = m ++ rest ∧ M s m rest.
Hypothesis exec_complete :
  ∀ s m rest, M s m rest → exec r s = Some rest.

Lemma replace_loop_Replaced fuel s :
  (length s < fuel)%nat → Replaced s (replace_loop fuel r tpl s).
Proof.
  revert s. induction fuel as [|fuel IH]; intros s Hlen; [lia|].
  simpl. destruct (exec r s) as [rest|] eqn:E.
  - destruct (exec_sound _ _ E) as (m & Hm & Hs & HM).
    assert (take (length s - length rest) s = m) as ->.
    { subst s. rewrite length_app.
      replace (length m + length rest - length rest)%nat with (length m) by lia.
      by rewrite take_app_length. }
    destruct m as [|c m]; [done|].
    eapply Replaced_hit; eauto. apply IH.
    subst s. rewrite length_app in Hlen. simpl in Hlen. lia.
  - destruct s as [|c s]; [constructor|].
    apply Replaced_keep.
    + intros m rest HM. apply exec_complete in HM. congruence.
    + apply IH. simpl in Hlen. lia.
Qed.

Lemma replace_Replaced s : Replaced s (replace r tpl s).
Proof. apply replace_loop_Replaced. lia. Qed.

End ReplacedFacts.

(** ** The patterns of the formatter, stated on the text *)

Lemma forallb_Forall_true (p : N → bool) (l : jsstring) :
  forallb p l = true ↔ Forall (λ c, p c = true) l.
Proof.
  induction l as [|c l IH]; simpl.
  - split; [constructor | done].
  - rewrite andb_true_iff, IH. split.
    + intros [? ?]. by constructor.
    + intros H. by inversion H.
Qed.

Lemma plus_run p (s rest : jsstring) :
  plus_k p s Some = Some rest ↔
  ∃ run, run ≠ [] ∧ Forall (λ c, p c = true) run ∧ stopsAt p rest ∧
         s = run ++ rest.
Proof.
  rewrite plus_k_greedy. split.
  - destruct s as [|c s]; [done|]. destruct (p c) eqn:Hc; [|done].
    intros [= <-]. exists (c :: takeWhile p s). repeat split.
    + done.
    + constructor; [done | apply takeWhile_Forall].
    + apply dropWhile_stops.
    + simpl. f_equal. apply takeWhile_dropWhile.
  - intros (run & Hne & Hrun & Hstop & ->).
    destruct run as [|c run]; [done|]. inversion Hrun as [|? ? Hc Hrun']; subst.
    simpl. rewrite Hc. f_equal. by apply dropWhile_run.
Qed.

Lemma newline_sound s rest :
  exec newlineRegex s = Some rest →
  ∃ m, m ≠ [] ∧ s = m ++ rest ∧ NewlineAt s m rest.
Proof.
  unfold exec. simpl. destruct s as [|c s]; [done|].
  destruct (N.eqb_spec 10 c) as [<-|]; [|done].
  intros [= ->]. by exists [10].
Qed.

Lemma newline_complete s m rest :
  NewlineAt s m rest → exec newlineRegex s = Some rest.
Proof. by intros [-> ->]. Qed.

Lemma str_k_Some l s (k : cont) rest :
  str_k l s k = Some rest ↔ ∃ t, s = l ++ t ∧ k t = Some rest.
Proof.
  rewrite str_k_startsWith. split.
  - destruct (startsWith l s) eqn:E; [|done].
    apply startsWith_drop in E. eauto.
  - intros (t & -> & Hk). by rewrite startsWith_app, drop_app_length.
Qed.

Lemma url_sound s rest :
  exec urlRegex s = Some rest →
  ∃ m, m ≠ [] ∧ s = m ++ rest ∧ UrlAt s m rest.
Proof.
  assert (∀ scheme t, (scheme = lit "http://" ∨ scheme = lit "https://") →
            s = scheme ++ t → plus_k notSpace t Some = Some rest →
            ∃ m, m ≠ [] ∧ s = m ++ rest ∧ UrlAt s m rest) as Hfin.
  { intros scheme t Hscheme Hs (run & Hne & Hrun & Hstop & ->)%plus_run.
    exists (scheme ++ run). split; [by destruct Hscheme as [-> | ->]|].
    rewrite <- app_assoc. split; [done|].
    exists scheme, run. by rewrite <- app_assoc. }
  unfold exec, urlRegex. cbn [run].
  intros (t & Hs & Hopt)%str_k_Some.
  destruct t as [|c t'].
  - by apply str_k_Some in Hopt as (? & ? & _).
  - destruct (N.eqb_spec 115 c) as [<-|Hc].
    + destruct (str_k (lit "://") t' (λ s1, plus_k notSpace s1 Some))
        as [rest'|] eqn:Hsep.
      * injection Hopt as ->. apply str_k_Some in Hsep as (u & -> & Hplus).
        apply (Hfin (lit "https://") u); [by right | by subst s | done].
      * by apply str_k_Some in Hopt as (? & ? & _).
    + apply str_k_Some in Hopt as (u & Ht & Hplus).
      apply (Hfin (lit "http://") u); [by left | | done].
      rewrite Hs, Ht. done.
Qed.

Lemma url_complete s m rest :
  UrlAt s m rest → exec urlRegex s = Some rest.
Proof.
  intros (scheme & run & Hscheme & -> & Hne & Hrun & Hstop & ->).
  assert (plus_k notSpace (run ++ rest) Some = Some rest) as Hplus.
  { apply plus_run. by exists run. }
  unfold exec, urlRegex.
  destruct Hscheme as [-> | ->]; norm_lit; simpl; by rewrite Hplus.
Qed.

Lemma rep_k_Some n p s rest :
  rep_k n p s Some = Some rest ↔
  ∃ m, length m = n ∧ Forall (λ c, p c = true) m ∧ s = m ++ rest.
Proof.
  rewrite rep_k_count. split.
  - destruct (bool_decide (n ≤ length s)%nat) eqn:Hlen; [|done].
    destruct (forallb p (take n s)) eqn:Hall; [|done].
    apply bool_decide_eq_true in Hlen. apply forallb_Forall_true in Hall.
    intros [= <-]. exists (take n s).
    rewrite length_take, take_drop. split; [lia | done].
  - intros (m & <- & Hm & ->).
    rewrite bool_decide_true by (rewrite length_app; lia).
    rewrite take_app_length, drop_app_length.
    apply forallb_Forall_true in Hm. by rewrite Hm.
Qed.

Lemma phone_sound s rest :
  exec phoneRegex s = Some rest →
  ∃ m, m ≠ [] ∧ s = m ++ rest ∧ PhoneAt s m rest.
Proof.
  unfold exec, phoneRegex. cbn [run].
  destruct (str_k (lit "+254") s (λ s1, rep_k 9 isDigit s1 Some))
    as [rest'|] eqn:Hplus.
  - intros [= ->].
    apply str_k_Some in Hplus as (t & -> & (d & Hlen & Hd & ->)%rep_k_Some).
    exists (lit "+254" ++ d). rewrite <- app_assoc.
    split; [done|]. split; [done|]. split; [|by rewrite <- app_assoc].
    left. by exists d.
  - intros (m & Hlen & Hm & ->)%rep_k_Some.
    exists m. split; [by destruct m|]. split; [done|].
    split; [by right | done].
Qed.

Lemma phone_complete s m rest :
  PhoneAt s m rest → exec phoneRegex s = Some rest.
Proof.
  unfold exec, phoneRegex. cbn [run].
  intros [[(d & -> & Hlen & Hd) | [Hlen Hm]] ->].
  - assert (str_k (lit "+254") ((lit "+254" ++ d) ++ rest)
              (λ s1, rep_k 9 isDigit s1 Some) = Some rest) as ->; [|done].
    apply str_k_Some. exists (d ++ rest). rewrite <- app_assoc.
    split; [done|]. apply rep_k_Some. by exists d.
  - assert (str_k (lit "+254") (m ++ rest)
              (λ s1, rep_k 9 isDigit s1 Some) = None) as ->.
    { destruct m as [|c m]; [done|]. inversion Hm as [|? ? Hc _]; subst.
      norm_lit. simpl. destruct (N.eqb_spec 43 c) as [<-|]; done. }
    apply rep_k_Some. by exists m.
Qed.

Lemma spaces_sound s rest :
  exec spacesRegex s = Some rest →
  ∃ m, m ≠ [] ∧ s = m ++ rest ∧ SpacesAt s m rest.
Proof.
  intros (run & Hne & Hrun & Hstop & ->)%plus_run. by exists run.
Qed.

Lemma spaces_complete s m rest :
  SpacesAt s m rest → exec spacesRegex s = Some rest.
Proof.
  intros (Hne & Hrun & Hstop & ->). apply plus_run. by exists m.
Qed.

(** ** formatMessage *)

Lemma match_unique (M : jsstring → jsstring → jsstring → Prop) r :
  (∀ s m rest, M s m rest → exec r s = Some rest ∧ s = m ++ rest) →
  ∀ s m1 rest1 m2 rest2, M s m1 rest1 → M s m2 rest2 → m1 = m2 ∧ rest1 = rest2.
Proof.
  intros HM s m1 rest1 m2 rest2 [E1 Hs1]%HM [E2 Hs2]%HM.
  assert (rest1 = rest2) as -> by congruence.
  split; [|done]. rewrite Hs1 in Hs2. by apply app_inv_tail in Hs2.
Qed.

Lemma sanitizeHTML_Escaped content : Escaped content (sanitizeHTML content).
Proof.
  induction content as [|c content IH]; [constructor|].
  change (sanitizeHTML (c :: content))
    with (escapeUnit c ++ sanitizeHTML content).
  unfold escapeUnit.
  destruct (N.eqb_spec c 38) as [->|]; [by constructor|].
  destruct (N.eqb_spec c 60) as [->|]; [by constructor|].
  destruct (N.eqb_spec c 62) as [->|]; [by constructor|].
  destruct (N.eqb_spec c 160) as [->|]; [by constructor|].
  by apply Escaped_unit.
Qed.

Lemma Escaped_functional content html html' :
  Escaped content html → Escaped content html' → html = html'.
Proof.
  intros H. revert html'.
  induction H as [|text html _ IH|text html _ IH|text html _ IH
                  |text html _ IH|c text html ? ? ? ? _ IH];
    intros html' H'; inversion H'; subst; try done;
    by rewrite (IH _ ltac:(eassumption)).
Qed.

(** C5. Message formatting is string substitution: [formatMessage] gives
    [''] for the empty content; otherwise it starts from the content as
    it is when [allowHTML] is true and from its HTML-escaped form when it
    is false (the default), where [&], [<], [>] and the no-break space
    are written as entities; it replaces every line feed by [<br>], wraps
    every match of [https?://] followed by its longest run of non-space
    units in a link that opens in a new tab, and wraps every match of the
    phone pattern in a [tel:] link; that description determines the
    result. *)
Theorem formatMessage_substitution (content : jsstring) (allowHTML : bool) :
  Formatted content allowHTML (formatMessage content (Some allowHTML))
  ∧ (∀ out, Formatted content allowHTML out →
       out = formatMessage content (Some allowHTML))
  ∧ formatMessage content None = formatMessage content (Some false)
  ∧ (∀ m, urlTemplate m =
       lit "<a href=" ++ dq ++ m ++ dq ++ lit " target=" ++ dq ++ lit "_blank"
         ++ dq ++ lit " rel=" ++ dq ++ lit "noopener noreferrer" ++ dq
         ++ lit ">" ++ m ++ lit "</a>")
  ∧ (∀ m, telTemplate m =
       lit "<a href=" ++ dq ++ lit "tel:" ++ m ++ dq ++ lit ">" ++ m
         ++ lit "</a>")
  ∧ brTemplate [10] = lit "<br>".
Proof.
  assert (Formatted content allowHTML (formatMessage content (Some allowHTML)))
    as Hfmt.
  { destruct content as [|c content]; [done|].
    unfold Formatted, formatMessage. cbn [param default].
    exists (if allowHTML then c :: content else sanitizeHTML (c :: content)).
    eexists _, _. split; [|split; [|split]].
    - unfold BaseText. destruct allowHTML; [reflexivity|].
      apply sanitizeHTML_Escaped.
    - apply (replace_Replaced _ _ newlineRegex); [apply newline_sound | apply newline_complete].
    - apply (replace_Replaced _ _ urlRegex); [apply url_sound | apply url_complete].
    - apply (replace_Replaced _ _ phoneRegex); [apply phone_sound | apply phone_complete]. }
  split; [done|]. split; [|done].
  intros out Hout. destruct content as [|c content]; [done|].
  destruct Hfmt as (base & s1 & s2 & H0 & H1 & H2 & H3).
  destruct Hout as (base' & s1' & s2' & H0' & H1' & H2' & H3').
  assert (base' = base) as ->.
  { unfold BaseText in H0, H0'. destruct allowHTML; [congruence|].
    by eapply Escaped_functional. }
  assert (s1' = s1) as ->.
  { eapply Replaced_functional; [|exact H1'|exact H1].
    apply (match_unique _ newlineRegex).
    intros s m rest HM. split; [by eapply newline_complete | by destruct HM]. }
  assert (s2' = s2) as ->.
  { eapply Replaced_functional; [|exact H2'|exact H2].
    apply (match_unique _ urlRegex).
    intros s m rest HM. split; [by eapply url_complete|].
    by destruct HM as (? & ? & _ & _ & _ & _ & _ & ?). }
  eapply Replaced_functional; [|exact H3'|exact H3].
  apply (match_unique _ phoneRegex).
  intros s m rest HM. split; [by eapply phone_complete | by destruct HM].
Qed.

Lemma formatMessage_substitution_witness :
  Formatted (lit "<b>piga 0712345678</b> & co") false
    (lit "&lt;b&gt;piga <a href=" ++ dq ++ lit "tel:0712345678" ++ dq
       ++ lit ">0712345678</a>&lt;/b&gt; &amp; co")
  ∧ formatMessage (lit "<b>piga 0712345678</b> & co") None
    = lit "&lt;b&gt;piga <a href=" ++ dq ++ lit "tel:0712345678" ++ dq
        ++ lit ">0712345678</a>&lt;/b&gt; &amp; co".
Proof.
  pose proof (formatMessage_substitution (lit "<b>piga 0712345678</b> & co")
                false) as (H & _ & Hdefault & _).
  split; [exact H | exact Hdefault].
Defined.

(** ** formatUserInput *)

Lemma singleSpaced_noDouble s : singleSpaced s → noDoubleSpace s.
Proof.
  intros Hs i. revert s Hs. induction i as [|i IH]; intros s Hs c d Hc Hd Hsp.
  - destruct s as [|c' [|d' t]]; try done.
    simpl in Hc, Hd. injection Hc as ->. injection Hd as ->.
    destruct Hs as [Hc _]. by destruct (Hc Hsp) as [_ ?].
  - destruct s as [|c' t]; [done|]. destruct Hs as [_ Ht].
    by apply (IH t Ht c d).
Qed.

Lemma stopsAt_take p n (s : jsstring) : stopsAt p s → stopsAt p (take n s).
Proof. destruct s, n; simpl; done. Qed.

Lemma singleSpaced_take n s : singleSpaced s → singleSpaced (take n s).
Proof.
  revert s. induction n as [|n IH]; intros [|c t]; simpl; try done.
  intros [Hc Ht]. split; [|by apply IH].
  intros Hsp. destruct (Hc Hsp) as [-> Hstop]. split; [done|].
  by apply stopsAt_take.
Qed.

Lemma no_spaces_at_nonspace c s m rest :
  isSpace c = false → ¬ SpacesAt (c :: s) m rest.
Proof.
  intros Hc (Hne & Hm & _ & Hs). destruct m as [|c' m]; [done|].
  injection Hs as <- _. inversion Hm; congruence.
Qed.

Lemma spaces_at_space c s :
  isSpace c = true → ∃ m rest, SpacesAt (c :: s) m rest.
Proof.
  intros Hc. exists (c :: takeWhile isSpace s), (dropWhile isSpace s).
  split; [done|]. split; [constructor; [done | apply takeWhile_Forall]|].
  split; [apply dropWhile_stops|]. simpl. f_equal. apply takeWhile_dropWhile.
Qed.

Section Collapse.

#[local] Abbreviation Collapsed := (Replaced SpacesAt spaceTemplate).

Lemma collapsed_nil out : Collapsed [] out → out = [].
Proof.
  intros H. inversion H as [|s m rest out' HM Hne Hs _|]; subst; [done|].
  by destruct m.
Qed.

Lemma collapsed_nonempty s out : Collapsed s out → s ≠ [] → out ≠ [].
Proof. intros H. by destruct H. Qed.

Lemma collapsed_singleSpaced s out :
  Collapsed s out →
  singleSpaced out ∧ (stopsAt isSpace s → stopsAt isSpace out).
Proof.
  induction 1 as [|s m rest out (_ & Hm & Hstop & _) Hne Hs _ [IH1 IH2]
                  |c s out Hno _ [IH1 IH2]].
  - done.
  - split.
    + change (spaceTemplate m ++ out) with (32 :: out). simpl.
      split; [intros _; split; [done | by apply IH2] | done].
    + subst s. destruct m as [|c m]; [done|]. inversion Hm; subst.
      simpl. congruence.
  - assert (isSpace c = false) as Hc.
    { destruct (isSpace c) eqn:E; [|done].
      destruct (spaces_at_space c s E) as (m & rest & HM). by destruct (Hno m rest). }
    simpl. split; [|done]. split; [congruence | done].
Qed.

Lemma collapsed_noTrailing s out :
  Collapsed s out → noTrailingSpace s → noTrailingSpace out.
Proof.
  unfold noTrailingSpace.
  induction 1 as [|s m rest out (_ & Hm & Hstop & _) Hne Hs Hrest IH
                  |c s out Hno Hrest IH]; [done| |].
  - change (spaceTemplate m ++ out) with (32 :: out). subst s.
    destruct rest as [|d rest].
    + rewrite app_nil_r. destruct (last m) as [c|] eqn:Hlast.
      * apply last_Some in Hlast as [m' ->].
        apply Forall_app in Hm as [_ Hc]. inversion Hc. congruence.
      * apply last_None in Hlast. done.
    + rewrite last_app. simpl last at 1.
      destruct (last (d :: rest)) as [e|] eqn:Hlast; [|by apply last_None in Hlast].
      intros He. assert (out ≠ []) as Hout by (by eapply collapsed_nonempty).
      destruct out as [|o out]; [done|]. rewrite last_cons_cons.
      by apply IH.
  - destruct s as [|d s].
    + apply collapsed_nil in Hrest as ->. done.
    + rewrite last_cons_cons. intros Hs.
      assert (out ≠ []) as Hout by (by eapply collapsed_nonempty).
      destruct out as [|o out]; [done|]. rewrite last_cons_cons. by apply IH.
Qed.

Lemma collapsed_length s out : Collapsed s out → (length out ≤ length s)%nat.
Proof.
  induction 1 as [|s m rest out _ Hne Hs _ IH|c s out _ _ IH]; simpl; [lia| |lia].
  subst s. rewrite length_app. destruct m; [done|]. simpl. lia.
Qed.

Lemma singleSpaced_collapsed s : singleSpaced s → Collapsed s s.
Proof.
  induction s as [|c t IH]; [constructor|]. intros [Hc Ht].
  destruct (isSpace c) eqn:E.
  - destruct (Hc eq_refl) as [-> Hstop].
    apply (Replaced_hit SpacesAt spaceTemplate (32 :: t) [32] t t);
      [|done|done|by apply IH].
    split; [done|]. split; [by repeat constructor | done].
  - apply Replaced_keep; [|by apply IH].
    intros m rest. by apply no_spaces_at_nonspace.
Qed.

End Collapse.

Lemma trimEnd_cons c s :
  trimEnd (c :: s) =
    match trimEnd s with
    | [] => if isSpace c then [] else [c]
    | t => c :: t
    end.
Proof. done. Qed.

Lemma trimEnd_keeps_head c s :
  isSpace c = false → trimEnd (c :: s) = c :: trimEnd s.
Proof. intros Hc. rewrite trimEnd_cons, Hc. by destruct (trimEnd s). Qed.

Lemma trimEnd_length s : (length (trimEnd s) ≤ length s)%nat.
Proof.
  induction s as [|c s IH]; [done|]. rewrite trimEnd_cons.
  destruct (trimEnd s); [destruct (isSpace c)|]; simpl in *; lia.
Qed.

Lemma trimEnd_noTrailing s : noTrailingSpace (trimEnd s).
Proof.
  unfold noTrailingSpace. induction s as [|c s IH]; [done|].
  rewrite trimEnd_cons. destruct (trimEnd s) as [|d t].
  - by destruct (isSpace c) eqn:E.
  - by rewrite last_cons_cons.
Qed.

Lemma trimEnd_id s : noTrailingSpace s → trimEnd s = s.
Proof.
  unfold noTrailingSpace. induction s as [|c s IH]; [done|].
  rewrite trimEnd_cons. destruct s as [|d s].
  - simpl. by intros ->.
  - rewrite last_cons_cons. intros H. by rewrite (IH H).
Qed.

Lemma trim_noLeading s : noLeadingSpace (trim s).
Proof.
  unfold trim, trimStart, noLeadingSpace.
  pose proof (dropWhile_stops isSpace s) as H.
  destruct (dropWhile isSpace s) as [|c t]; [done|].
  simpl in H. by rewrite trimEnd_keeps_head.
Qed.

Lemma trim_noTrailing s : noTrailingSpace (trim s).
Proof. apply trimEnd_noTrailing. Qed.

Lemma trim_length s : (length (trim s) ≤ length s)%nat.
Proof.
  unfold trim, trimStart.
  pose proof (trimEnd_length (dropWhile isSpace s)).
  pose proof (dropWhile_length isSpace s). lia.
Qed.

Lemma trim_id s : noLeadingSpace s → noTrailingSpace s → trim s = s.
Proof.
  intros Hlead Htrail. unfold trim, trimStart.
  assert (dropWhile isSpace s = s) as ->; [|by apply trimEnd_id].
  destruct s as [|c s]; [done|]. simpl in *. by rewrite Hlead.
Qed.

Lemma collapse_Replaced s : Replaced SpacesAt spaceTemplate s (collapse s).
Proof.
  apply (replace_Replaced _ _ spacesRegex);
    [apply spaces_sound | apply spaces_complete].
Qed.

Lemma collapse_id s : singleSpaced s → collapse s = s.
Proof.
  intros Hs. eapply Replaced_functional;
    [|apply collapse_Replaced|by apply singleSpaced_collapsed].
  apply (match_unique _ spacesRegex). intros s' m rest HM.
  split; [by eapply spaces_complete | by destruct HM as (_ & _ & _ & ?)].
Qed.

Lemma formatUserInput_pipeline input :
  formatUserInput input = take 1000 (collapse (trim input)).
Proof. by destruct input. Qed.

Lemma noTrailingSpace_take_all n s :
  (length s ≤ n)%nat → noTrailingSpace s → noTrailingSpace (take n s).
Proof. intros Hn. by rewrite take_ge. Qed.

(** What the pipeline gives before it is cut to 1000 units. *)
Lemma collapse_trim_clean input :
  let s := collapse (trim input) in
  noLeadingSpace s ∧ noTrailingSpace s ∧ singleSpaced s
  ∧ (length s ≤ length input)%nat.
Proof.
  intros s. pose proof (collapse_Replaced (trim input)) as H. fold s in H.
  destruct (collapsed_singleSpaced _ _ H) as [Hsingle Hlead].
  split; [apply Hlead, trim_noLeading|].
  split; [by eapply collapsed_noTrailing, trim_noTrailing|].
  split; [done|].
  pose proof (collapsed_length _ _ H). pose proof (trim_length input). lia.
Qed.

(** A clean text of at most 1000 units is left as it is. *)
Lemma formatUserInput_fixed s :
  (length s ≤ 1000)%nat → noLeadingSpace s → noTrailingSpace s →
  singleSpaced s → formatUserInput s = s.
Proof.
  intros Hlen Hlead Htrail Hsingle.
  rewrite formatUserInput_pipeline, trim_id, collapse_id by done.
  by apply take_ge.
Qed.

(** C8, as the code has it. For every input the result of
    [formatUserInput] has at most 1000 units, does not start with white
    space and has no two white-space units in a row. The cut to 1000
    units comes after the trimming, so the result may end with one space:
    it has no trailing white space, and [formatUserInput] leaves it as it
    is when applied again, whenever the input has at most 1000 units, and
    in general the second application leaves the result unchanged exactly
    when the result does not end with white space. *)
Theorem formatUserInput_normal_form (input : jsstring) :
  let out := formatUserInput input in
  (length out ≤ 1000)%nat
  ∧ noLeadingSpace out
  ∧ noDoubleSpace out
  ∧ (formatUserInput out = out ↔ noTrailingSpace out)
  ∧ ((length input ≤ 1000)%nat →
       noTrailingSpace out ∧ formatUserInput out = out).
Proof.
  intros out. unfold out. rewrite formatUserInput_pipeline.
  destruct (collapse_trim_clean input) as (Hlead & Htrail & Hsingle & Hlen).
  set (s := collapse (trim input)) in *.
  assert (length (take 1000 s) ≤ 1000)%nat as Hcut by (rewrite length_take; lia).
  assert (noLeadingSpace (take 1000 s)) as Hlead' by by apply stopsAt_take.
  assert (singleSpaced (take 1000 s)) as Hsingle' by by apply singleSpaced_take.
  split; [done|]. split; [done|]. split; [by apply singleSpaced_noDouble|].
  split.
  - split.
    + intros <-. rewrite formatUserInput_pipeline.
      destruct (collapse_trim_clean (take 1000 s)) as (_ & Ht & _ & Hl).
      apply noTrailingSpace_take_all; [lia | done].
    + intros Ht. by apply formatUserInput_fixed.
  - intros Hin. rewrite (take_ge s) by lia.
    split; [done|]. apply formatUserInput_fixed; [lia | done..].
Qed.

Example formatUserInput_sample :
  formatUserInput (lit "  habari" ++ [9; 10] ++ lit "  yako ")
    = lit "habari yako".
Proof. by vm_compute. Qed.

(** The shape of the theorem at two inputs: one that fits, and
    [cutAfterSpace], where the cut falls right after a space. *)
Lemma formatUserInput_normal_form_witness :
  formatUserInput (formatUserInput (lit "  habari   yako  "))
    = formatUserInput (lit "  habari   yako  ")
  ∧ (length (formatUserInput cutAfterSpace) ≤ 1000)%nat.
Proof.
  pose proof (formatUserInput_normal_form (lit "  habari   yako  ")) as H.
  pose proof (formatUserInput_normal_form cutAfterSpace) as H'.
  cbv zeta in H, H'. destruct H as (_ & _ & _ & _ & H). destruct H' as (H' & _).
  split; [|exact H']. apply H. vm_compute. lia.
Defined.

(** C8 as the specification words it does not hold: for [cutAfterSpace]
    the result ends with a space, and a second application removes it. *)
Lemma formatUserInput_not_idempotent :
  ¬ (formatUserInput (formatUserInput cutAfterSpace)
       = formatUserInput cutAfterSpace
     ∧ (length (formatUserInput cutAfterSpace) ≤ 1000)%nat
     ∧ noLeadingSpace (formatUserInput cutAfterSpace)
     ∧ noTrailingSpace (formatUserInput cutAfterSpace)
     ∧ noDoubleSpace (formatUserInput cutAfterSpace)).
Proof.
  intros (Hidem & _). apply (f_equal length) in Hidem.
  vm_compute in Hidem. discriminate.
Qed.

(** ** detectCrisisIndicators *)

Lemma asciiLowerUnit_ascii c c' :
  c < 128 → asciiLowerUnit c = asciiLowerUnit c' → c' < 128.
Proof.
  unfold asciiLowerUnit. intros Hc.
  destruct ((65 <=? c) && (c <=? 90)) eqn:E, ((65 <=? c') && (c' <=? 90)) eqn:E';
    repeat match goal with
           | H : _ && _ = true |- _ => apply andb_true_iff in H as [? ?]
           | H : (_ <=? _) = true |- _ => apply N.leb_le in H
           end; lia.
Qed.

(** On messages in Basic Latin, where lower-casing works unit by unit,
    changing the case of letters does not change the lower-case form. *)
Lemma asciiLower_case (m m' : jsstring) :
  Forall2 (λ c c', asciiLowerUnit c = asciiLowerUnit c') m m' →
  asciiLower m = asciiLower m'.
Proof. unfold asciiLower. induction 1; simpl; congruence. Qed.

(** C1, as the code has it. [detectCrisisIndicators] is a scan of a
    fixed list: it answers true exactly when one of the fifteen keywords
    (eight under the English heading, seven under the Swahili one,
    [emergency] under both) occurs in the lower-cased message as a run of
    consecutive units. The answer is a plain yes or no. It does not
    change with the letter case of the message as long as the lower-case
    form stays the same: two messages with the same lower-case form get
    the same answer, and so do, in particular, two Basic Latin messages
    that differ in the case of letters, for any [toLowerCase] that works
    unit by unit on Basic Latin as the engine's does. *)
Theorem detectCrisisIndicators_keyword_scan
    (toLowerCase : jsstring → jsstring) (message : jsstring) :
  (detectCrisisIndicators toLowerCase message = true ↔
     ∃ keyword pre post,
       keyword ∈ crisisKeywords ∧
       toLowerCase message = pre ++ keyword ++ post)
  ∧ length crisisKeywords = 15%nat
  ∧ lit "emergency" ∈ take 8 crisisKeywords
  ∧ lit "emergency" ∈ drop 8 crisisKeywords
  ∧ length (filter (λ k, k = lit "emergency") crisisKeywords) = 2%nat
  ∧ (∀ message',
       toLowerCase message' = toLowerCase message →
       detectCrisisIndicators toLowerCase message'
         = detectCrisisIndicators toLowerCase message)
  ∧ (∀ message',
       (∀ s, Forall (λ c, c < 128) s → toLowerCase s = asciiLower s) →
       Forall (λ c, c < 128) message →
       Forall2 (λ c c', asciiLowerUnit c = asciiLowerUnit c') message message' →
       detectCrisisIndicators toLowerCase message'
         = detectCrisisIndicators toLowerCase message).
Proof.
  split; [|split; [done|split; [|split; [|split; [|split]]]]].
  - unfold detectCrisisIndicators. rewrite existsb_exists. split.
    + intros (keyword & Hin & (pre & post & H)%includes_substring).
      exists keyword, pre, post. by rewrite list_elem_of_In.
    + intros (keyword & pre & post & Hin & H). exists keyword.
      rewrite <- list_elem_of_In. split; [done|].
      apply includes_substring. eauto.
  - vm_compute. repeat first [by left | right].
  - vm_compute. repeat first [by left | right].
  - by vm_compute.
  - intros message' H. unfold detectCrisisIndicators. by rewrite H.
  - intros message' Hengine Hascii Hcase. unfold detectCrisisIndicators.
    assert (Forall (λ c, c < 128) message') as Hascii'.
    { clear Hengine. induction Hcase as [|c c' m m' Hc _ IH]; [done|].
      inversion Hascii; subst. constructor; [|by apply IH].
      by eapply asciiLowerUnit_ascii. }
    by rewrite !Hengine, (asciiLower_case _ _ Hcase).
Qed.

Lemma detectCrisisIndicators_keyword_scan_witness :
  detectCrisisIndicators asciiLower (lit "I Want To END IT ALL") = true
  ∧ detectCrisisIndicators asciiLower (lit "i want to end it all")
    = detectCrisisIndicators asciiLower (lit "I Want To END IT ALL").
Proof.
  destruct (detectCrisisIndicators_keyword_scan asciiLower
              (lit "I Want To END IT ALL")) as (Hscan & _ & _ & _ & _ & _ & Hcase).
  split.
  - apply Hscan. exists (lit "end it all"), (lit "i want to "), [].
    split; [|reflexivity]. vm_compute. do 2 right. by left.
  - apply Hcase.
    + reflexivity.
    + vm_compute. repeat constructor.
    + vm_compute. repeat constructor.
Defined.

(** C1 as the specification words it does not hold for every string:
    a change of letter case can change the lower-case form. The long s
    followed by [uicide] holds no keyword, and is its own lower-case
    form; its upper-case form is [SUICIDE], whose lower-case form is the
    keyword [suicide]. *)
Lemma detectCrisisIndicators_not_case_invariant :
  let message := 383 :: lit "uicide" in
  latinUpper message = lit "SUICIDE"
  ∧ asciiLower message = message
  ∧ asciiLower (latinUpper message) = lit "suicide"
  ∧ detectCrisisIndicators asciiLower message = false
  ∧ detectCrisisIndicators asciiLower (latinUpper message) = true.
Proof. by vm_compute. Qed.

(** ** translate *)

Lemma entries_not_empty :
  map_Forall (λ _ table, map_Forall (λ _ text : jsstring, text ≠ []) table)
    translations.
Proof. apply (bool_decide_unpack _). by vm_compute. Qed.


Lemma english_table : is_Some (translations !! lit "en").
Proof. apply (bool_decide_unpack _). by vm_compute. Qed.

Lemma table_keys_plain :
  map_Forall
    (λ _ table,
       map_Forall
         (λ (key : jsstring) (_ : jsstring),
            (key ∉ objectPrototypeNames) ∧ (key ∉ restrictedProperties))
         table)
    translations.
Proof. apply (bool_decide_unpack _). by vm_compute. Qed.

Ltac table_key := apply (bool_decide_unpack _); by vm_compute.

(** An entry of a table, for a key that [Object.prototype] does not
    name. *)
Lemma tableEntry_run language table key :
  translations !! language = Some table →
  key ∉ objectPrototypeNames →
  tableEntry table key = Text <$> (table !! key).
Proof.
  intros Htable Hplain. unfold tableEntry.
  destruct (table !! key) as [text|] eqn:Hkey.
  - pose proof (entries_not_empty language table Htable key text Hkey).
    by destruct text.
  - by rewrite (bool_decide_eq_false_2 _ Hplain).
Qed.

(** The [||] chain of [translate], entry by entry, where no built-in
    object comes in. *)
Lemma translate_chain (key : jsstring) (language : option jsstring) :
  key ∉ objectPrototypeNames →
  param (lit "en") language ∉ objectPrototypeNames
  ∨ is_Some (entry (lit "en") key) →
  translate key language =
    Ok (Text (match entry (param (lit "en") language) key with
              | Some text => text
              | None =>
                  match entry (lit "en") key with
                  | Some text => text
                  | None => key
                  end
              end)).
Proof.
  intros Hplain Hor. unfold translate, entry in *.
  destruct english_table as [en Hen]. rewrite Hen in *. cbn [mbind option_bind] in *.
  rewrite (tableEntry_run _ _ _ Hen Hplain).
  destruct (translations !! param (lit "en") language) as [table|] eqn:Htable;
    cbn [mbind option_bind].
  - rewrite (tableEntry_run _ _ _ Htable Hplain).
    destruct (table !! key); [done|]. by destruct (en !! key).
  - case_bool_decide as Hproto.
    + rewrite (bool_decide_eq_false_2 _ Hplain). by destruct (en !! key).
    + case_bool_decide as Hinherited; [|by destruct (en !! key)].
      destruct Hor as [?|[text Hkey]]; [done|].
      destruct (table_keys_plain _ _ Hen _ _ Hkey) as [_ Hfree].
      rewrite (bool_decide_eq_false_2 _ Hfree). by rewrite Hkey.
Qed.

Lemma table_key_plain key :
  is_Some (entry (lit "en") key) → key ∉ objectPrototypeNames.
Proof.
  unfold entry. destruct english_table as [en Hen]. rewrite Hen.
  intros [text Hkey]. by destruct (table_keys_plain _ _ Hen _ _ Hkey).
Qed.

(** [translate] for a key of the tables, in any language. *)
Lemma translate_run (key : jsstring) (language : option jsstring) :
  is_Some (entry (lit "en") key) →
  translate key language =
    Ok (Text (match entry (param (lit "en") language) key with
              | Some text => text
              | None =>
                  match entry (lit "en") key with
                  | Some text => text
                  | None => key
                  end
              end)).
Proof.
  intros Hkey. apply translate_chain; [by apply table_key_plain | by right].
Qed.




(** ** The API service *)

Ltac unfold_effects :=
  unfold try_catch, throw, lift, get, modify, mbind, M_bind, mret, M_ret.

Ltac run_api :=
  unfold APIService.sendMessage, APIService.getStats, APIService.getResources,
    APIService.checkHealth, APIService.sendFeedback, APIService.fetchJSON,
    APIService.fetch;
  unfold_effects.

Lemma fetchJSON_log network request log :
  (APIService.fetchJSON network request log).1 = log ++ [request].
Proof.
  run_api. destruct (network (length log) request) as [[[] ? ?]|]; done.
Qed.

Lemma fetchJSON_answered network request log parsed :
  answered (network (length log) request) parsed →
  APIService.fetchJSON network request log = (log ++ [request], Ok parsed).
Proof. intros [status H]. run_api. by rewrite H. Qed.

Lemma fetchJSON_failed network request log :
  failed (network (length log) request) →
  ∃ e, APIService.fetchJSON network request log = (log ++ [request], Throw e).
Proof.
  run_api. destruct (network (length log) request) as [[okay ? ?]|e]; simpl.
  - intros ->. eauto.
  - eauto.
Qed.

(** C3. [sendMessage(message, userId, language, platform)] issues one
    request, a POST to the chat endpoint under the base URL whose JSON
    body is [{user_id, message, language, platform}], where a language
    left out is ['en'] and a platform left out is ['web']; when the
    response has a good status, it returns the parsed body. *)
Theorem sendMessage_posts_chat (network : nat → Request → result Response)
    (message userId : jsstring) (language platform : option jsstring)
    (log : Net) :
  let request :=
    chatRequest message userId
      (default (lit "en") language) (default (lit "web") platform) in
  let run := APIService.sendMessage network message userId language platform log in
  run.1 = log ++ [request]
  ∧ url request = lit "http://localhost:8000/api/v1/chat"
  ∧ (∀ parsed, answered (network (length log) request) parsed →
       run.2 = Ok parsed).
Proof.
  intros request run. split; [|split; [done|]].
  - unfold run, APIService.sendMessage, try_catch.
    pose proof (fetchJSON_log network request log) as H.
    fold request. change (APIService.POST _ _) with request.
    destruct (APIService.fetchJSON network request log) as [log' [v|e]]; done.
  - intros parsed H. unfold run, APIService.sendMessage, try_catch.
    change (APIService.POST _ _) with request.
    by rewrite (fetchJSON_answered _ _ _ _ H).
Qed.

Lemma sendMessage_posts_chat_witness :
  (APIService.sendMessage
     (λ _ _, Ok {| ok := true; status := 200; json := Ok (VStr (lit "hi")) |})
     (lit "habari") (lit "user_1") None None []).2
  = Ok (VStr (lit "hi")).
Proof.
  apply (sendMessage_posts_chat
           (λ _ _, Ok {| ok := true; status := 200;
                         json := Ok (VStr (lit "hi")) |})
           (lit "habari") (lit "user_1") None None []).
  by exists 200%Z.
Defined.

(** C9. [getStats] and [checkHealth] never pass an error on: when the
    request is rejected or the status is an error, [getStats] returns
    [{active_users: 0, total_conversations: 0, resources_available: 0}]
    and [checkHealth] an object whose [status] is ['unhealthy']; on a
    good answer each returns the parsed body. [sendMessage],
    [getResources] and [sendFeedback] throw on every such failure. *)
Theorem api_failure_handling (network : nat → Request → result Response)
    (log : Net) :
  let outcome request := network (length log) request in
  let statsRequest := APIService.GET (lit "http://localhost:8000/api/v1/stats") in
  let healthRequest := APIService.GET (lit "http://localhost:8000/api/v1/health") in
  let resourcesRequest :=
    APIService.GET (lit "http://localhost:8000/api/v1/resources") in
  (* getStats *)
  (∃ v, (APIService.getStats network log).2 = Ok v)
  ∧ (failed (outcome statsRequest) →
       (APIService.getStats network log).2 =
         Ok (obj [(lit "active_users", VNum 0);
                  (lit "total_conversations", VNum 0);
                  (lit "resources_available", VNum 0)]))
  ∧ (∀ parsed, answered (outcome statsRequest) parsed →
       (APIService.getStats network log).2 = Ok parsed)
  (* checkHealth *)
  ∧ (∃ v, (APIService.checkHealth network log).2 = Ok v)
  ∧ (failed (outcome healthRequest) →
       ∃ text, (APIService.checkHealth network log).2 =
         Ok (obj [(lit "status", VStr (lit "unhealthy"));
                  (lit "error", VStr text)]))
  ∧ (∀ parsed, answered (outcome healthRequest) parsed →
       (APIService.checkHealth network log).2 = Ok parsed)
  (* the three that throw *)
  ∧ (∀ message userId language platform,
       failed (outcome (chatRequest message userId
                 (default (lit "en") language) (default (lit "web") platform))) →
       (APIService.sendMessage network message userId language platform log).2
         = Throw (Error (lit "Failed to send message. Please try again.")))
  ∧ (failed (outcome resourcesRequest) →
       (APIService.getResources network log).2
         = Throw (Error (lit "Failed to load resources")))
  ∧ (∀ userId messageId feedback,
       failed (outcome (APIService.POST
                 (lit "http://localhost:8000/api/v1/chat/feedback")
                 (obj [(lit "user_id", VStr userId);
                       (lit "message_id", VStr messageId);
                       (lit "feedback", VStr feedback)]))) →
       (APIService.sendFeedback network userId messageId feedback log).2
         = Throw (Error (lit "Failed to send feedback"))).
Proof.
  intros outcome statsRequest healthRequest resourcesRequest.
  assert (∀ request (handler : exn → M Net jsval) text,
            (∀ e log', (handler e log').2 = Throw (Error text)) →
            failed (outcome request) →
            (try_catch (APIService.fetchJSON network request) handler log).2
              = Throw (Error text)) as Hthrow.
  { intros request handler text Hh [e H]%fetchJSON_failed.
    unfold try_catch. by rewrite H. }
  assert (∀ request (handler : exn → M Net jsval) parsed,
            answered (outcome request) parsed →
            (try_catch (APIService.fetchJSON network request) handler log).2
              = Ok parsed) as Hok.
  { intros request handler parsed H. unfold try_catch.
    by rewrite (fetchJSON_answered _ _ _ _ H). }
  repeat split.
  - unfold APIService.getStats, try_catch.
    destruct (APIService.fetchJSON _ _ log) as [log' [v|e]]; simpl; eauto.
  - intros [e H]%fetchJSON_failed.
    unfold APIService.getStats, try_catch.
    change (APIService.GET _) with statsRequest. by rewrite H.
  - intros parsed H. by apply Hok.
  - unfold APIService.checkHealth, try_catch.
    destruct (APIService.fetchJSON _ _ log) as [log' [v|e]]; simpl; eauto.
  - intros [e H]%fetchJSON_failed.
    unfold APIService.checkHealth, try_catch.
    change (APIService.GET _) with healthRequest. rewrite H. simpl. eauto.
  - intros parsed H. by apply Hok.
  - intros message userId language platform H. by apply Hthrow.
  - intros H. by apply Hthrow.
  - intros userId messageId feedback H. by apply Hthrow.
Qed.

Lemma api_failure_handling_witness :
  (APIService.getStats (λ _ _, Throw (TypeError (lit "Failed to fetch"))) []).2
  = Ok (obj [(lit "active_users", VNum 0);
             (lit "total_conversations", VNum 0);
             (lit "resources_available", VNum 0)]).
Proof.
  destruct (api_failure_handling
              (λ _ _, Throw (TypeError (lit "Failed to fetch"))) [])
    as (_ & H & _).
  apply H. exact I.
Defined.

(** ** The chat interface *)

Ltac run_chat :=
  unfold sendMessage, updateStats, showCrisisAlert, showTyping, addMessage,
    scrollToBottom, api;
  unfold_effects.

Lemma api_sendMessage_run network message userId language platform log :
  let request :=
    chatRequest message userId
      (default (lit "en") language) (default (lit "web") platform) in
  APIService.sendMessage network message userId language platform log =
    (log ++ [request],
     match network (length log) request with
     | Ok {| ok := true; json := Ok parsed |} => Ok parsed
     | _ => Throw (Error (lit "Failed to send message. Please try again."))
     end).
Proof.
  intros request. run_api. change (APIService.POST _ _) with request.
  destruct (network (length log) request) as [[[] ? [|]]|]; done.
Qed.

Lemma api_getStats_run network log :
  let request := APIService.GET (lit "http://localhost:8000/api/v1/stats") in
  APIService.getStats network log =
    (log ++ [request],
     match network (length log) request with
     | Ok {| ok := true; json := Ok parsed |} => Ok parsed
     | _ => Ok APIService.defaultStats
     end).
Proof.
  intros request. run_api. change (APIService.GET _) with request.
  destruct (network (length log) request) as [[[] ? [|]]|]; done.
Qed.

Lemma getProp_prop v key : nullish v = false → getProp v key = Ok (prop v key).
Proof. by destruct v. Qed.

Lemma renderable_formats v :
  renderable v = true ↔ ∃ bubble, formatMessageHTML v = Ok bubble.
Proof.
  unfold renderable, formatMessageHTML. destruct (truthy v) eqn:Ht; simpl.
  - destruct v; split; try done; try (by intros [? ?]); eauto.
  - split; eauto.
Qed.

Lemma forEachResource_renderable items html :
  forallb renderable items = true →
  ∃ out, forEachResource items html = Ok out.
Proof.
  revert html. induction items as [|v items IH]; intros html; simpl; [eauto|].
  intros [[bubble Hv]%renderable_formats Hitems]%andb_true_iff.
  rewrite Hv. simpl. by apply IH.
Qed.

Lemma resourcesRenderable_formats v language :
  resourcesRenderable v = true →
  ∃ html, formatCrisisResources v language = Ok html.
Proof.
  unfold resourcesRenderable, formatCrisisResources.
  destruct (negb (truthy v) || lengthIsZero v) eqn:E; simpl; [eauto|].
  rewrite translate_run by table_key. simpl.
  destruct v; try done. intros H.
  match goal with
  | |- context [forEachResource items ?html] =>
      destruct (forEachResource_renderable items html H) as [out Hout]
  end.
  rewrite Hout. simpl. eauto.
Qed.

Lemma formatMessageHTML_string c s :
  formatMessageHTML (VStr (c :: s)) = Ok (formatMessage (c :: s) (Some true)).
Proof. done. Qed.

Lemma formatMessageHTML_text s : ∃ bubble, formatMessageHTML (VStr s) = Ok bubble.
Proof. destruct s; by eexists. Qed.

#[local] Opaque formatMessage formatCrisisResources translate formatUserInput
  formatMessageHTML.

(** *** The steps of the component, one by one *)

Lemma addMessage_run env content type metadata st :
  addMessage env content type metadata st =
    match formatMessageHTML content with
    | Ok bubble =>
        (appendMessage (element env st type bubble)
           (historyEntry env st content type (param (obj []) metadata))
           (drawTick st), Ok tt)
    | Throw e => (drawTick st, Throw e)
    end.
Proof. run_chat. by destruct (formatMessageHTML content). Qed.

Lemma showCrisisAlert_run resources st :
  showCrisisAlert resources st =
    match formatCrisisResources resources (Some (currentLanguage st)) with
    | Ok html => (setTimeout 15000 HideCrisisAlert (setCrisisAlert html st), Ok tt)
    | Throw e => (st, Throw e)
    end.
Proof.
  run_chat. by destruct (formatCrisisResources resources _).
Qed.

Lemma updateStats_run env st :
  updateStats env st =
    let (log, r) := APIService.getStats (network env) (requests st) in
    match r with
    | Ok stats =>
        if nullish stats then (setRequests log st, Ok tt)
        else
          (setResourcesAvailable
             (or_else (prop stats (lit "resources_available")) (VNum 0))
             (setTotalConversations
                (or_else (prop stats (lit "total_conversations")) (VNum 0))
                (setActiveUsers
                   (or_else (prop stats (lit "active_users")) (VNum 0))
                   (setRequests log st))), Ok tt)
    | Throw e => (setRequests log st, Ok tt)
    end.
Proof.
  run_chat. destruct (APIService.getStats _ _) as [log [stats|e]]; [|done].
  by destruct stats.
Qed.

Lemma showTyping_run show st :
  showTyping show st =
    (if show then setTimeout 100 ScrollToBottom (setTyping true st)
     else setTyping false st, Ok tt).
Proof. by destruct show. Qed.

Lemma sendMessage_unfold env st :
  sendMessage env st =
    if negb (truthy (VStr (formatUserInput (inputValue st)))) || isTyping st
    then (st, Ok tt)
    else
      let s1 := setRequests (requests st ++ [chatRequestOf st]) (sent env st) in
      match network env (length (requests st)) (chatRequestOf st) with
      | Ok {| ok := true; json := Ok r |} =>
          try_catch (showReply env r) (λ _, showError env) s1
      | _ => showError env s1
      end.
Proof.
  unfold sendMessage. unfold mbind at 1. unfold M_bind at 1. unfold get at 1.
  destruct (negb (truthy (VStr (formatUserInput (inputValue st)))) || isTyping st)
    eqn:Hguard; [done|].
  apply orb_false_iff in Hguard as [Hmsg Htyping].
  unfold mbind at 1. unfold M_bind at 1. rewrite addMessage_run.
  destruct (formatUserInput (inputValue st)) as [|c message] eqn:Hm; [done|].
  rewrite formatMessageHTML_string.
  unfold mbind at 1. unfold M_bind at 1. unfold modify at 1.
  unfold mbind at 1. unfold M_bind at 1. rewrite showTyping_run.
  unfold try_catch at 1. unfold mbind at 1. unfold M_bind at 1. unfold get at 1.
  unfold mbind at 1. unfold M_bind at 1. unfold api at 1.
  rewrite api_sendMessage_run. cbn [default param].
  unfold chatRequestOf, sent. rewrite Hm.
  cbn [requests userId currentLanguage setTimeout setTyping setInputValue
         appendMessage drawTick].
  destruct (network env (length (requests st)) _) as [[[] ? [r|]]|]; done.
Qed.

Lemma sendMessageMeanwhile_unfold env meanwhile st :
  sendMessageMeanwhile env meanwhile st =
    if negb (truthy (VStr (formatUserInput (inputValue st)))) || isTyping st
    then (st, Ok tt)
    else
      let s1 := meanwhile (awaiting env st) in
      match network env (length (requests st)) (chatRequestOf st) with
      | Ok {| ok := true; json := Ok r |} =>
          try_catch (showReply env r) (λ _, showError env) s1
      | _ => showError env s1
      end.
Proof.
  unfold sendMessageMeanwhile.
  unfold mbind at 1. unfold M_bind at 1. unfold get at 1.
  destruct (negb (truthy (VStr (formatUserInput (inputValue st)))) || isTyping st)
    eqn:Hguard; [done|].
  apply orb_false_iff in Hguard as [Hmsg Htyping].
  unfold mbind at 1. unfold M_bind at 1. rewrite addMessage_run.
  destruct (formatUserInput (inputValue st)) as [|c message] eqn:Hm; [done|].
  rewrite formatMessageHTML_string.
  unfold mbind at 1. unfold M_bind at 1. unfold modify at 1.
  unfold mbind at 1. unfold M_bind at 1. rewrite showTyping_run.
  unfold try_catch at 1. unfold mbind at 1. unfold M_bind at 1. unfold get at 1.
  unfold mbind at 1. unfold M_bind at 1. unfold await at 1. unfold api at 1.
  rewrite api_sendMessage_run. cbn [default param].
  unfold awaiting, chatRequestOf, sent. rewrite Hm.
  cbn [requests userId currentLanguage setTimeout setTyping setInputValue
         appendMessage drawTick].
  destruct (network env (length (requests st)) _) as [[[] ? [r|]]|]; done.
Qed.

(** [sendMessage] is the run in which nothing happens while it waits. *)
Lemma sendMessage_uninterrupted env st :
  sendMessageMeanwhile env (λ s, s) st = sendMessage env st.
Proof. by rewrite sendMessageMeanwhile_unfold, sendMessage_unfold. Qed.

Lemma showError_run env s :
  ∃ text bubble,
    translate (lit "errorMessage") (Some (currentLanguage s)) = Ok (Text text)
    ∧ showError env s =
        (appendMessage
           (element env (setTyping false s) (lit "bot") bubble)
           (historyEntry env (setTyping false s) (VStr text) (lit "bot") (obj []))
           (drawTick (setTyping false s)), Ok tt).
Proof.
  unfold showError. unfold_effects. rewrite showTyping_run.
  cbn [currentLanguage setTyping]. rewrite translate_run by table_key.
  cbn [result_bind asText].
  match goal with |- context [VStr ?t] => set (text := t) end.
  destruct (formatMessageHTML_text text) as [bubble Hb].
  exists text, bubble. split; [done|]. by rewrite addMessage_run, Hb.
Qed.

Lemma updateStats_frame env s :
  (updateStats env s).2 = Ok tt
  ∧ sameChat s (updateStats env s).1
  ∧ requests (updateStats env s).1 = requests s ++ [statsRequest].
Proof.
  rewrite updateStats_run, api_getStats_run. cbv zeta.
  match goal with
  | |- context [match ?o with Ok _ => _ | Throw _ => _ end] =>
      destruct o as [stats|e]
  end; [destruct (nullish stats)|]; by repeat split.
Qed.

(** The reply step on a reply that can be shown. *)
Lemma showReply_wellFormed env r s :
  wellFormedReply r = true →
  ∃ bubble shownReply,
    formatMessageHTML (prop r (lit "response")) = Ok bubble
    ∧ shownReply =
        appendMessage
          (element env (setTyping false s) (replyClass r) bubble)
          (historyEntry env (setTyping false s) (prop r (lit "response"))
             (replyClass r)
             (obj [(lit "isCrisis", prop r (lit "is_crisis"));
                   (lit "confidence", prop r (lit "confidence"));
                   (lit "resources", prop r (lit "resources"))]))
          (drawTick (setTyping false s))
    ∧ if crisisReply r then
        ∃ html,
          formatCrisisResources (prop r (lit "resources"))
            (Some (currentLanguage s)) = Ok html
          ∧ showReply env r s =
              updateStats env
                (setTimeout 15000 HideCrisisAlert (setCrisisAlert html shownReply))
      else showReply env r s = updateStats env shownReply.
Proof.
  unfold wellFormedReply.
  intros [[Hnull [bubble Hb]%renderable_formats]%andb_true_iff Hres]%andb_true_iff.
  apply negb_true_iff in Hnull.
  eexists bubble, _. split; [done|]. split; [done|].
  unfold showReply. unfold_effects. rewrite showTyping_run.
  rewrite !getProp_prop by done. rewrite addMessage_run, Hb.
  cbn [param default]. fold (replyClass r). fold (crisisReply r).
  destruct (crisisReply r) eqn:Hcrisis.
  - simpl in Hres.
    destruct (resourcesRenderable_formats _ (Some (currentLanguage s)) Hres)
      as [html Hhtml].
    exists html. split; [done|].
    rewrite showCrisisAlert_run. cbn [currentLanguage appendMessage drawTick setTyping].
    by rewrite Hhtml.
  - done.
Qed.

(** Whatever the answer is made of, once the reply step and, if it
    throws, the [catch] block are through, the typing indicator is off
    and the log has grown by at most the statistics request. *)
Lemma reply_or_error_typing env r s :
  let s' := (try_catch (showReply env r) (λ _, showError env) s).1 in
  isTyping s' = false ∧ typingShown s' = false
  ∧ (requests s' = requests s ∨ requests s' = requests s ++ [statsRequest]).
Proof.
  set (Quiet := λ s' : Chat,
         isTyping s' = false ∧ typingShown s' = false
         ∧ (requests s' = requests s ∨ requests s' = requests s ++ [statsRequest])).
  assert (∀ s0, requests s0 = requests s → Quiet (showError env s0).1) as Herr.
  { intros s0 Hr. destruct (showError_run env s0) as (text & bubble & _ & ->).
    repeat split. by left. }
  assert (∀ s0, isTyping s0 = false → typingShown s0 = false →
            requests s0 = requests s →
            Quiet (let (s', r) := updateStats env s0 in
                   match r with
                   | Ok a => (s', Ok a)
                   | Throw _ => showError env s'
                   end).1) as Hstats.
  { intros s0 H1 H2 H3.
    destruct (updateStats_frame env s0)
      as (Hok & (_ & _ & Ht & _ & _ & _ & Hs & _) & Hr).
    destruct (updateStats env s0) as [s' out]. simpl in *. subst out.
    unfold Quiet. simpl. split; [congruence|]. split; [congruence|].
    right. congruence. }
  change (Quiet (try_catch (showReply env r) (λ _, showError env) s).1).
  unfold try_catch, showReply. unfold_effects. rewrite showTyping_run.
  destruct (getProp r (lit "is_crisis")) as [is_crisis|]; [|by apply Herr].
  destruct (getProp r (lit "response")) as [reply|]; [|by apply Herr].
  destruct (getProp r (lit "confidence")) as [confidence|]; [|by apply Herr].
  destruct (getProp r (lit "resources")) as [resources|]; [|by apply Herr].
  rewrite addMessage_run.
  destruct (formatMessageHTML reply) as [bubble|]; [|by apply Herr].
  destruct (truthy is_crisis && truthy resources).
  - rewrite showCrisisAlert_run.
    destruct (formatCrisisResources resources _) as [html|]; [|by apply Herr].
    by apply Hstats.
  - by apply Hstats.
Qed.

Lemma guard_open st :
  formatUserInput (inputValue st) ≠ [] → isTyping st = false →
  negb (truthy (VStr (formatUserInput (inputValue st)))) || isTyping st = false.
Proof.
  intros Hmsg ->. by destruct (formatUserInput (inputValue st)).
Qed.


(** [sendMessage] when the call to the chat API throws. *)
Lemma sendMessage_thrown env st :
  formatUserInput (inputValue st) ≠ [] → isTyping st = false →
  apiThrows (network env (length (requests st)) (chatRequestOf st)) →
  ∃ text bubble,
    translate (lit "errorMessage") (Some (currentLanguage st)) = Ok (Text text)
    ∧ let s1 :=
        setTyping false
          (setRequests (requests st ++ [chatRequestOf st]) (sent env st)) in
      sendMessage env st =
        (appendMessage (element env s1 (lit "bot") bubble)
           (historyEntry env s1 (VStr text) (lit "bot") (obj []))
           (drawTick s1), Ok tt).
Proof.
  intros Hmsg Htyping Hthrows.
  rewrite sendMessage_unfold, guard_open by done. cbv zeta.
  set (s0 := setRequests (requests st ++ [chatRequestOf st]) (sent env st)).
  destruct (showError_run env s0) as (text & bubble & Htext & Hrun).
  exists text, bubble. split; [done|].
  destruct (network env (length (requests st)) (chatRequestOf st))
    as [[[] status [r|]]|]; try done.
  by destruct (Hthrows r); exists status.
Qed.

(** *** sendMessage *)

(** C7. [sendMessage] forwards [formatUserInput] of the input value as
    the user's text. When that text is empty, or while a reply is
    pending, it returns with the whole state as it was: no request, no
    message in the page or the history, the input not cleared. *)
Theorem sendMessage_guard (env : Env) (st : Chat) :
  let message := formatUserInput (inputValue st) in
  (message = [] ∨ isTyping st = true → sendMessage env st = (st, Ok tt))
  ∧ (message ≠ [] → isTyping st = false →
       ∃ more,
         requests (sendMessage env st).1 =
           requests st
           ++ chatRequest message (userId st) (currentLanguage st) (lit "web")
           :: more
         ∧ (more = [] ∨ more = [statsRequest])).
Proof.
  intros message. split.
  - intros Hguard. rewrite sendMessage_unfold. fold message.
    destruct Hguard as [-> | ->]; [done|]. by rewrite orb_true_r.
  - intros Hmsg Htyping. rewrite sendMessage_unfold, guard_open by done.
    cbv zeta. fold (chatRequestOf st).
    set (s0 := setRequests (requests st ++ [chatRequestOf st]) (sent env st)).
    assert (requests s0 = requests st ++ [chatRequestOf st]) as Hs0 by done.
    assert (∀ s', requests s' = requests s0
                  ∨ requests s' = requests s0 ++ [statsRequest] →
              ∃ more, requests s' = requests st ++ chatRequestOf st :: more
                      ∧ (more = [] ∨ more = [statsRequest])) as Hmore.
    { intros s' [-> | ->]; rewrite Hs0.
      - exists []. eauto.
      - exists [statsRequest]. rewrite <- app_assoc. eauto. }
    assert (∃ more, requests (showError env s0).1
                      = requests st ++ chatRequestOf st :: more
                    ∧ (more = [] ∨ more = [statsRequest])) as Herr.
    { apply Hmore. left.
      by destruct (showError_run env s0) as (text & bubble & _ & ->). }
    destruct (network env (length (requests st)) (chatRequestOf st))
      as [[[] status [r|]]|]; try done.
    apply Hmore. by destruct (reply_or_error_typing env r s0) as (_ & _ & ?).
Qed.

Lemma sendMessage_guard_witness :
  sendMessage offline (typed (lit "   ")) = (typed (lit "   "), Ok tt)
  ∧ ∃ more,
      requests (sendMessage offline (typed (lit " habari  yako "))).1 =
        chatRequest (lit "habari yako") (lit "user_1") (lit "en") (lit "web")
        :: more.
Proof.
  split.
  - apply (sendMessage_guard offline (typed (lit "   "))). left. reflexivity.
  - destruct (sendMessage_guard offline (typed (lit " habari  yako "))) as [_ H].
    destruct H as (more & H & _); [by vm_compute | reflexivity |].
    exists more. exact H.
Defined.




(** *** The crisis alert *)

(** The alert after the reply has been shown, from the state [s] in
    which the reply arrives. *)
Lemma reply_alert env r s :
  let s' := (try_catch (showReply env r) (λ _, showError env) s).1 in
  wellFormedReply r = true →
  crisisShown s' = crisisShown s || crisisReply r
  ∧ (crisisReply r = true →
       formatCrisisResources (prop r (lit "resources"))
         (Some (currentLanguage s)) = Ok (crisisResources s')).
Proof.
  intros s' Hwf. unfold s'.
  destruct (showReply_wellFormed env r s Hwf)
    as (bubble & shown & Hb & -> & Hrun).
  unfold try_catch. destruct (crisisReply r) eqn:Hcrisis.
  - destruct Hrun as (html & Hhtml & ->).
    match goal with
    | |- context [updateStats env ?x] =>
        destruct (updateStats_frame env x) as (Hok & Hsame & _);
        destruct (updateStats env x) as [final out]
    end.
    simpl in Hok. subst out.
    destruct Hsame as (_ & _ & _ & _ & _ & _ & _ & _ & Hshown & Hres & _).
    rewrite Hshown, Hres. simpl.
    split; [by rewrite orb_true_r | by intros _].
  - rewrite Hrun.
    match goal with
    | |- context [updateStats env ?x] =>
        destruct (updateStats_frame env x) as (Hok & Hsame & _);
        destruct (updateStats env x) as [final out]
    end.
    simpl in Hok. subst out.
    destruct Hsame as (_ & _ & _ & _ & _ & _ & _ & _ & Hshown & Hres & _).
    rewrite Hshown. simpl. by rewrite orb_false_r.
Qed.

Lemma error_alert env s :
  crisisShown (showError env s).1 = crisisShown s
  ∧ crisisResources (showError env s).1 = crisisResources s.
Proof. by destruct (showError_run env s) as (text & bubble & _ & ->). Qed.

(** C2, as the code has it. [sendMessage] does not consult
    [detectCrisisIndicators]; the alert follows the server's answer.
    While the method waits for the answer, an alert that is up may be
    taken down by its timer, or by the user; what counts is the state
    in which the answer arrives. For a reply the widget can show, the
    alert is on when the method has finished exactly when it was on at
    the arrival of the reply or the reply has a truthy [is_crisis] and
    truthy [resources], in which case it lists those resources in the
    language of that moment; when the call to the API throws, the alert
    is left as the failure finds it. *)
Theorem crisis_alert_follows_server (env : Env) (meanwhile : Chat → Chat)
    (st : Chat) :
  let message := formatUserInput (inputValue st) in
  let outcome := network env (length (requests st)) (chatRequestOf st) in
  let arrival := meanwhile (awaiting env st) in
  let st' := (sendMessageMeanwhile env meanwhile st).1 in
  message ≠ [] → isTyping st = false →
  (∀ r, answered outcome r → wellFormedReply r = true →
     crisisShown st' = crisisShown arrival || crisisReply r
     ∧ (crisisReply r = true →
          formatCrisisResources (prop r (lit "resources"))
            (Some (currentLanguage arrival)) = Ok (crisisResources st')))
  ∧ (apiThrows outcome →
       crisisShown st' = crisisShown arrival
       ∧ crisisResources st' = crisisResources arrival)
  ∧ sendMessageMeanwhile env (λ s, s) st = sendMessage env st.
Proof.
  intros message outcome arrival st' Hmsg Htyping.
  split; [|split; [|apply sendMessage_uninterrupted]].
  - intros r [status Hnet] Hwf. unfold st'.
    rewrite sendMessageMeanwhile_unfold, guard_open by done. cbv zeta.
    fold outcome arrival. rewrite Hnet. by apply reply_alert.
  - intros Hthrows. unfold st'.
    rewrite sendMessageMeanwhile_unfold, guard_open by done. cbv zeta.
    fold outcome arrival.
    pose proof (error_alert env arrival) as Herror.
    destruct outcome as [[[] status [r|]]|]; try done.
    by destruct (Hthrows r); exists status.
Qed.

Lemma crisis_alert_follows_server_witness :
  let alarmed :=
    setInputValue (lit "asante")
      (sendMessage (answering alarmReply sampleStats)
         (typed (lit "habari"))).1 in
  crisisShown alarmed = true
  ∧ crisisShown
      (sendMessageMeanwhile (answering calmReply sampleStats)
         (runTimer HideCrisisAlert) alarmed).1 = false
  ∧ crisisShown
      (sendMessageMeanwhile (answering alarmReply sampleStats)
         (runTimer HideCrisisAlert) alarmed).1 = true.
Proof.
  intros alarmed. split; [by vm_compute|].
  destruct (crisis_alert_follows_server (answering calmReply sampleStats)
              (runTimer HideCrisisAlert) alarmed)
    as (Hcalm & _); [by vm_compute | reflexivity |].
  destruct (crisis_alert_follows_server (answering alarmReply sampleStats)
              (runTimer HideCrisisAlert) alarmed)
    as (Halarm & _); [by vm_compute | reflexivity |].
  split.
  - destruct (Hcalm calmReply) as [-> _];
      [by exists 200%Z | by vm_compute | by vm_compute].
  - destruct (Halarm alarmReply) as [-> _];
      [by exists 200%Z | by vm_compute | by vm_compute].
Defined.

(** C2 as the specification words it does not hold: a message with a
    crisis keyword gets no alert when the server does not flag it, and a
    message without one gets the alert when the server does. *)
Lemma crisis_alert_not_keyword_driven :
  ¬ (crisisShown (sendMessage (answering calmReply sampleStats)
                    (typed (lit "I want to kill myself"))).1 = true
     ↔ detectCrisisIndicators asciiLower
         (formatUserInput (lit "I want to kill myself")) = true)
  ∧ ¬ (crisisShown (sendMessage (answering alarmReply sampleStats)
                      (typed (lit "habari"))).1 = true
       ↔ detectCrisisIndicators asciiLower
           (formatUserInput (lit "habari")) = true).
Proof.
  split.
  - intros [_ H].
    assert (crisisShown (sendMessage (answering calmReply sampleStats)
              (typed (lit "I want to kill myself"))).1 = true) as Hshown.
    { apply H. by vm_compute. }
    vm_compute in Hshown. discriminate.
  - intros [H _].
    assert (detectCrisisIndicators asciiLower
              (formatUserInput (lit "habari")) = true) as Hfound.
    { apply H. by vm_compute. }
    vm_compute in Hfound. discriminate.
Qed.

(** *** updateStats *)



(** * Further properties of the code *)

(** ** truncateText *)

Lemma truncateText_fits text maxLength :
  (Z.of_nat (length text) ≤ maxLength)%Z →
  truncateText text (Some maxLength) = text.
Proof.
  intros H. unfold truncateText. change (param 100%Z (Some maxLength)) with maxLength.
  apply Z.leb_le in H. by rewrite H, orb_true_r.
Qed.

Lemma truncateText_cut text maxLength :
  (maxLength < Z.of_nat (length text))%Z → text ≠ [] →
  truncateText text (Some maxLength)
    = take (Z.to_nat (maxLength - 3)) text ++ lit "...".
Proof.
  intros H Hne. unfold truncateText.
  change (param 100%Z (Some maxLength)) with maxLength.
  apply Z.leb_gt in H. rewrite H. by destruct text.
Qed.

(** X1. [truncateText] leaves a text that fits as it is and otherwise
    keeps the first [maxLength - 3] units and appends three dots. The
    result has at most [maxLength] units when [maxLength] is at least 3;
    below that the three dots alone are returned, which is longer than
    the limit asked for (and, for a text of one or two units, longer than
    the text). *)
Theorem truncateText_length (text : jsstring) (maxLength : Z) :
  let out := truncateText text (Some maxLength) in
  ((Z.of_nat (length text) ≤ maxLength)%Z ∨ text = [] → out = text)
  ∧ ((maxLength < Z.of_nat (length text))%Z → text ≠ [] →
       ∃ kept, out = kept ++ lit "..." ∧ kept `prefix_of` text
               ∧ Z.of_nat (length kept) = Z.max 0 (maxLength - 3))
  ∧ (Z.of_nat (length out) ≤ Z.max maxLength 3)%Z.
Proof.
  intros out. unfold out. split; [|split].
  - intros [H | ->]; [by apply truncateText_fits | done].
  - intros H Hne. rewrite truncateText_cut by done.
    exists (take (Z.to_nat (maxLength - 3)) text).
    split; [done|]. split; [apply prefix_take|].
    rewrite length_take. lia.
  - destruct (decide (Z.of_nat (length text) ≤ maxLength)%Z) as [H|H].
    + rewrite truncateText_fits by done. lia.
    + destruct text as [|c text]; [simpl in *; lia|].
      rewrite truncateText_cut by (done || lia).
      rewrite length_app, length_take.
      change (length (lit "...")) with 3%nat. lia.
Qed.

Lemma truncateText_length_witness :
  truncateText (lit "habari yako rafiki") (Some 10%Z) = lit "habari ..."
  ∧ truncateText (lit "ab") (Some 1%Z) = lit "...".
Proof.
  destruct (truncateText_length (lit "habari yako rafiki") 10) as (_ & H & _).
  destruct H as (kept & Hout & _ & _); [by vm_compute | done |].
  destruct (truncateText_length (lit "ab") 1) as (_ & H' & _).
  destruct H' as (kept' & Hout' & _ & _); [by vm_compute | done |].
  split; [clear Hout' | clear Hout]; by vm_compute.
Defined.

(** X2. Truncating twice with the same limit gives what truncating once
    gives, for every limit: a cut text has exactly [maxLength] units
    when the limit is at least 3, and is the three dots, which are cut
    to themselves, when it is below. *)
Theorem truncateText_idempotent (text : jsstring) (maxLength : Z) :
  truncateText (truncateText text (Some maxLength)) (Some maxLength)
    = truncateText text (Some maxLength).
Proof.
  destruct (decide (Z.of_nat (length text) ≤ maxLength)%Z) as [H|H].
  - rewrite (truncateText_fits text) by done. by apply truncateText_fits.
  - destruct text as [|c text]; [done|].
    rewrite (truncateText_cut (c :: text)) by (done || lia).
    destruct (decide (3 ≤ maxLength)%Z) as [H3|H3].
    + apply truncateText_fits. rewrite length_app, length_take.
      change (length (lit "...")) with 3%nat. lia.
    + replace (Z.to_nat (maxLength - 3)) with 0%nat by lia.
      rewrite take_0. cbn [app]. rewrite truncateText_cut.
      * by replace (Z.to_nat (maxLength - 3)) with 0%nat by lia.
      * change (length (lit "...")) with 3%nat. lia.
      * done.
Qed.

(** ** sanitizeHTML *)

Lemma escapeUnit_cases c :
  (c = 38 ∧ escapeUnit c = [38; 97; 109; 112; 59])
  ∨ (c = 60 ∧ escapeUnit c = [38; 108; 116; 59])
  ∨ (c = 62 ∧ escapeUnit c = [38; 103; 116; 59])
  ∨ (c = 160 ∧ escapeUnit c = [38; 110; 98; 115; 112; 59])
  ∨ (c ≠ 38 ∧ c ≠ 60 ∧ c ≠ 62 ∧ c ≠ 160 ∧ escapeUnit c = [c]).
Proof.
  unfold escapeUnit.
  destruct (N.eqb_spec c 38) as [->|?]; [by left|].
  destruct (N.eqb_spec c 60) as [->|?]; [by right; left|].
  destruct (N.eqb_spec c 62) as [->|?]; [by right; right; left|].
  destruct (N.eqb_spec c 160) as [->|?]; [by right; right; right; left|].
  by repeat right.
Qed.

Lemma escapeUnit_inj c d t1 t2 :
  escapeUnit c ++ t1 = escapeUnit d ++ t2 → c = d ∧ t1 = t2.
Proof.
  destruct (escapeUnit_cases c) as [[-> ->]|[[-> ->]|[[-> ->]|[[-> ->]|(?&?&?&?& ->)]]]];
  destruct (escapeUnit_cases d) as [[-> ->]|[[-> ->]|[[-> ->]|[[-> ->]|(?&?&?&?& ->)]]]];
  simpl; intros Heq; simplify_eq; done.
Qed.

(** X3. What [sanitizeHTML] returns holds no [<], no [>] and no
    no-break space, so a sanitized text brings no tag of its own into the
    page; a text without [&], [<], [>] and no-break space is returned as
    it is. *)
Theorem sanitizeHTML_no_markup (content : jsstring) :
  Forall (λ c, c ≠ 60 ∧ c ≠ 62 ∧ c ≠ 160) (sanitizeHTML content)
  ∧ (Forall (λ c, c ≠ 38 ∧ c ≠ 60 ∧ c ≠ 62 ∧ c ≠ 160) content →
       sanitizeHTML content = content).
Proof.
  unfold sanitizeHTML. split.
  - induction content as [|c content IH]; [constructor|].
    simpl. apply Forall_app. split; [|done].
    destruct (escapeUnit_cases c)
      as [[-> ->]|[[-> ->]|[[-> ->]|[[-> ->]|(?&?&?&?& ->)]]]];
      repeat constructor; done.
  - induction 1 as [|c content (?&?&?&?) _ IH]; [done|].
    simpl. rewrite IH.
    by destruct (escapeUnit_cases c)
      as [[-> ->]|[[-> ->]|[[-> ->]|[[-> ->]|(?&?&?&?& ->)]]]].
Qed.

Lemma sanitizeHTML_no_markup_witness :
  sanitizeHTML (lit "habari yako") = lit "habari yako".
Proof.
  apply (sanitizeHTML_no_markup (lit "habari yako")).
  vm_compute. repeat constructor; done.
Defined.

(** X4. Escaping loses nothing: two different texts never have the same
    sanitized form. *)
Theorem sanitizeHTML_injective (content content' : jsstring) :
  sanitizeHTML content = sanitizeHTML content' → content = content'.
Proof.
  unfold sanitizeHTML. revert content'.
  induction content as [|c content IH]; intros [|d content']; simpl.
  - done.
  - intros Heq. by destruct (escapeUnit_cases d)
      as [[-> E]|[[-> E]|[[-> E]|[[-> E]|(?&?&?&?& E)]]]]; rewrite E in Heq.
  - intros Heq. by destruct (escapeUnit_cases c)
      as [[-> E]|[[-> E]|[[-> E]|[[-> E]|(?&?&?&?& E)]]]]; rewrite E in Heq.
  - intros [-> H]%escapeUnit_inj. f_equal. by apply IH.
Qed.

Lemma sanitizeHTML_injective_witness : lit "a<b" = lit "a<b".
Proof. apply (sanitizeHTML_injective (lit "a<b") (lit "a<b")). reflexivity. Defined.

(** ** formatUserInput, once more *)

Lemma dropWhile_nil p (s : jsstring) :
  dropWhile p s = [] ↔ Forall (λ c, p c = true) s.
Proof.
  induction s as [|c s IH]; simpl.
  - split; [constructor | done].
  - destruct (p c) eqn:E.
    + rewrite IH. split; [by constructor | by inversion 1].
    + split; [done | inversion 1; congruence].
Qed.

Lemma trim_nil s : trim s = [] ↔ Forall (λ c, isSpace c = true) s.
Proof.
  rewrite <- dropWhile_nil. unfold trim, trimStart. split.
  - pose proof (dropWhile_stops isSpace s) as Hstop.
    destruct (dropWhile isSpace s) as [|c t]; [done|].
    simpl in Hstop. by rewrite trimEnd_keeps_head.
  - by intros ->.
Qed.

Lemma collapse_nil s : collapse s = [] ↔ s = [].
Proof.
  pose proof (collapse_Replaced s) as H. split.
  - intros E. rewrite E in H. destruct s as [|c s]; [done|].
    by apply collapsed_nonempty in H.
  - intros ->. by apply collapsed_nil in H.
Qed.

(** X5. [formatUserInput] returns the empty string exactly for the inputs
    that consist of white space only (the empty input among them). *)
Theorem formatUserInput_blank (input : jsstring) :
  formatUserInput input = [] ↔ Forall (λ c, isSpace c = true) input.
Proof.
  rewrite formatUserInput_pipeline, <- trim_nil, <- (collapse_nil (trim input)).
  destruct (collapse (trim input)); by split.
Qed.

(** ** formatCrisisResources *)

Lemma formatMessageHTML_throws v :
  renderable v = false →
  ∃ text, formatMessageHTML v = Throw (TypeError text).
Proof.
  unfold renderable. with_strategy transparent [formatMessageHTML]
    unfold formatMessageHTML.
  destruct (truthy v); [|done]. destruct v; try done; eauto.
Qed.

Lemma forEachResource_throws items html :
  forallb renderable items = false →
  ∃ text, forEachResource items html = Throw (TypeError text).
Proof.
  revert html. induction items as [|v items IH]; intros html; [done|].
  cbn [forallb forEachResource]. destruct (renderable v) eqn:Hv.
  - apply renderable_formats in Hv as [bubble ->]. simpl. apply IH.
  - intros _. destruct (formatMessageHTML_throws v Hv) as [text ->].
    simpl. eauto.
Qed.

Lemma formatCrisisResources_throws resources language :
  resourcesRenderable resources = false →
  ∃ text, formatCrisisResources resources language = Throw (TypeError text).
Proof.
  unfold resourcesRenderable.
  with_strategy transparent [formatCrisisResources]
    unfold formatCrisisResources.
  destruct (negb (truthy resources) || lengthIsZero resources); [done|].
  rewrite translate_run by table_key. cbn [orb mbind result_bind asText].
  destruct resources; try (intros _; eauto; fail).
  intros H.
  match goal with
  | |- context [forEachResource items ?html] =>
      destruct (forEachResource_throws items html H) as [text ->]
  end.
  eauto.
Qed.

(** X6. [formatCrisisResources] returns exactly for the resources that are
    falsy, of length 0, or an array whose items are strings or falsy, and
    throws a [TypeError] for every other value: a truthy value that is
    not an array (an object of hotlines, a string) has no [forEach], and
    an item that is neither a string nor falsy has no [replace]. It
    returns [''] exactly in the first two cases. *)
Theorem formatCrisisResources_accepts (resources : jsval)
    (language : option jsstring) :
  (resourcesRenderable resources = true ↔
     ∃ html, formatCrisisResources resources language = Ok html)
  ∧ (resourcesRenderable resources = false ↔
       ∃ text, formatCrisisResources resources language = Throw (TypeError text))
  ∧ (formatCrisisResources resources language = Ok [] ↔
       truthy resources = false ∨ lengthIsZero resources = true).
Proof.
  pose proof (formatCrisisResources_throws resources language) as Hthrow.
  split; [|split].
  - split; [apply resourcesRenderable_formats|].
    intros [html H]. destruct (resourcesRenderable resources) eqn:E; [done|].
    destruct (Hthrow eq_refl) as [text H']. congruence.
  - split; [done|]. intros [text H].
    destruct (resourcesRenderable resources) eqn:E; [|done].
    destruct (resourcesRenderable_formats _ language E) as [html H']. congruence.
  - with_strategy transparent [formatCrisisResources]
      unfold formatCrisisResources.
    destruct (negb (truthy resources) || lengthIsZero resources) eqn:E.
    + split; [|done]. intros _.
      apply orb_true_iff in E as [E%negb_true_iff|E]; eauto.
    + apply orb_false_iff in E as [E%negb_false_iff E'].
      rewrite translate_run by table_key. cbn [mbind result_bind asText]. split.
      * destruct resources; try done.
        match goal with
        | |- context [forEachResource items ?html] =>
            destruct (forEachResource items html) as [out|e]
        end; [|done]. simpl. intros [= H]. by destruct out.
      * intros [? | ?]; congruence.
Qed.

Lemma formatCrisisResources_accepts_witness :
  (∃ html, formatCrisisResources
             (VArr [VStr (lit "Kenya Red Cross: 1199"); VNull]) None = Ok html)
  ∧ ∃ text, formatCrisisResources
              (obj [(lit "crisis_hotlines", VArr [])]) None
            = Throw (TypeError text).
Proof.
  split.
  - apply (formatCrisisResources_accepts
             (VArr [VStr (lit "Kenya Red Cross: 1199"); VNull]) None).
    reflexivity.
  - apply (formatCrisisResources_accepts
             (obj [(lit "crisis_hotlines", VArr [])]) None).
    by vm_compute.
Defined.

(** ** formatTimestamp *)

(** X7. [formatTimestamp], read on the time elapsed: under a minute, and
    for a time stamp that lies in the future, "Just now"; from one
    minute the whole minutes (1 to 59), from one hour the whole hours
    (1 to 23), from one day the whole days (1 to 6), each rounded down;
    from seven days on the calendar date that the locale formats. The
    Swahili wording is used for the language ['sw'] and the English one
    for every other language. *)
Theorem formatTimestamp_units (toLocaleDateString : jsstring → Z → jsstring)
    (now timestamp : Z) (language : option jsstring) :
  let elapsed := (now - timestamp)%Z in
  let sw := bool_decide (default (lit "en") language = lit "sw") in
  let out := formatTimestamp toLocaleDateString now timestamp language in
  ((elapsed < 60000)%Z →
     out = if sw then lit "Sasa hivi" else lit "Just now")
  ∧ ((60000 ≤ elapsed < 3600000)%Z →
       (1 ≤ elapsed / 60000 ≤ 59)%Z
       ∧ out = ago sw (lit "Dakika") (lit "m") (elapsed / 60000))
  ∧ ((3600000 ≤ elapsed < 86400000)%Z →
       (1 ≤ elapsed / 3600000 ≤ 23)%Z
       ∧ out = ago sw (lit "Saa") (lit "h") (elapsed / 3600000))
  ∧ ((86400000 ≤ elapsed < 604800000)%Z →
       (1 ≤ elapsed / 86400000 ≤ 6)%Z
       ∧ out = ago sw (lit "Siku") (lit "d") (elapsed / 86400000))
  ∧ ((604800000 ≤ elapsed)%Z →
       out = toLocaleDateString (if sw then lit "sw-KE" else lit "en-US")
               timestamp).
Proof.
  intros elapsed sw out. unfold out, formatTimestamp, ago.
  change (param (lit "en") language) with (default (lit "en") language).
  fold elapsed. fold sw. cbv zeta.
  split; [|split; [|split; [|split]]]; intros Hel;
    repeat match goal with
           | |- context [(?a <? ?b)%Z] =>
               destruct (Z.ltb_spec a b);
               try (exfalso; Z.div_mod_to_equations; lia)
           end;
    try (split; [Z.div_mod_to_equations; lia|]); by destruct sw.
Qed.

Lemma formatTimestamp_units_witness :
  formatTimestamp (λ _ _, []) 1700000300000 1700000000000 None
    = lit "5m ago"
  ∧ formatTimestamp (λ _ _, []) 1700000000000 1700000300000
      (Some (lit "sw")) = lit "Sasa hivi".
Proof.
  destruct (formatTimestamp_units (λ _ _, []) 1700000300000 1700000000000 None)
    as (_ & H & _).
  destruct (formatTimestamp_units (λ _ _, []) 1700000000000 1700000300000
              (Some (lit "sw"))) as (H' & _).
  split.
  - destruct H as [_ ->]; [lia|]. by vm_compute.
  - rewrite H' by lia. by vm_compute.
Defined.

(** ** The API service, once more *)

(** X8. Each of [getStats], [getResources], [checkHealth] and
    [sendFeedback] issues exactly one request whatever comes of it, a
    failure is never followed by a second attempt: a GET without headers
    or body to its endpoint, and for [sendFeedback] a JSON POST of
    [{user_id, message_id, feedback}] to the feedback path of the chat
    endpoint. *)
Theorem api_one_request (network : nat → Request → result Response)
    (log : Net) (userId messageId feedback : jsstring) :
  (APIService.getStats network log).1 =
    log ++ [{| url := lit "http://localhost:8000/api/v1/stats";
               method := lit "GET"; headers := []; body := None |}]
  ∧ (APIService.getResources network log).1 =
      log ++ [{| url := lit "http://localhost:8000/api/v1/resources";
                 method := lit "GET"; headers := []; body := None |}]
  ∧ (APIService.checkHealth network log).1 =
      log ++ [{| url := lit "http://localhost:8000/api/v1/health";
                 method := lit "GET"; headers := []; body := None |}]
  ∧ (APIService.sendFeedback network userId messageId feedback log).1 =
      log ++ [{| url := lit "http://localhost:8000/api/v1/chat/feedback";
                 method := lit "POST";
                 headers := [(lit "Content-Type", lit "application/json")];
                 body := Some (obj [(lit "user_id", VStr userId);
                                    (lit "message_id", VStr messageId);
                                    (lit "feedback", VStr feedback)]) |}].
Proof.
  assert (∀ request (handler : exn → M Net jsval),
            (∀ e log', (handler e log').1 = log') →
            (try_catch (APIService.fetchJSON network request) handler log).1
              = log ++ [request]) as Hone.
  { intros request handler Hh. unfold try_catch.
    pose proof (fetchJSON_log network request log) as Hlog.
    destruct (APIService.fetchJSON network request log) as [log' [v|e]];
      simpl in *; [done|]. by rewrite Hh. }
  repeat split; by apply Hone.
Qed.

(** ** sendMessage, whatever the server sends *)

Lemma getProp_nullish v key :
  nullish v = true → ∃ e, getProp v key = Throw e.
Proof. destruct v; try done; eauto. Qed.

(** A reply that cannot be shown makes the reply step throw, at one of
    three places. *)
Lemma showReply_throws env r s :
  wellFormedReply r = false →
  (nullish r = true ∧ ∃ e, showReply env r s = (setTyping false s, Throw e))
  ∨ (nullish r = false ∧ renderable (prop r (lit "response")) = false
     ∧ ∃ e, showReply env r s = (drawTick (setTyping false s), Throw e))
  ∨ (nullish r = false ∧ crisisReply r = true
     ∧ resourcesRenderable (prop r (lit "resources")) = false
     ∧ ∃ bubble e,
         formatMessageHTML (prop r (lit "response")) = Ok bubble
         ∧ showReply env r s
           = (withReply env r bubble (setTyping false s), Throw e)).
Proof.
  unfold wellFormedReply. intros Hwf.
  unfold showReply. unfold_effects. rewrite showTyping_run.
  destruct (nullish r) eqn:Hnull.
  - left. split; [done|].
    destruct (getProp_nullish r (lit "is_crisis") Hnull) as [e ->]. eauto.
  - right. rewrite !getProp_prop by done. rewrite addMessage_run.
    destruct (renderable (prop r (lit "response"))) eqn:Hrender.
    + right. simpl in Hwf.
      apply orb_false_iff in Hwf as [Hcrisis%negb_false_iff Hres].
      split; [done|]. split; [done|]. split; [done|].
      apply renderable_formats in Hrender as [bubble Hb]. rewrite Hb.
      fold (replyClass r). fold (crisisReply r). rewrite Hcrisis.
      rewrite showCrisisAlert_run.
      destruct (formatCrisisResources_throws (prop r (lit "resources"))
                  (Some (currentLanguage s)) Hres) as [text Htext].
      cbn [currentLanguage appendMessage drawTick setTyping].
      rewrite Htext. exists bubble. eauto.
    + left. split; [done|]. split; [done|].
      destruct (formatMessageHTML_throws _ Hrender) as [text ->]. eauto.
Qed.

Lemma outcome_cases (outcome : result Response) :
  apiThrows outcome ∨ ∃ r, answered outcome r.
Proof.
  destruct outcome as [[okay status [r|e]]|e]; [destruct okay| |].
  - right. exists r. by exists status.
  - left. by intros r' [? ?].
  - left. by intros r' [? ?].
  - left. by intros r' [? ?].
Qed.

Lemma try_catch_ok {S} (body : M S unit) handler s :
  (body s).2 = Ok tt → try_catch body handler s = body s.
Proof.
  unfold try_catch. destruct (body s) as [s' [[]|e]]; simpl; [done|].
  discriminate.
Qed.

(** [sendMessage] on a reply that can be shown, up to the statistics. *)
Lemma sendMessage_wellFormed env st r :
  formatUserInput (inputValue st) ≠ [] → isTyping st = false →
  answered (network env (length (requests st)) (chatRequestOf st)) r →
  wellFormedReply r = true →
  ∃ bubble,
    formatMessageHTML (prop r (lit "response")) = Ok bubble
    ∧ if crisisReply r then
        ∃ html,
          formatCrisisResources (prop r (lit "resources"))
            (Some (currentLanguage st)) = Ok html
          ∧ sendMessage env st =
              updateStats env
                (setTimeout 15000 HideCrisisAlert
                   (setCrisisAlert html
                      (withReply env r bubble (settled env st))))
      else
        sendMessage env st =
          updateStats env (withReply env r bubble (settled env st)).
Proof.
  intros Hmsg Htyping [status Hnet] Hwf.
  rewrite sendMessage_unfold, guard_open by done. cbv zeta. rewrite Hnet.
  fold (awaiting env st).
  destruct (showReply_wellFormed env r (awaiting env st) Hwf)
    as (bubble & shown & Hb & -> & Hrun).
  exists bubble. split; [done|].
  destruct (crisisReply r).
  - destruct Hrun as (html & Hhtml & Hrun). exists html. split; [done|].
    rewrite try_catch_ok; rewrite Hrun; [done|].
    by destruct (updateStats_frame env
      (setTimeout 15000 HideCrisisAlert (setCrisisAlert html
        (withReply env r bubble (settled env st))))) as [? _].
  - rewrite try_catch_ok; rewrite Hrun; [done|].
    by destruct (updateStats_frame env
      (withReply env r bubble (settled env st))) as [? _].
Qed.

Lemma setTyping_quiet s :
  isTyping s = false → typingShown s = false → sendDisabled s = false →
  setTyping false s = s.
Proof. destruct s. simpl. by intros -> -> ->. Qed.

(** The [catch] block in a state where the typing indicator is off
    already. *)
Lemma showError_quiet env s :
  isTyping s = false → typingShown s = false → sendDisabled s = false →
  ∃ text bubble,
    translate (lit "errorMessage") (Some (currentLanguage s)) = Ok (Text text)
    ∧ showError env s = (withError env text bubble s, Ok tt).
Proof.
  intros H1 H2 H3. destruct (showError_run env s) as (text & bubble & Htext & Hrun).
  rewrite (setTyping_quiet s H1 H2 H3) in Hrun. by exists text, bubble.
Qed.

(** [sendMessage] on a reply that cannot be shown: the [catch] block
    takes over from where the reply step stopped. *)
Lemma sendMessage_illFormed env st r :
  formatUserInput (inputValue st) ≠ [] → isTyping st = false →
  answered (network env (length (requests st)) (chatRequestOf st)) r →
  wellFormedReply r = false →
  ∃ text bubble stopped,
    translate (lit "errorMessage") (Some (currentLanguage st)) = Ok (Text text)
    ∧ sendMessage env st = (withError env text bubble stopped, Ok tt)
    ∧ ((nullish r = true ∧ stopped = settled env st)
       ∨ (nullish r = false
          ∧ renderable (prop r (lit "response")) = false
          ∧ stopped = drawTick (settled env st))
       ∨ (nullish r = false ∧ crisisReply r = true
          ∧ resourcesRenderable (prop r (lit "resources")) = false
          ∧ ∃ shown,
              formatMessageHTML (prop r (lit "response")) = Ok shown
              ∧ stopped = withReply env r shown (settled env st))).
Proof.
  intros Hmsg Htyping [status Hnet] Hwf.
  rewrite sendMessage_unfold, guard_open by done. cbv zeta. rewrite Hnet.
  fold (awaiting env st). unfold try_catch.
  destruct (showReply_throws env r (awaiting env st) Hwf)
    as [(Hnull & e & ->)
       |[(Hnull & Hrender & e & ->)
        |(Hnull & Hcrisis & Hres & shown & e & Hshown & ->)]];
    fold (settled env st).
  - destruct (showError_quiet env (settled env st))
      as (text & bubble & Htext & ->); [reflexivity..|].
    exists text, bubble, (settled env st).
    split; [exact Htext|]. split; [reflexivity|]. by left.
  - destruct (showError_quiet env (drawTick (settled env st)))
      as (text & bubble & Htext & ->); [reflexivity..|].
    exists text, bubble, (drawTick (settled env st)).
    split; [exact Htext|]. split; [reflexivity|]. right. by left.
  - destruct (showError_quiet env (withReply env r shown (settled env st)))
      as (text & bubble & Htext & ->); [reflexivity..|].
    exists text, bubble, (withReply env r shown (settled env st)).
    split; [exact Htext|]. split; [reflexivity|]. right. right.
    split; [done|]. split; [done|]. split; [done|]. by exists shown.
Qed.

Ltac chat_fields :=
  cbn [inputValue isTyping typingShown sendDisabled currentLanguage userId
       messageHistory messages requests crisisShown crisisResources timers
       ticks activeUsers totalConversations resourcesAvailable
       withError withReply appendMessage drawTick settled awaiting sent
       setTyping setRequests setTimeout setInputValue setCrisisAlert
       element historyEntry className content type].

Lemma Delivered_same st final st' :
  Delivered st final → sameChat final st' → Delivered st st'.
Proof.
  intros (H1 & H2 & H3 & H4 & H5 & H6 & H7)
    (S1 & S2 & S3 & S4 & S5 & S6 & S7 & S8 & _).
  unfold Delivered. by rewrite S1, S2, S3, S4, S5, S6, S7, S8.
Qed.

Lemma sendMessage_delivers env st :
  formatUserInput (inputValue st) ≠ [] → isTyping st = false →
  (sendMessage env st).2 = Ok tt ∧ Delivered st (sendMessage env st).1.
Proof.
  intros Hmsg Htyping.
  assert (∀ text bubble,
            Delivered st (withError env text bubble (settled env st))) as Herr.
  { intros text bubble. unfold Delivered. chat_fields.
    split_and!; try done. eexists _, [_], _, [_].
    rewrite <- !app_assoc. split_and!; try done. by left. }
  assert (∀ text bubble,
            Delivered st (withError env text bubble (drawTick (settled env st))))
    as Herr'.
  { intros text bubble. unfold Delivered. chat_fields.
    split_and!; try done. eexists _, [_], _, [_].
    rewrite <- !app_assoc. split_and!; try done. by left. }
  assert (∀ r shown, Delivered st (withReply env r shown (settled env st)))
    as Hreply.
  { intros r shown. unfold Delivered. chat_fields.
    split_and!; try done. eexists _, [_], _, [_].
    rewrite <- !app_assoc. split_and!; try done. by left. }
  assert (∀ r shown html,
            Delivered st
              (setTimeout 15000 HideCrisisAlert
                 (setCrisisAlert html (withReply env r shown (settled env st)))))
    as Halert.
  { intros r shown html. unfold Delivered. chat_fields.
    split_and!; try done. eexists _, [_], _, [_].
    rewrite <- !app_assoc. split_and!; try done. by left. }
  assert (∀ r shown text bubble,
            Delivered st
              (withError env text bubble
                 (withReply env r shown (settled env st)))) as Hboth.
  { intros r shown text bubble. unfold Delivered. chat_fields.
    split_and!; try done. eexists _, [_; _], _, [_; _].
    rewrite <- !app_assoc. split_and!; try done. by right. }
  destruct (outcome_cases (network env (length (requests st)) (chatRequestOf st)))
    as [Hthrows | [r Hr]].
  - destruct (sendMessage_thrown env st Hmsg Htyping Hthrows)
      as (text & bubble & _ & ->).
    split; [done|]. apply Herr.
  - destruct (wellFormedReply r) eqn:Hwf.
    + destruct (sendMessage_wellFormed env st r Hmsg Htyping Hr Hwf)
        as (bubble & _ & Hrun).
      assert (∀ final, Delivered st final →
                (updateStats env final).2 = Ok tt
                ∧ Delivered st (updateStats env final).1) as Hstats.
      { intros final Hfinal.
        destruct (updateStats_frame env final) as (Hok & Hsame & _).
        split; [done|]. by eapply Delivered_same. }
      destruct (crisisReply r).
      * destruct Hrun as (html & _ & ->). apply Hstats, Halert.
      * rewrite Hrun. apply Hstats, Hreply.
    + destruct (sendMessage_illFormed env st r Hmsg Htyping Hr Hwf)
        as (text & bubble & stopped & _ & -> & Hstopped).
      split; [done|].
      destruct Hstopped as [[_ ->]|[(_ & _ & ->)|(_ & _ & _ & shown & _ & ->)]].
      * apply Herr.
      * apply Herr'.
      * apply Hboth.
Qed.

(** X9. The promise of [sendMessage] never rejects: whatever the
    network does and whatever the server sends (a rejection, an error
    status, a body that is not JSON, [null], fields of any type), every
    exception is caught and the method returns. *)
Theorem sendMessage_never_throws (env : Env) (st : Chat) :
  (sendMessage env st).2 = Ok tt.
Proof.
  destruct (decide (formatUserInput (inputValue st) = [])) as [Hmsg|Hmsg].
  - rewrite sendMessage_unfold. by rewrite Hmsg.
  - destruct (isTyping st) eqn:Htyping.
    + rewrite sendMessage_unfold, Htyping. by rewrite orb_true_r.
    + by apply sendMessage_delivers.
Qed.

(** X10. [sendMessage] leaves the state as it is in exactly two cases:
    the formatted input is empty, or a reply is pending. In every other
    case the user's message is in the history afterwards. *)
Theorem sendMessage_noop_iff (env : Env) (st : Chat) :
  (sendMessage env st).1 = st ↔
  formatUserInput (inputValue st) = [] ∨ isTyping st = true.
Proof.
  split.
  - intros Hsame.
    destruct (decide (formatUserInput (inputValue st) = [])) as [?|Hmsg];
      [by left|].
    destruct (isTyping st) eqn:Htyping; [by right|]. exfalso.
    destruct (sendMessage_delivers env st Hmsg Htyping)
      as (_ & _ & _ & _ & _ & _ & _ & userEntry & more & _ & _ & Hhist & _).
    rewrite Hsame in Hhist. apply (f_equal length) in Hhist.
    rewrite length_app in Hhist. simpl in Hhist. lia.
  - intros Hguard. rewrite sendMessage_unfold.
    destruct Hguard as [-> | ->]; [done|]. by rewrite orb_true_r.
Qed.

Lemma sendMessage_noop_iff_witness :
  (sendMessage offline (typed (lit "  " ++ [9; 10]))).1
    = typed (lit "  " ++ [9; 10]).
Proof.
  apply (sendMessage_noop_iff offline (typed (lit "  " ++ [9; 10]))).
  left. reflexivity.
Defined.

Lemma Resumed_same arrival final st' :
  Resumed arrival final → sameChat final st' → Resumed arrival st'.
Proof.
  intros (H1 & H2 & H3 & H4 & H5 & H6 & H7)
    (S1 & S2 & S3 & S4 & S5 & S6 & S7 & S8 & _).
  unfold Resumed. by rewrite S1, S2, S3, S4, S5, S6, S7, S8.
Qed.

(** The [catch] block, from any state. *)
Lemma showError_resumes env s :
  (showError env s).2 = Ok tt
  ∧ ∃ text bubble,
      showError env s = (withError env text bubble (setTyping false s), Ok tt).
Proof.
  destruct (showError_run env s) as (text & bubble & _ & ->).
  split; [done|]. by exists text, bubble.
Qed.

(** What follows the arrival of the answer, from any state. *)
Lemma answer_resumes env (outcome : result Response) s :
  let run :=
    match outcome with
    | Ok {| ok := true; json := Ok r |} =>
        try_catch (showReply env r) (λ _, showError env) s
    | _ => showError env s
    end in
  run.2 = Ok tt ∧ Resumed s run.1.
Proof.
  assert (∀ text bubble,
            Resumed s (withError env text bubble (setTyping false s)))
    as Herr.
  { intros text bubble. unfold Resumed. chat_fields.
    split_and!; try done. by eexists [_], [_]; split_and!; try left. }
  assert (∀ text bubble,
            Resumed s
              (withError env text bubble
                 (setTyping false (drawTick (setTyping false s))))) as Herr'.
  { intros text bubble. unfold Resumed. chat_fields.
    split_and!; try done. by eexists [_], [_]; split_and!; try left. }
  assert (∀ r shown, Resumed s (withReply env r shown (setTyping false s)))
    as Hreply.
  { intros r shown. unfold Resumed. chat_fields.
    split_and!; try done. by eexists [_], [_]; split_and!; try left. }
  assert (∀ r shown html,
            Resumed s
              (setTimeout 15000 HideCrisisAlert
                 (setCrisisAlert html
                    (withReply env r shown (setTyping false s))))) as Halert.
  { intros r shown html. unfold Resumed. chat_fields.
    split_and!; try done. by eexists [_], [_]; split_and!; try left. }
  assert (∀ r shown text bubble,
            Resumed s
              (withError env text bubble
                 (setTyping false
                    (withReply env r shown (setTyping false s))))) as Hboth.
  { intros r shown text bubble. unfold Resumed. chat_fields.
    split_and!; try done. eexists [_; _], [_; _].
    rewrite <- !app_assoc. split_and!; try done. by right. }
  assert ((showError env s).2 = Ok tt ∧ Resumed s (showError env s).1)
    as Herror.
  { destruct (showError_resumes env s) as (_ & text & bubble & ->).
    split; [done|]. apply Herr. }
  intros run. unfold run.
  destruct outcome as [[[] status [r|]]|]; try done.
  unfold try_catch. destruct (wellFormedReply r) eqn:Hwf.
  - destruct (showReply_wellFormed env r s Hwf)
      as (bubble & shown & _ & -> & Hrun).
    assert (∀ final, Resumed s final →
              (updateStats env final).2 = Ok tt
              ∧ Resumed s (updateStats env final).1) as Hstats.
    { intros final Hfinal.
      destruct (updateStats_frame env final) as (Hok & Hsame & _).
      split; [done|]. by eapply Resumed_same. }
    destruct (crisisReply r).
    + destruct Hrun as (html & _ & ->).
      match goal with
      | |- context [updateStats env ?x] =>
          destruct (Hstats x) as [Hok Hres]; [apply Halert|];
          destruct (updateStats env x) as [final out]
      end.
      simpl in Hok. by subst out.
    + rewrite Hrun.
      match goal with
      | |- context [updateStats env ?x] =>
          destruct (Hstats x) as [Hok Hres]; [apply Hreply|];
          destruct (updateStats env x) as [final out]
      end.
      simpl in Hok. by subst out.
  - destruct (showReply_throws env r s Hwf)
      as [[_ [e ->]]|[(_ & _ & e & ->)|(_ & _ & _ & shown & e & _ & ->)]].
    + destruct (showError_resumes env (setTyping false s))
        as (_ & text & bubble & ->).
      split; [done|]. unfold Resumed. chat_fields.
      split_and!; try done. by eexists [_], [_]; split_and!; try left.
    + destruct (showError_resumes env (drawTick (setTyping false s)))
        as (_ & text & bubble & ->).
      split; [done|]. apply Herr'.
    + destruct (showError_resumes env
                  (withReply env r shown (setTyping false s)))
        as (_ & text & bubble & ->).
      split; [done|]. apply Hboth.
Qed.

(** X11. [sendMessage] and what happens while it waits for the answer.
    When it starts to wait, the user's message (its content the
    formatted input, its class [user]) is on the page and in the
    history, the input is empty, the typing indicator is on and the send
    button disabled. Whatever the page goes through until the answer is
    there, and whatever the answer is, the method then leaves the widget
    ready for the next message: the typing indicator is off and the send
    button enabled; to the page and the history as the answer finds them
    it adds the same one or two messages, and it leaves the input, the
    language and the user id as it finds them. *)
Theorem sendMessage_ready_again (env : Env) (meanwhile : Chat → Chat)
    (st : Chat) :
  let waiting := awaiting env st in
  let arrival := meanwhile waiting in
  let st' := (sendMessageMeanwhile env meanwhile st).1 in
  formatUserInput (inputValue st) ≠ [] → isTyping st = false →
  (sendMessageMeanwhile env meanwhile st).2 = Ok tt
  ∧ Posted st waiting
  ∧ Resumed arrival st'
  ∧ sendMessageMeanwhile env (λ s, s) st = sendMessage env st.
Proof.
  intros waiting arrival st' Hmsg Htyping.
  assert (Posted st waiting) as Hposted.
  { unfold Posted, waiting. chat_fields. split_and!; try done.
    by eexists _, _. }
  pose proof (answer_resumes env
                (network env (length (requests st)) (chatRequestOf st))
                arrival) as Hresumed.
  cbv zeta in Hresumed. unfold st'.
  rewrite sendMessageMeanwhile_unfold, guard_open by done. cbv zeta.
  fold waiting arrival.
  destruct Hresumed as [Hok Hresumed].
  split; [exact Hok|]. split; [exact Hposted|]. split; [exact Hresumed|].
  apply sendMessage_uninterrupted.
Qed.

Lemma sendMessage_ready_again_witness :
  let st := typed (lit "habari") in
  let editing s := setInputValue (lit "na") (runTimer HideCrisisAlert s) in
  inputValue
    (sendMessageMeanwhile (answering numericReply sampleStats) editing st).1
    = lit "na"
  ∧ sendDisabled
      (sendMessageMeanwhile (answering numericReply sampleStats) editing st).1
    = false.
Proof.
  intros st editing.
  destruct (sendMessage_ready_again (answering numericReply sampleStats)
              editing st)
    as (_ & _ & (_ & _ & Hbutton & Hinput & _) & _);
    [by vm_compute | reflexivity |].
  split; [by rewrite Hinput | exact Hbutton].
Defined.

(** X12. The statistics are refreshed exactly after a reply that was shown
    in full: when the chat API answers, the requests of [sendMessage] are
    the chat request followed by the statistics request if the reply can
    be shown, and the chat request alone if showing it throws; when the
    call to the API throws, the chat request alone. *)
Theorem sendMessage_refreshes_stats (env : Env) (st : Chat) :
  let outcome := network env (length (requests st)) (chatRequestOf st) in
  let log := requests (sendMessage env st).1 in
  formatUserInput (inputValue st) ≠ [] → isTyping st = false →
  (∀ r, answered outcome r →
     log = requests st
           ++ chatRequestOf st :: (if wellFormedReply r then [statsRequest] else []))
  ∧ (apiThrows outcome → log = requests st ++ [chatRequestOf st]).
Proof.
  intros outcome log Hmsg Htyping. unfold log. split.
  - intros r Hr. destruct (wellFormedReply r) eqn:Hwf.
    + destruct (sendMessage_wellFormed env st r Hmsg Htyping Hr Hwf)
        as (bubble & _ & Hrun).
      destruct (crisisReply r).
      * destruct Hrun as (html & _ & ->).
        match goal with
        | |- context [updateStats env ?s] =>
            destruct (updateStats_frame env s) as (_ & _ & ->)
        end.
        chat_fields. by rewrite <- app_assoc.
      * rewrite Hrun.
        match goal with
        | |- context [updateStats env ?s] =>
            destruct (updateStats_frame env s) as (_ & _ & ->)
        end.
        chat_fields. by rewrite <- app_assoc.
    + destruct (sendMessage_illFormed env st r Hmsg Htyping Hr Hwf)
        as (text & bubble & stopped & _ & -> & Hstopped).
      by destruct Hstopped
        as [[_ ->]|[(_ & _ & ->)|(_ & _ & _ & shown & _ & ->)]].
  - intros Hthrows.
    by destruct (sendMessage_thrown env st Hmsg Htyping Hthrows)
      as (text & bubble & _ & ->).
Qed.

Lemma sendMessage_refreshes_stats_witness :
  requests (sendMessage (answering calmReply sampleStats)
              (typed (lit "habari"))).1
    = [chatRequestOf (typed (lit "habari")); statsRequest]
  ∧ requests (sendMessage (answering numericReply sampleStats)
                (typed (lit "habari"))).1
    = [chatRequestOf (typed (lit "habari"))].
Proof.
  destruct (sendMessage_refreshes_stats (answering calmReply sampleStats)
              (typed (lit "habari"))) as [H _]; [by vm_compute | reflexivity |].
  destruct (sendMessage_refreshes_stats (answering numericReply sampleStats)
              (typed (lit "habari"))) as [H' _]; [by vm_compute | reflexivity |].
  split.
  - rewrite (H calmReply) by (by exists 200%Z). reflexivity.
  - rewrite (H' numericReply) by (by exists 200%Z). reflexivity.
Defined.



(** ** updateStats, whatever the server sends *)

(** X14. [updateStats] never throws. When the statistics request fails
    (rejected, error status, body that is not JSON) the three nodes show
    0; when the body is [null], reading the first field throws inside the
    [try] block and the nodes keep what they showed. *)
Theorem updateStats_on_failure (env : Env) (st : Chat) :
  let outcome := network env (length (requests st)) statsRequest in
  let st' := (updateStats env st).1 in
  (updateStats env st).2 = Ok tt
  ∧ ((∀ parsed, ¬ answered outcome parsed) →
       activeUsers st' = VNum 0 ∧ totalConversations st' = VNum 0
       ∧ resourcesAvailable st' = VNum 0)
  ∧ (answered outcome VNull →
       activeUsers st' = activeUsers st
       ∧ totalConversations st' = totalConversations st
       ∧ resourcesAvailable st' = resourcesAvailable st).
Proof.
  intros outcome st'. split; [by destruct (updateStats_frame env st)|].
  unfold st'. rewrite updateStats_run, api_getStats_run. cbv zeta.
  fold statsRequest. fold outcome. split.
  - intros Hfail. destruct outcome as [[okay status [parsed|e]]|e].
    + destruct okay; [|by vm_compute].
      by destruct (Hfail parsed); exists status.
    + destruct okay; by vm_compute.
    + by vm_compute.
  - intros [status ->]. done.
Qed.

Lemma updateStats_on_failure_witness :
  activeUsers (updateStats offline fresh).1 = VNum 0
  ∧ activeUsers (updateStats (answering calmReply VNull) fresh).1
    = VStr (lit "0").
Proof.
  destruct (updateStats_on_failure offline fresh) as (_ & H & _).
  destruct (updateStats_on_failure (answering calmReply VNull) fresh)
    as (_ & _ & H').
  split.
  - apply H. intros parsed [status Hs]. discriminate Hs.
  - apply H'. by exists 200%Z.
Defined.

(** ** The language buttons and the first message *)

Lemma welcome_translated lang :
  ∃ welcome, translate (lit "welcomeMessage") (Some lang) = Ok (Text welcome).
Proof. rewrite translate_run by table_key. eauto. Qed.

Lemma assistant_bubble :
  formatMessageHTML (VStr (lit "assistant")) = Ok (lit "assistant").
Proof. by vm_compute. Qed.

Ltac page_fields :=
  cbn [ChatPage.chat ChatPage.enActive ChatPage.swActive
       ChatPage.inputPlaceholder ChatPage.sendText ChatPage.typingText
       ChatPage.setChat ChatPage.setActive ChatPage.setTexts
       ChatPage.setCurrentLanguage ChatPage.setMessageHistory
       ChatPage.setMessages relabelled restarted fst snd
       inputValue isTyping typingShown sendDisabled currentLanguage userId
       messageHistory messages requests crisisShown crisisResources timers
       ticks activeUsers totalConversations resourcesAvailable
       appendMessage drawTick element historyEntry className content type].

Lemma switchLanguage_run env lang p :
  ∃ welcome,
    translate (lit "welcomeMessage") (Some lang) = Ok (Text welcome)
    ∧ ChatPage.switchLanguage env lang p =
        if (length (messageHistory (ChatPage.chat p)) <=? 1)%nat then
          (ChatPage.setChat (restarted env lang welcome (ChatPage.chat p))
             (relabelled lang p), Ok tt)
        else (relabelled lang p, Ok tt).
Proof.
  destruct (welcome_translated lang) as [welcome Hwelcome].
  exists welcome. split; [done|].
  unfold ChatPage.switchLanguage, ChatPage.updateUILanguage, ChatPage.onChat,
    ChatPage.clearChat.
  unfold_effects. page_fields.
  destruct (length (messageHistory (ChatPage.chat p)) <=? 1)%nat;
    page_fields; [|done].
  rewrite Hwelcome. cbn [result_bind asText]. page_fields.
  rewrite Hwelcome. cbn [result_bind asText].
  rewrite addMessage_run, assistant_bubble. by page_fields.
Qed.

Lemma switchLanguage_restarted env lang p :
  (length (messageHistory (ChatPage.chat p)) ≤ 1)%nat →
  ∃ welcome,
    translate (lit "welcomeMessage") (Some lang) = Ok (Text welcome)
    ∧ ChatPage.switchLanguage env lang p =
        (ChatPage.setChat (restarted env lang welcome (ChatPage.chat p))
           (relabelled lang p), Ok tt).
Proof.
  intros Hfirst.
  destruct (switchLanguage_run env lang p) as (welcome & Hwelcome & ->).
  exists welcome. split; [done|].
  by apply Nat.leb_le in Hfirst as ->.
Qed.

(** X15. While the history holds at most one entry, [switchLanguage]
    starts the chat afresh, and passes the arguments of [addMessage] in
    the wrong order: the page shows the welcome message of the new
    language followed by a message whose text is the word [assistant];
    the class of that message on the page is made of [message], the
    words of the welcome message, each once, and [fade-in]. The history
    holds one entry, with content [assistant] and the welcome message as
    its type. *)
Theorem switchLanguage_restarts (env : Env) (lang : jsstring)
    (p : ChatPage.Page) :
  let p' := (ChatPage.switchLanguage env lang p).1 in
  (length (messageHistory (ChatPage.chat p)) ≤ 1)%nat →
  (ChatPage.switchLanguage env lang p).2 = Ok tt
  ∧ currentLanguage (ChatPage.chat p') = lang
  ∧ ∃ welcome shown stored,
      translate (lit "welcomeMessage") (Some lang) = Ok (Text welcome)
      ∧ messages (ChatPage.chat p') = [ChatPage.welcomeElement welcome; shown]
      ∧ innerHTML shown = bubbleOf (lit "assistant")
      ∧ classAttribute shown =
          serialize
            (orderedSet []
               (lit "message" :: splitOnWhitespace [] welcome
                  ++ [lit "fade-in"]))
      ∧ messageHistory (ChatPage.chat p') = [stored]
      ∧ content stored = VStr (lit "assistant")
      ∧ type stored = welcome.
Proof.
  intros p' Hfirst. unfold p'.
  destruct (switchLanguage_restarted env lang p Hfirst)
    as (welcome & Hwelcome & ->).
  page_fields. split; [done|]. split; [done|].
  eexists welcome, _, _. split_and!; try done.
Qed.

Lemma switchLanguage_restarts_witness :
  ∃ shown,
    messages (ChatPage.chat (ChatPage.switchLanguage offline (lit "en")
                               (rendered fresh)).1) !! 1%nat = Some shown
    ∧ classAttribute shown =
        lit "message Hello! I'm Mazungumzo, your mental health companion. I can help you in English or Swahili. How are feeling today? fade-in".
Proof.
  destruct (switchLanguage_restarts offline (lit "en") (rendered fresh))
    as (_ & _ & welcome & shown & stored & Hwelcome & Hmessages & _
        & Hclass & _); [simpl; lia|].
  exists shown. rewrite Hmessages. split; [reflexivity|].
  rewrite Hclass. vm_compute in Hwelcome. injection Hwelcome as <-.
  by vm_compute.
Defined.

(** X16. Once the history holds two entries or more, [switchLanguage]
    leaves the conversation alone: of the chat only the current language
    changes, the messages on the page and the history stay. *)
Theorem switchLanguage_keeps_conversation (env : Env) (lang : jsstring)
    (p : ChatPage.Page) :
  let p' := (ChatPage.switchLanguage env lang p).1 in
  (2 ≤ length (messageHistory (ChatPage.chat p)))%nat →
  (ChatPage.switchLanguage env lang p).2 = Ok tt
  ∧ ChatPage.chat p' = ChatPage.setCurrentLanguage lang (ChatPage.chat p)
  ∧ messages (ChatPage.chat p') = messages (ChatPage.chat p)
  ∧ messageHistory (ChatPage.chat p') = messageHistory (ChatPage.chat p).
Proof.
  intros p' Hlater. unfold p'.
  destruct (switchLanguage_run env lang p) as (welcome & _ & ->).
  destruct (Nat.leb_spec (length (messageHistory (ChatPage.chat p))) 1);
    [lia|done].
Qed.

Lemma switchLanguage_keeps_conversation_witness :
  messages
    (ChatPage.chat
       (ChatPage.switchLanguage offline (lit "sw")
          (rendered (sendMessage offline (typed (lit "habari"))).1)).1)
  = messages (sendMessage offline (typed (lit "habari"))).1.
Proof.
  apply (switchLanguage_keeps_conversation offline (lit "sw")
           (rendered (sendMessage offline (typed (lit "habari"))).1)).
  vm_compute. lia.
Defined.

Lemma currentTexts_known lang :
  lang ∉ ChatPage.objectPrototype →
  ChatPage.currentTexts lang =
    Some (if bool_decide (lang = lit "sw") then ChatPage.sw else ChatPage.en).
Proof.
  intros Hown. unfold ChatPage.currentTexts, ChatPage.texts. simpl.
  rewrite (bool_decide_eq_false_2 _ Hown).
  destruct (decide (lang = lit "en")) as [->|Hen]; [by vm_compute|].
  rewrite lookup_insert_ne by done.
  destruct (decide (lang = lit "sw")) as [->|Hsw]; [by vm_compute|].
  rewrite lookup_insert_ne by done. rewrite lookup_empty.
  by rewrite (bool_decide_eq_false_2 _ Hsw).
Qed.

(** X17. After [switchLanguage] exactly the button of the language chosen
    is active, and the placeholder, the send button and the typing
    indicator carry the Swahili texts for [sw] and the English ones for
    every other language, [Object.prototype]'s property names apart. *)
Theorem switchLanguage_texts (env : Env) (lang : jsstring)
    (p : ChatPage.Page) :
  let p' := (ChatPage.switchLanguage env lang p).1 in
  let shown :=
    if bool_decide (lang = lit "sw") then ChatPage.sw else ChatPage.en in
  lang ∉ ChatPage.objectPrototype →
  ChatPage.enActive p' = bool_decide (lang = lit "en")
  ∧ ChatPage.swActive p' = bool_decide (lang = lit "sw")
  ∧ ChatPage.inputPlaceholder p' = VStr (ChatPage.placeholder shown)
  ∧ ChatPage.sendText p' = VStr (ChatPage.send shown)
  ∧ ChatPage.typingText p' = VStr (ChatPage.typing shown).
Proof.
  intros p' shown Hown. unfold p'.
  destruct (switchLanguage_run env lang p) as (welcome & _ & ->).
  assert (bool_decide (lit "en" = lang) = bool_decide (lang = lit "en")
          ∧ bool_decide (lit "sw" = lang) = bool_decide (lang = lit "sw"))
    as [Hen Hsw].
  { split; apply bool_decide_ext; split; congruence. }
  destruct (_ <=? _)%nat; page_fields;
    rewrite Hen, Hsw, (currentTexts_known lang Hown); done.
Qed.

Lemma switchLanguage_texts_witness :
  ChatPage.sendText
    (ChatPage.switchLanguage offline (lit "fr") (rendered fresh)).1
  = VStr (lit "Send").
Proof.
  apply (switchLanguage_texts offline (lit "fr") (rendered fresh)).
  apply (bool_decide_unpack _). by vm_compute.
Defined.






(** ** The statistics bar *)

Lemma api_checkHealth_run network log :
  APIService.checkHealth network log =
    (log ++ [healthRequest], Ok (healthOf (network (length log) healthRequest))).
Proof.
  run_api. change (APIService.GET _) with healthRequest.
  destruct (network (length log) healthRequest) as [[[] ? [|]]|]; done.
Qed.

Lemma api_getStats_of network log :
  APIService.getStats network log =
    (log ++ [statsRequest], Ok (statsOf (network (length log) statsRequest))).
Proof.
  rewrite api_getStats_run. cbv zeta. fold statsRequest.
  by destruct (network (length log) statsRequest) as [[[] ? [|]]|].
Qed.

Ltac bar_fields :=
  cbn [StatsBar.hasApi StatsBar.stats StatsBar.loading
       StatsBar.refreshAnimation StatsBar.statusDot StatsBar.statusText
       StatsBar.requests StatsBar.setStats StatsBar.setLoading
       StatsBar.setStatus StatsBar.setRequests StatsBar.setSystemStatus
       StatsBar.setUptime StatsBar.setTotalMessages
       StatsBar.setActiveSessions StatsBar.setAverageResponseTime
       StatsBar.setLastUpdated StatsBar.totalMessages
       StatsBar.activeSessions StatsBar.averageResponseTime
       StatsBar.systemStatus StatsBar.uptime StatsBar.lastUpdated fst snd].

Lemma fetchStats_run network now b :
  StatsBar.hasApi b = true →
  StatsBar.fetchStats network now b =
    (refreshed now
       (healthOf (network (length (StatsBar.requests b)) healthRequest))
       (statsOf (network (S (length (StatsBar.requests b))) statsRequest))
       b, Ok tt).
Proof.
  intros Hapi. unfold StatsBar.fetchStats, StatsBar.try_finally,
    StatsBar.settle, StatsBar.api, StatsBar.setLoadingState.
  unfold_effects. rewrite Hapi. cbn [negb]. bar_fields.
  rewrite api_checkHealth_run. bar_fields.
  rewrite api_getStats_of. bar_fields.
  rewrite length_app, Nat.add_1_r. cbn [length].
  set (health := healthOf _). set (statistics := statsOf _).
  unfold refreshed. rewrite <- app_assoc. cbn [app].
  destruct (nullish health) eqn:Hhealth.
  - destruct (getProp_nullish health (lit "status") Hhealth) as [e ->].
    done.
  - rewrite !(getProp_prop health) by done.
    destruct (nullish statistics) eqn:Hstatistics.
    + destruct (getProp_nullish statistics (lit "total_messages") Hstatistics)
        as [e ->].
      done.
    + rewrite !(getProp_prop statistics) by done. done.
Qed.

(** X20. [fetchStats] never throws. Without an API service it does
    nothing; with one it issues the health request and then the
    statistics request, whatever each of them meets, and always takes
    down the loading state it has put up. *)
Theorem fetchStats_settles (network : nat → Request → result Response)
    (now : Z) (b : StatsBar.Bar) :
  let b' := (StatsBar.fetchStats network now b).1 in
  (StatsBar.fetchStats network now b).2 = Ok tt
  ∧ (StatsBar.hasApi b = false → b' = b)
  ∧ (StatsBar.hasApi b = true →
       StatsBar.loading b' = false
       ∧ StatsBar.refreshAnimation b' = []
       ∧ StatsBar.requests b' =
           StatsBar.requests b ++ [healthRequest; statsRequest]).
Proof.
  intros b'. unfold b'. destruct (StatsBar.hasApi b) eqn:Hapi.
  - rewrite (fetchStats_run network now b Hapi). by split_and!.
  - unfold StatsBar.fetchStats. unfold_effects. rewrite Hapi.
    by split_and!.
Qed.

Lemma unhealthy_status text :
  prop (obj [(lit "status", VStr (lit "unhealthy"));
             (lit "error", VStr text)]) (lit "status")
    = VStr (lit "unhealthy")
  ∧ prop (obj [(lit "status", VStr (lit "unhealthy"));
               (lit "error", VStr text)]) (lit "uptime") = VUndefined.
Proof. by vm_compute. Qed.

Lemma healthOf_failed outcome :
  apiThrows outcome →
  nullish (healthOf outcome) = false
  ∧ prop (healthOf outcome) (lit "status") = VStr (lit "unhealthy")
  ∧ prop (healthOf outcome) (lit "uptime") = VUndefined.
Proof.
  intros Hthrows.
  destruct outcome as [[okay status [parsed|e]]|e]; [destruct okay| |];
    try destruct okay;
    cbn [healthOf]; try (split; [done|apply unhealthy_status]).
  by destruct (Hthrows parsed); exists status.
Qed.

Lemma statsOf_failed outcome :
  apiThrows outcome → statsOf outcome = APIService.defaultStats.
Proof.
  intros Hthrows.
  destruct outcome as [[okay status [parsed|e]]|e]; [destruct okay| |];
    try destruct okay; try done.
  by destruct (Hthrows parsed); exists status.
Qed.

Lemma status_label b :
  StatsBar.statusText (StatsBar.updateSystemStatus b) =
    match StatsBar.systemStatus (StatsBar.stats b) with
    | VStr status =>
        if bool_decide (status = lit "healthy") then lit "Online"
        else if bool_decide (status = lit "degraded") then lit "Degraded"
        else if bool_decide (status = lit "error") then lit "Error"
        else lit "Unknown"
    | _ => lit "Unknown"
    end.
Proof.
  unfold StatsBar.updateSystemStatus, StatsBar.isString.
  destruct (StatsBar.systemStatus (StatsBar.stats b)); try done.
  by repeat case_bool_decide.
Qed.

(** X21. A server that cannot be reached is shown as [Unknown], not as
    [Error]: when both requests of [fetchStats] fail (rejected, error
    status, or a body that is not JSON), the status is [unhealthy], for
    which [updateSystemStatus] has no case; the up time and the three
    counters are 0, and the time of the update is recorded. *)
Theorem fetchStats_outage (network : nat → Request → result Response)
    (now : Z) (b : StatsBar.Bar) :
  let b' := (StatsBar.fetchStats network now b).1 in
  let stats := StatsBar.stats b' in
  StatsBar.hasApi b = true →
  apiThrows (network (length (StatsBar.requests b)) healthRequest) →
  apiThrows (network (S (length (StatsBar.requests b))) statsRequest) →
  StatsBar.systemStatus stats = VStr (lit "unhealthy")
  ∧ StatsBar.uptime stats = VNum 0
  ∧ StatsBar.totalMessages stats = VNum 0
  ∧ StatsBar.activeSessions stats = VNum 0
  ∧ StatsBar.averageResponseTime stats = VNum 0
  ∧ StatsBar.lastUpdated stats = Some now
  ∧ StatsBar.statusText (StatsBar.updateSystemStatus b') = lit "Unknown"
  ∧ StatsBar.statusDot (StatsBar.updateSystemStatus b')
      = lit "status-dot status-unknown".
Proof.
  intros b' stats Hapi Hhealth Hstats. unfold stats, b'.
  rewrite (fetchStats_run network now b Hapi).
  destruct (healthOf_failed _ Hhealth) as (Hnull & Hstatus & Huptime).
  rewrite (statsOf_failed _ Hstats).
  unfold StatsBar.updateSystemStatus, refreshed. bar_fields.
  rewrite Hnull, Hstatus, Huptime. by vm_compute.
Qed.

Lemma fetchStats_outage_witness :
  StatsBar.statusText
    (StatsBar.updateSystemStatus
       (StatsBar.fetchStats (network offline) 1000
          {| StatsBar.hasApi := true;
             StatsBar.stats :=
               {| StatsBar.totalMessages := VNum 0;
                  StatsBar.activeSessions := VNum 0;
                  StatsBar.averageResponseTime := VNum 0;
                  StatsBar.systemStatus := VStr (lit "unknown");
                  StatsBar.uptime := VNum 0;
                  StatsBar.lastUpdated := None |};
             StatsBar.loading := false;
             StatsBar.refreshAnimation := [];
             StatsBar.statusDot := lit "status-dot";
             StatsBar.statusText := lit "Checking...";
             StatsBar.requests := [] |}).1)
  = lit "Unknown".
Proof.
  apply (fetchStats_outage (network offline) 1000
           {| StatsBar.hasApi := true;
              StatsBar.stats :=
                {| StatsBar.totalMessages := VNum 0;
                   StatsBar.activeSessions := VNum 0;
                   StatsBar.averageResponseTime := VNum 0;
                   StatsBar.systemStatus := VStr (lit "unknown");
                   StatsBar.uptime := VNum 0;
                   StatsBar.lastUpdated := None |};
              StatsBar.loading := false;
              StatsBar.refreshAnimation := [];
              StatsBar.statusDot := lit "status-dot";
              StatsBar.statusText := lit "Checking...";
              StatsBar.requests := [] |}).
  - reflexivity.
  - intros parsed [status Hs]. discriminate Hs.
  - intros parsed [status Hs]. discriminate Hs.
Defined.

Lemma or_else_error v :
  or_else v (VStr (lit "healthy")) = VStr (lit "error") ↔ v = VStr (lit "error").
Proof.
  unfold or_else. split.
  - destruct (truthy v); [done|]. intros Heq. by vm_compute in Heq.
  - by intros ->.
Qed.

Lemma error_label b :
  StatsBar.statusText (StatsBar.updateSystemStatus b) = lit "Error"
  ↔ StatsBar.systemStatus (StatsBar.stats b) = VStr (lit "error").
Proof.
  rewrite status_label.
  destruct (StatsBar.systemStatus (StatsBar.stats b)) as [| | | |status| |];
    try (split; intros Heq; by vm_compute in Heq).
  repeat case_bool_decide; subst;
    split; intros Heq; try done; try (by vm_compute in Heq);
    by simplify_eq.
Qed.

(** X22. When the bar says [Error]: exactly when the answer of the health
    check or the statistics are [null] or [undefined], so that reading a
    field of them throws, or the health check itself reports the status
    [error]. A failed request is not among the causes, and statistics
    that are [null] hide a health check that went well. *)
Theorem fetchStats_error_label (network : nat → Request → result Response)
    (now : Z) (b : StatsBar.Bar) (health statistics : jsval) :
  let b' := StatsBar.updateSystemStatus (StatsBar.fetchStats network now b).1 in
  StatsBar.hasApi b = true →
  (APIService.checkHealth network (StatsBar.requests b)).2 = Ok health →
  (APIService.getStats network (StatsBar.requests b ++ [healthRequest])).2
    = Ok statistics →
  StatsBar.statusText b' = lit "Error"
  ↔ nullish health = true ∨ nullish statistics = true
    ∨ prop health (lit "status") = VStr (lit "error").
Proof.
  intros b' Hapi Hhealth Hstatistics. unfold b'.
  rewrite api_checkHealth_run in Hhealth.
  rewrite api_getStats_of, length_app, Nat.add_1_r in Hstatistics.
  simpl in Hhealth, Hstatistics.
  rewrite (fetchStats_run network now b Hapi), error_label.
  injection Hhealth as ->. injection Hstatistics as ->.
  unfold refreshed. bar_fields.
  destruct (nullish health) eqn:Hnull; [by split; [left|]|].
  destruct (nullish statistics) eqn:Hnull'; [by split; [right; left|]|].
  bar_fields. rewrite or_else_error. split; [by right; right|].
  by intros [?|[?|?]].
Qed.

Lemma fetchStats_error_label_witness :
  StatsBar.statusText
    (StatsBar.updateSystemStatus
       (StatsBar.fetchStats (network (answering calmReply VNull)) 1000
          {| StatsBar.hasApi := true;
             StatsBar.stats :=
               {| StatsBar.totalMessages := VNum 0;
                  StatsBar.activeSessions := VNum 0;
                  StatsBar.averageResponseTime := VNum 0;
                  StatsBar.systemStatus := VStr (lit "unknown");
                  StatsBar.uptime := VNum 0;
                  StatsBar.lastUpdated := None |};
             StatsBar.loading := false;
             StatsBar.refreshAnimation := [];
             StatsBar.statusDot := lit "status-dot";
             StatsBar.statusText := lit "Checking...";
             StatsBar.requests := [] |}).1)
  = lit "Error".
Proof.
  apply (fetchStats_error_label (network (answering calmReply VNull)) 1000
           {| StatsBar.hasApi := true;
              StatsBar.stats :=
                {| StatsBar.totalMessages := VNum 0;
                   StatsBar.activeSessions := VNum 0;
                   StatsBar.averageResponseTime := VNum 0;
                   StatsBar.systemStatus := VStr (lit "unknown");
                   StatsBar.uptime := VNum 0;
                   StatsBar.lastUpdated := None |};
              StatsBar.loading := false;
              StatsBar.refreshAnimation := [];
              StatsBar.statusDot := lit "status-dot";
              StatsBar.statusText := lit "Checking...";
              StatsBar.requests := [] |}
           calmReply VNull).
  - reflexivity.
  - by vm_compute.
  - by vm_compute.
  - right. left. reflexivity.
Defined.

(** X23. [formatUptime] on a whole number of seconds that is not
    negative and below 2^53, as far as a number holds every whole number
    exactly: the days, hours (below 24) and minutes (below 60) shown are
    those of the up time rounded down to the minute; days are left out
    when there are none, hours when there are neither days nor hours. *)
Theorem formatUptime_units (seconds : Z) :
  (0 ≤ seconds < 2 ^ 53)%Z →
  ∃ days hours minutes : Z,
    (0 ≤ days ∧ 0 ≤ hours < 24 ∧ 0 ≤ minutes < 60)%Z
    ∧ (days * 86400 + hours * 3600 + minutes * 60 ≤ seconds
       < days * 86400 + hours * 3600 + minutes * 60 + 60)%Z
    ∧ StatsBar.formatUptime seconds =
        Some
          (if (0 <? days)%Z then
             decimal days ++ lit "d " ++ decimal hours ++ lit "h "
               ++ decimal minutes ++ lit "m"
           else if (0 <? hours)%Z then
             decimal hours ++ lit "h " ++ decimal minutes ++ lit "m"
           else decimal minutes ++ lit "m").
Proof.
  intros Hseconds.
  exists (seconds / 86400)%Z, (Z.rem seconds 86400 / 3600)%Z,
    (Z.rem seconds 3600 / 60)%Z.
  split; [|split].
  - rewrite !Z.rem_mod_nonneg by lia. Z.div_mod_to_equations. lia.
  - rewrite !Z.rem_mod_nonneg by lia. Z.div_mod_to_equations. lia.
  - unfold StatsBar.formatUptime.
    destruct (Z.ltb_spec (Z.abs seconds) (2 ^ 53)) as [_|Hlarge]; [done|].
    rewrite Z.abs_eq in Hlarge by lia. lia.
Qed.

Lemma formatUptime_units_witness :
  ∃ days hours minutes : Z,
    (0 ≤ days ∧ 0 ≤ hours < 24 ∧ 0 ≤ minutes < 60)%Z
    ∧ (days * 86400 + hours * 3600 + minutes * 60 ≤ 93784
       < days * 86400 + hours * 3600 + minutes * 60 + 60)%Z
    ∧ StatsBar.formatUptime 93784 =
        Some
          (if (0 <? days)%Z then
             decimal days ++ lit "d " ++ decimal hours ++ lit "h "
               ++ decimal minutes ++ lit "m"
           else if (0 <? hours)%Z then
             decimal hours ++ lit "h " ++ decimal minutes ++ lit "m"
           else decimal minutes ++ lit "m").
Proof. apply (formatUptime_units 93784). lia. Defined.

(** ** The language toggle *)

Lemma findIndex_Some options el i :
  LanguageToggle.findIndex options el = Some i → options !! i = Some el.
Proof.
  revert i. induction options as [|opt options IH]; intros i; simpl; [done|].
  case_bool_decide as Heq; [by intros [= <-]; subst|].
  destruct (LanguageToggle.findIndex options el) as [j|]; [|done].
  intros [= <-]. by apply IH.
Qed.

Lemma findIndex_lookup options el i :
  NoDup options → options !! i = Some el →
  LanguageToggle.findIndex options el = Some i.
Proof.
  intros Hnodup. revert i.
  induction Hnodup as [|opt options Hnotin Hnodup IH]; intros i; [done|].
  simpl. destruct i as [|i]; simpl.
  - intros [= ->]. by rewrite bool_decide_true.
  - intros Hlookup. rewrite bool_decide_false.
    + by rewrite (IH i Hlookup).
    + intros ->. by apply Hnotin, (list_elem_of_lookup_2 _ i).
Qed.

(** X24. Tab and Shift+Tab on the options of the toggle. When the
    element that has the focus is the option at position [i] of [n],
    Tab gives the focus to the option at position [i + 1], and to the
    first one from the last; Shift+Tab gives it to the option at position
    [i - 1], and to the last one from the first. So the focus stays on
    the options, and each key undoes the other. When the focus is on no
    option, the method leaves the event alone. *)
Theorem handleTabNavigation_cycle (options : list nat)
    (activeElement i : nat) :
  let n := length options in
  NoDup options → options !! i = Some activeElement →
  LanguageToggle.handleTabNavigation options activeElement false
    = options !! ((i + 1) mod n)%nat
  ∧ LanguageToggle.handleTabNavigation options activeElement true
    = options !! ((i + n - 1) mod n)%nat
  ∧ ∃ next previous,
      options !! ((i + 1) mod n)%nat = Some next
      ∧ options !! ((i + n - 1) mod n)%nat = Some previous
      ∧ LanguageToggle.handleTabNavigation options next true
          = Some activeElement
      ∧ LanguageToggle.handleTabNavigation options previous false
          = Some activeElement
      ∧ ∀ other, other ∉ options → ∀ shiftKey,
          LanguageToggle.handleTabNavigation options other shiftKey = None.
Proof.
  intros n Hnodup Hi.
  pose proof (lookup_lt_Some _ _ _ Hi) as Hlt. fold n in Hlt.
  assert (∀ j, (j < n)%nat →
            ((if (j =? n - 1)%nat then 0 else j + 1) = (j + 1) mod n
             ∧ (if (j =? 0)%nat then n - 1 else j - 1) = (j + n - 1) mod n)%nat)
    as Hindex.
  { intros j Hj. split.
    - destruct (Nat.eqb_spec j (n - 1)) as [->|].
      + replace (n - 1 + 1)%nat with n by lia. by rewrite Nat.Div0.mod_same.
      + rewrite Nat.mod_small; lia.
    - destruct (Nat.eqb_spec j 0) as [->|].
      + rewrite Nat.mod_small; lia.
      + replace (j + n - 1)%nat with ((j - 1) + 1 * n)%nat by lia.
        rewrite Nat.Div0.mod_add, Nat.mod_small; lia. }
  assert (∀ j el shiftKey, options !! j = Some el →
            LanguageToggle.handleTabNavigation options el shiftKey =
              options !! (if shiftKey then (j + n - 1) mod n
                          else (j + 1) mod n)%nat) as Hkey.
  { intros j el shiftKey Hj.
    pose proof (lookup_lt_Some _ _ _ Hj) as Hjn. fold n in Hjn.
    destruct (Hindex j Hjn) as [Hnext Hprevious].
    unfold LanguageToggle.handleTabNavigation.
    rewrite (findIndex_lookup _ _ _ Hnodup Hj). fold n.
    destruct shiftKey; [by rewrite Hprevious | by rewrite Hnext]. }
  assert ((i + 1) mod n < n ∧ (i + n - 1) mod n < n)%nat as [Hn Hp].
  { split; apply Nat.mod_upper_bound; lia. }
  destruct (lookup_lt_is_Some_2 options _ Hn) as [next Hnext].
  destruct (lookup_lt_is_Some_2 options _ Hp) as [previous Hprevious].
  split; [exact (Hkey i activeElement false Hi)|].
  split; [exact (Hkey i activeElement true Hi)|].
  exists next, previous. split; [done|]. split; [done|].
  split; [|split].
  - rewrite (Hkey _ next true Hnext), <- Hi. f_equal.
    destruct (Hindex i Hlt) as [<- _].
    destruct (Nat.eqb_spec i (n - 1)) as [->|].
    + rewrite Nat.mod_small; lia.
    + replace (i + 1 + n - 1)%nat with (i + 1 * n)%nat by lia.
      rewrite Nat.Div0.mod_add, Nat.mod_small; lia.
  - rewrite (Hkey _ previous false Hprevious), <- Hi. f_equal.
    destruct (Hindex i Hlt) as [_ <-].
    destruct (Nat.eqb_spec i 0) as [->|].
    + replace (n - 1 + 1)%nat with n by lia. by rewrite Nat.Div0.mod_same.
    + rewrite Nat.mod_small; lia.
  - intros other Hother shiftKey.
    unfold LanguageToggle.handleTabNavigation.
    destruct (LanguageToggle.findIndex options other) as [j|] eqn:Hfound;
      [|done].
    destruct Hother. apply findIndex_Some in Hfound.
    by eapply list_elem_of_lookup_2.
Qed.

Lemma handleTabNavigation_cycle_witness :
  LanguageToggle.handleTabNavigation [7; 9; 4]%nat 4%nat false = Some 7%nat
  ∧ LanguageToggle.handleTabNavigation [7; 9; 4]%nat 4%nat true = Some 9%nat.
Proof.
  destruct (handleTabNavigation_cycle [7; 9; 4]%nat 4%nat 2%nat)
    as (Hnext & Hprevious & _).
  - apply (bool_decide_unpack _). by vm_compute.
  - reflexivity.
  - split; [exact Hnext | exact Hprevious].
Defined.

(** X25. The language preference in [localStorage]: saving never throws
    and reading never throws; what is read is never the empty string;
    when the storage can be written and read, the language read back is
    the one saved, unless that is the empty string, for which [en] is
    read; and when the storage cannot be written it stays as it is. *)
Theorem language_preference_round_trip (language : jsstring)
    (s : LanguageToggle.LocalStorage) :
  let s' := (LanguageToggle.saveLanguagePreference language s).1 in
  (LanguageToggle.saveLanguagePreference language s).2 = Ok tt
  ∧ (∃ stored,
       LanguageToggle.getStoredLanguage s' = (s', Ok stored) ∧ stored ≠ [])
  ∧ (LanguageToggle.writable s = true → LanguageToggle.readable s = true →
       (LanguageToggle.getStoredLanguage s').2 =
         Ok (if bool_decide (language = []) then lit "en" else language))
  ∧ (LanguageToggle.writable s = false → s' = s).
Proof.
  intros s'. unfold s', LanguageToggle.saveLanguagePreference,
    LanguageToggle.getStoredLanguage, LanguageToggle.setItem,
    LanguageToggle.getItem.
  unfold_effects.
  destruct s as [items readable writable].
  cbn [LanguageToggle.writable LanguageToggle.readable LanguageToggle.items].
  destruct writable; cbn [fst snd LanguageToggle.readable
                          LanguageToggle.items].
  - split; [done|]. split.
    + destruct readable; [|by eexists].
      destruct (_ !! _) as [[|c stored]|]; by eexists.
    + split; [|done]. intros _ ->. rewrite lookup_insert_eq.
      by destruct language.
  - split; [done|]. split; [|by split].
    destruct readable; [|by eexists].
    destruct (_ !! _) as [[|c stored]|]; by eexists.
Qed.

(** ** The crisis alert component *)

Ltac alert_fields :=
  cbn [CrisisAlert.isVisible CrisisAlert.display CrisisAlert.visibleClass
       CrisisAlert.contacts CrisisAlert.effects CrisisAlert.pending
       CrisisAlert.setVisible CrisisAlert.setDisplay
       CrisisAlert.setVisibleClass CrisisAlert.setContacts
       CrisisAlert.effect CrisisAlert.schedule CrisisAlert.setPending
       fst snd].

Ltac run_alert :=
  unfold CrisisAlert.show, CrisisAlert.hide, CrisisAlert.fire,
    CrisisAlert.run;
  unfold_effects.

(** [updateResources] writes the contacts and nothing else. *)
Lemma updateResources_frame toString resources a :
  let a' := (CrisisAlert.updateResources toString resources a).1 in
  CrisisAlert.isVisible a' = CrisisAlert.isVisible a
  ∧ CrisisAlert.display a' = CrisisAlert.display a
  ∧ CrisisAlert.visibleClass a' = CrisisAlert.visibleClass a
  ∧ CrisisAlert.effects a' = CrisisAlert.effects a
  ∧ CrisisAlert.pending a' = CrisisAlert.pending a.
Proof.
  unfold CrisisAlert.updateResources. unfold_effects.
  destruct (getProp resources _) as [hotlines|e]; [|done].
  destruct (truthy hotlines); [|done].
  destruct hotlines; try done.
  by destruct (CrisisAlert.contactItems toString _).
Qed.

Lemma call_consistent toString c a :
  consistent a → consistent (call toString c a).
Proof.
  intros Ha. destruct c as [crisisData| |i]; unfold call.
  - run_alert. destruct (CrisisAlert.isVisible a) eqn:Hvisible; [done|].
    alert_fields.
    destruct (getProp _ (lit "resources")) as [resources|e];
      [|by left].
    destruct (truthy resources); [|by left].
    match goal with
    | |- context [CrisisAlert.updateResources toString resources ?s] =>
        destruct (updateResources_frame toString resources s)
          as (Hv & Hd & _);
        destruct (CrisisAlert.updateResources toString resources s)
          as [a' [[]|e]]
    end; simpl in Hv, Hd; left; alert_fields; by rewrite Hv, Hd.
  - run_alert. destruct (CrisisAlert.isVisible a) eqn:Hvisible; simpl;
      [|done].
    destruct Ha as [[_ Hd]|[? _]]; [|congruence]. left. by alert_fields.
  - run_alert. destruct (CrisisAlert.pending a !! i) as [[]|]; simpl;
      [|by right; split; [|right]|done].
    destruct Ha as [Ha|Ha]; [left|right]; by alert_fields.
Qed.

Lemma calls_consistent toString cs a :
  consistent a → consistent (calls toString cs a).
Proof.
  revert a. induction cs as [|c cs IH]; intros a Ha; [done|].
  by apply IH, call_consistent.
Qed.

(** X26. Whatever calls of [show] and [hide] are made on a new component,
    with whatever data, and in whatever order the waiting callbacks run,
    also when [show] has thrown: the component takes itself for visible
    exactly when the display of its element is [flex]. *)
Theorem alert_visible_iff_displayed (toString : jsval → result jsstring)
    (cs : list Call) :
  let a := calls toString cs CrisisAlert.new in
  CrisisAlert.isVisible a = true ↔ CrisisAlert.display a = lit "flex".
Proof.
  intros a.
  assert (consistent a) as [[Hv Hd]|[Hv [Hd|Hd]]].
  { apply calls_consistent. right. split; [done|by left]. }
  - done.
  - rewrite Hv, Hd. split; [done|]. intros Heq. by vm_compute in Heq.
  - rewrite Hv, Hd. split; [done|]. intros Heq. by vm_compute in Heq.
Qed.

(** X27. A [show] that comes while the alert is being hidden is lost:
    during the 300 ms between [hide] and its callback the component
    still counts as visible, so [show] returns at once, whatever data it
    is given; when the callback runs the alert goes, and nothing shows
    it again. *)
Theorem show_during_hide_is_lost (toString : jsval → result jsstring)
    (a : CrisisAlert.Alert) (crisisData : option jsval) :
  let hiding := (CrisisAlert.hide a).1 in
  let a' :=
    calls toString [Show crisisData; Fire (length (CrisisAlert.pending a))]
      hiding in
  CrisisAlert.isVisible a = true →
  CrisisAlert.show toString crisisData hiding = (hiding, Ok tt)
  ∧ CrisisAlert.isVisible a' = false
  ∧ CrisisAlert.display a' = lit "none"
  ∧ CrisisAlert.visibleClass a' = false
  ∧ CrisisAlert.contacts a' = CrisisAlert.contacts a
  ∧ CrisisAlert.effects a' = CrisisAlert.effects a ++ [CrisisAlert.AlertHidden]
  ∧ CrisisAlert.pending a' = CrisisAlert.pending a.
Proof.
  intros hiding a' Hvisible.
  assert (hiding = CrisisAlert.schedule CrisisAlert.FinishHide
                     (CrisisAlert.setVisibleClass false a)) as Hhiding.
  { unfold hiding. run_alert. by rewrite Hvisible. }
  assert (CrisisAlert.show toString crisisData hiding = (hiding, Ok tt))
    as Hshow.
  { rewrite Hhiding. run_alert. alert_fields. by rewrite Hvisible. }
  split; [done|].
  unfold a', calls, call. cbn [foldl]. rewrite Hshow. cbn [fst].
  rewrite Hhiding. run_alert. alert_fields.
  rewrite list_lookup_middle by done. alert_fields.
  rewrite delete_middle, app_nil_r. done.
Qed.

Lemma show_during_hide_is_lost_witness :
  CrisisAlert.isVisible
    (calls plainToString
       [Show (Some (obj [(lit "resources", VNull)]));
        Fire (length (CrisisAlert.pending
                        (CrisisAlert.show plainToString None
                           CrisisAlert.new).1))]
       (CrisisAlert.hide
          (CrisisAlert.show plainToString None CrisisAlert.new).1).1)
  = false.
Proof.
  apply (show_during_hide_is_lost plainToString
           (CrisisAlert.show plainToString None CrisisAlert.new).1
           (Some (obj [(lit "resources", VNull)]))).
  reflexivity.
Defined.

Lemma show_static_unregistered toString data node document :
  unregistered (node :: document) →
  CrisisAlert.show_static toString data (node :: document)
    = (node :: document, Ok tt).
Proof.
  intros Hnodes. apply Forall_cons_1 in Hnodes as [Hnode _].
  by destruct node as [alert []|].
Qed.

(** X28. The static [show] never shows an alert. In a document without an
    element of class [crisis-alert] it makes a component, whose hidden
    element it leaves in the page, and throws a [TypeError] on assigning
    to a property of [null]; in any other document, as long as no element
    has been given a [crisisAlertInstance] from outside, it returns
    without doing anything. So however often it is called, the document
    ends as it was, but for that one hidden element. *)
Theorem show_static_never_shows (toString : jsval → result jsstring)
    (crisisData : list (option jsval)) (document : list CrisisAlert.Node) :
  unregistered document →
  showEach toString crisisData document =
    match document, crisisData with
    | [], _ :: _ => [CrisisAlert.Made CrisisAlert.new false]
    | _, _ => document
    end
  ∧ ∀ data,
      CrisisAlert.show_static toString data document =
        match document with
        | [] =>
            ([CrisisAlert.Made CrisisAlert.new false],
             Throw (TypeError (lit "Cannot set properties of null")))
        | _ => (document, Ok tt)
        end.
Proof.
  intros Hnodes.
  assert (∀ datas nodes, unregistered nodes → nodes ≠ [] →
            showEach toString datas nodes = nodes) as Hstay.
  { induction datas as [|data datas IH]; intros nodes Hn Hne; [done|].
    destruct nodes as [|node nodes]; [done|]. unfold showEach. cbn [foldl].
    rewrite (show_static_unregistered _ _ _ _ Hn). by apply IH. }
  split.
  - destruct document as [|node document].
    + destruct crisisData as [|data crisisData]; [done|].
      unfold showEach. cbn [foldl]. apply Hstay; [|done].
      by apply Forall_cons_2.
    + destruct crisisData; by apply Hstay.
  - intros data. destruct document as [|node document]; [done|].
    by apply show_static_unregistered.
Qed.

Lemma show_static_never_shows_witness :
  showEach plainToString [None; Some (obj [])] [CrisisAlert.Other]
    = [CrisisAlert.Other].
Proof.
  apply (show_static_never_shows plainToString [None; Some (obj [])]
           [CrisisAlert.Other]).
  by apply Forall_cons_2.
Defined.

Lemma listed_is_array resources language html :
  formatCrisisResources resources language = Ok html → html ≠ [] →
  ∃ items, resources = VArr items.
Proof.
  with_strategy transparent [formatCrisisResources]
    unfold formatCrisisResources.
  destruct (negb (truthy resources) || lengthIsZero resources);
    [by intros [= <-]|].
  rewrite translate_run by table_key. cbn [orb mbind result_bind asText].
  destruct resources; try done. eauto.
Qed.

(** X29. The chat and the alert component read the resources of a reply
    in two ways that exclude one another: resources of which
    [formatCrisisResources] makes a list, an array that is, have no
    [crisis_hotlines], so that [updateResources] returns without writing
    and [show] leaves the contacts of the alert as they are. *)
Theorem listed_resources_leave_contacts (toString : jsval → result jsstring)
    (resources : jsval) (language : option jsstring) (html : jsstring)
    (a : CrisisAlert.Alert) :
  formatCrisisResources resources language = Ok html → html ≠ [] →
  CrisisAlert.updateResources toString resources a = (a, Ok tt)
  ∧ (CrisisAlert.show toString
       (Some (obj [(lit "resources", resources)])) a).2 = Ok tt
  ∧ CrisisAlert.contacts
      (CrisisAlert.show toString
         (Some (obj [(lit "resources", resources)])) a).1
    = CrisisAlert.contacts a.
Proof.
  intros Hlisted Hsome.
  destruct (listed_is_array _ _ _ Hlisted Hsome) as [items ->].
  assert (CrisisAlert.updateResources toString (VArr items) a = (a, Ok tt))
    as Hupdate by done.
  split; [done|].
  run_alert. destruct (CrisisAlert.isVisible a); [done|].
  by vm_compute.
Qed.

Lemma listed_resources_leave_contacts_witness :
  CrisisAlert.updateResources plainToString
    (VArr [VStr (lit "Kenya Red Cross: 1199")]) CrisisAlert.new
  = (CrisisAlert.new, Ok tt).
Proof.
  eapply (listed_resources_leave_contacts plainToString
            (VArr [VStr (lit "Kenya Red Cross: 1199")]) None).
  - by vm_compute.
  - by vm_compute.
Defined.
